(** * Epsilon: the investment ledger of [src/controllers/investmentController.js]

    A shallow embedding of the buy, sell and delete handlers of the
    portfolio application, of the [Investment] model they write through,
    and the properties of the ledger stated over that embedding.

    Numbers.  JavaScript Numbers are modelled by exact rationals ([Q]) and
    their arithmetic by exact arithmetic: a Number stands for the decimal
    it was written as, and the representation error of binary64 products,
    sums and quotients is not modelled.  The model and the engine can
    therefore part where a result lies within that error of a comparison
    or of a rounding tie: [toFixed(2)] rounds the binary value of a Number
    (for instance [(300.01 / 2).toFixed(2)] is [150.00], the model's is
    [150.01]), and [createInvestment] compares an unrounded product with
    the balance ([100.01 * 3 > 300.03] in binary64).  Properties that pin
    an amount to the cent are therefore stated for prices and amounts of
    whole hundredths, whose products with whole quantities and whose sums
    are again whole hundredths, and for costs that differ from the balance
    they are compared with; the other properties state tolerances, bounds
    or relations between amounts the code has already rounded.  The module
    [Binary64] gives the engine's rounding, and [Binary64Facts] shows that
    on such prices and amounts the binary64 cost, comparison and new
    balance are those of the exact arithmetic used here.  [NaN] and
    the infinities are outside the model; the comments say where the
    source could produce them.  A [DECIMAL(_, 2)] column is modelled by an
    integer number of hundredths ([Z]); writing a Number to such a column
    rounds it to two fraction digits. *)

From Stdlib Require Import ZArith QArith Qabs Lqa Lia String Ascii List.
From stdpp Require Import gmap strings.
Import ListNotations.

Local Open Scope Z_scope.

(** ** Two-digit rounding *)

Module Num.

(** Nearest integer, ties away from zero: the rounding of
    [Number.prototype.toFixed] (on the exact value) and of an exact-value
    write to a [DECIMAL] column. *)
Definition round_half_away (x : Q) : Z :=
  let n := Qnum x in
  let d := Zpos (Qden x) in
  if 0 <=? n then (2 * n + d) / (2 * d) else - ((2 * (- n) + d) / (2 * d)).

(** [x.toFixed(2)], read back as hundredths. *)
Definition toFixed2 (x : Q) : Z := round_half_away (x * 100).

(** [parseFloat] of a two-digit decimal: hundredths as a Number. *)
Definition of_cents (c : Z) : Q := c # 100.

(** [parseFloat(x.toFixed(2))]. *)
Definition round2 (x : Q) : Q := of_cents (toFixed2 x).

(** The value that reaches a [DECIMAL(_, 2)] column: the column rounds
    the decimal the Number is sent as, ties away from zero.  On exact
    rationals this is the rounding of [toFixed2]; in the engine the two
    differ on a Number whose decimal is a tie and whose binary value is
    not (the column keeps [1.005] as [1.01], [(1.005).toFixed(2)] is
    [1.00]). *)
Definition decimal2 (x : Q) : Z := toFixed2 x.

(** [a < b] on Numbers. *)
Definition Qltb (a b : Q) : bool := negb (Qle_bool b a).

End Num.

(** ** Request values and built-in coercions *)

Module Js.

(** A field of a JSON request body, as far as the handlers below look at
    it: a JSON number, or absent.  A field sent as a string is outside the
    model (the handlers coerce it with [parseInt] or [*], and
    [createInvestment] concatenates it in [investment.quantity +
    quantity]); every property below is about quantities and amounts sent
    as JSON numbers. *)
Inductive jsval : Type :=
  | JUndefined
  | JNumber (x : Q).

(** First decimal digit of an integer [z >= 1]. *)
Fixpoint first_digit_int (fuel : nat) (z : Z) : Z :=
  match fuel with
  | O => z
  | S k => if z <? 10 then z else first_digit_int k (z / 10)
  end.

(** First significant digit of [n / d] when [0 < n / d < 1]. *)
Fixpoint first_digit_frac (fuel : nat) (n d : Z) : Z :=
  match fuel with
  | O => n / d
  | S k => if d <=? n then n / d else first_digit_frac k (10 * n) d
  end.

(** [parseInt(x)] for a Number: [String(x)] is read up to the first
    character that is not a digit.  [String(x)] is positional for
    [1e-6 <= |x| < 1e21] and for [0], which gives truncation toward zero;
    outside that range it is in exponent notation, which leaves the first
    significant digit. *)
Definition parseInt_number (x : Q) : Z :=
  let n := Qnum x in
  let d := Zpos (Qden x) in
  let a := Z.abs n in
  if n =? 0 then 0
  else if 10 ^ 21 * d <=? a then
    Z.sgn n * first_digit_int (Z.to_nat (Z.log2 (a / d))) (a / d)
  else if a * 10 ^ 6 <? d then
    Z.sgn n * first_digit_frac (Pos.size_nat (Qden x)) a d
  else Z.quot n d.

(** [parseInt(v)]; [None] is [NaN]. *)
Definition parseInt (v : jsval) : option Z :=
  match v with
  | JUndefined => None
  | JNumber x => Some (parseInt_number x)
  end.

Definition upper_ascii (c : ascii) : ascii :=
  let n := nat_of_ascii c in
  if (Nat.leb 97 n && Nat.leb n 122)%bool then ascii_of_nat (n - 32) else c.

(** [s.toUpperCase()] on ASCII text. *)
Fixpoint toUpperCase (s : string) : string :=
  match s with
  | EmptyString => EmptyString
  | String c r => String (upper_ascii c) (toUpperCase r)
  end.

(** [!s] for a string. *)
Definition falsy_string (s : string) : bool :=
  match s with EmptyString => true | _ => false end.

(** [a || b] on optional strings ([undefined], [null] and the empty string
    are falsy). *)
Definition or_string (a b : option string) : option string :=
  match a with
  | Some s => if falsy_string s then b else a
  | None => b
  end.

End Js.

(** ** The stores *)

Module Ledger.

Import Num Js.

(** A row of the [investments] table ([Investment] model).  The three
    [DECIMAL(_, 2)] columns hold hundredths. *)
Record investment : Type := mkInvestment {
  id : nat;
  userId : nat;
  symbol : string;
  companyName : option string;
  quantity : Z;
  purchasePrice : Z;
  currentPrice : Z;
  totalInvested : Z
}.

Inductive side : Type := BUY | SELL.

(** Modelled from the spec: the [Transaction] model is not part of the
    sources at hand; a record holds the values handed to
    [Transaction.create], and appending never fails. *)
Record transaction : Type := mkTransaction {
  tx_userId : nat;
  tx_symbol : string;
  transactionType : side;
  tx_quantity : Q;
  tx_price : Q;
  totalAmount : Q
}.

(** Modelled from the spec: the [User] model is not part of the sources at
    hand; of a user only [cashBalance] matters here, a decimal with two
    fraction digits, kept in hundredths under the user's id.  The database
    is that table, the [investments] table with the next id it hands out,
    and the transaction log. *)
Record db : Type := mkDb {
  users : gmap nat Z;
  investments : list investment;
  transactions : list transaction;
  next_id : nat
}.

(** What [financeAPI.getStockPrice] resolves to. *)
Record stockData : Type := mkStock {
  price : Q;
  shortName : option string
}.

(** Modelled from the spec: [financeAPI.getStockPrice] is not part of the
    sources at hand; it takes a symbol and resolves to stock data or to
    [null] (its tests expect an object with a numeric [price], or [null]).
    Every call of a handler is given the answers of its moment.  A call
    that throws instead of resolving is modelled further below
    ([service]). *)
Definition oracle : Type := string -> option stockData.

(** *** Accessors of the [Investment] model *)

(** [set(value) { this.setDataValue('quantity', parseInt(value) || 0) }] *)
Definition set_quantity (v : Q) : Z := parseInt_number v.

(** [set(value) { ...parseFloat(value) || 0 }] followed by the column's
    two-digit rounding. *)
Definition set_decimal (v : Q) : Z := decimal2 v.

(** [get() { return value ? parseFloat(value) : 0 }] *)
Definition get_decimal (c : Z) : Q := of_cents c.

(** *** Queries *)

Definition findOne (p : investment -> bool) (rows : list investment)
  : option investment := List.find p rows.

(** [where: { id, userId }]. *)
Definition by_id_and_user (i u : nat) (r : investment) : bool :=
  Nat.eqb (id r) i && Nat.eqb (userId r) u.

(** [where: { userId, symbol }]; symbols are compared as they are
    written (a case-insensitive collation of the column is not modelled). *)
Definition by_user_and_symbol (u : nat) (s : string) (r : investment) : bool :=
  Nat.eqb (userId r) u && String.eqb (symbol r) s.

(** [instance.update(...)]: [UPDATE ... WHERE id = i]. *)
Definition update_row (i : nat) (f : investment -> investment)
    (rows : list investment) : list investment :=
  List.map (fun r => if Nat.eqb (id r) i then f r else r) rows.

(** [instance.destroy()]: [DELETE ... WHERE id = i]. *)
Definition destroy_row (i : nat) (rows : list investment) : list investment :=
  List.filter (fun r => negb (Nat.eqb (id r) i)) rows.

(** ** What a handler does and says *)

(** The calls a handler makes on its collaborators, in order. *)
Inductive event : Type :=
  | Begin                              (* sequelize.transaction() *)
  | Rollback
  | Commit
  | GetStockPrice (s : string)         (* financeAPI.getStockPrice(s) *)
  | UserFind (u : nat) (lock : bool)   (* User.findByPk *)
  | InvestmentFind (lock : bool)       (* Investment.findOne / findAll *)
  | InvestmentCreate (i : nat)
  | InvestmentUpdate (i : nat)
  | InvestmentDestroy (i : nat)
  | UserUpdate (u : nat)
  | TransactionCreate
  | TransactionFind.                  (* Transaction.findAndCountAll *)

(** The messages of the handlers; interpolated amounts are carried as
    values (two-digit amounts in hundredths). *)
Inductive message : Type :=
  | SymbolAndQuantityRequired
  | CouldNotGetStockPrice
  | UserNotFound
  | InsufficientFundsNeedHave (need have : Z)
  | ErrorProcessingPurchase
  | ValidQuantityRequiredForSale
  | InvestmentNotFound
  | CannotSell (requested owned : Z)
  | ErrorProcessingSale
  | InvestmentDeleted
  | ValidAmountRequired
  | CashAdded (amount : Z)
  | ValidNumericQuantityRequired
  | CouldNotGetStockPriceTryAgain
  | InvalidStockPrice
  | InsufficientFunds
  | ErrorProcessingPurchaseTryAgain
  | PurchasedFor (shares : Q) (s : string) (amount : Z)
  | Purchased (shares : Z) (s : string)
  | SoldShares (shares : Z) (s : string)
  | NoMessage.

(** The fields of the position a purchase reports. *)
Record snapshot : Type := mkSnapshot {
  snap_id : nat;
  snap_symbol : string;
  snap_quantity : Z;
  snap_purchasePrice : Q;
  snap_totalInvested : Q
}.

Record transactionDetails : Type := mkDetails {
  td_symbol : string;
  td_quantity : Q;
  pricePerShare : Q;
  totalCost : Q
}.

Record saleDetails : Type := mkSale {
  sd_symbol : string;
  quantitySold : Z;
  sd_pricePerShare : Q;
  totalReceived : Q;
  profitLoss : Q;
  profitLossPercent : Q
}.

(** A position as [getAllInvestments] and [getInvestmentById] show it. *)
Record view : Type := mkView {
  view_id : nat;
  view_currentPrice : Q;
  currentValue : Q;
  gainLoss : Q;
  gainLossPercent : Q
}.

Inductive payload : Type :=
  | NoData
  | CurrentBalance (balance : Q)
  | PurchaseData (inv : snapshot) (remainingCash : Q) (details : transactionDetails)
  | SaleData (details : saleDetails) (newCashBalance : Q) (remainingShares : Z)
  | NewBalance (newBalance addedAmount : Q)
  | Views (rows : list view)
  | Balance (cashBalance : Q)
  | History (rows : list transaction) (totalCount : nat) (hasMore : bool).

Record response : Type := mkResponse {
  status : nat;
  success : bool;
  msg : message;
  data : payload
}.

Record outcome : Type := mkOutcome {
  reply : response;
  after : db;
  trace : list event
}.

Definition failure (code : nat) (m : message) : response :=
  mkResponse code false m NoData.

(** ** The handlers

    Each handler takes the oracle's answers of the moment, the
    authenticated user ([req.user.id]), the request fields, and the
    database; it yields the response, the database afterwards and the calls
    it made.  Everything a handler writes goes through one transaction, so
    a path that ends in [Rollback] leaves the database as it was.  Failures
    of the store itself (lost connection, constraint or range violation)
    are not modelled. *)

(** [createInvestment]. *)
Definition createInvestment (getStockPrice : oracle) (uid : nat)
    (req_symbol : string) (req_quantity : jsval) (d : db) : outcome :=
  let invalid :=
    mkOutcome (failure 400 SymbolAndQuantityRequired) d [Begin; Rollback] in
  match req_quantity with
  | JUndefined => invalid
  | JNumber qty =>
    (* if (!symbol || !quantity || quantity <= 0) *)
    if falsy_string req_symbol || Qeq_bool qty 0 || Qle_bool qty 0 then invalid
    else
      let SYMBOL := toUpperCase req_symbol in
      match getStockPrice SYMBOL with
      | None =>
        mkOutcome (failure 400 CouldNotGetStockPrice) d
          [Begin; GetStockPrice SYMBOL; Rollback]
      | Some stock =>
        let currentPrice := price stock in
        (* kept unrounded; in binary64 the product of a price and a
           quantity can exceed the decimal it stands for *)
        let totalCost := (currentPrice * qty)%Q in
        match users d !! uid with
        | None =>
          mkOutcome (failure 404 UserNotFound) d
            [Begin; GetStockPrice SYMBOL; UserFind uid false; Rollback]
        | Some cash =>
          let cashBalance := of_cents cash in
          if Qltb cashBalance totalCost then
            mkOutcome
              (failure 400 (InsufficientFundsNeedHave (toFixed2 totalCost) cash))
              d [Begin; GetStockPrice SYMBOL; UserFind uid false; Rollback]
          else
            let newCashBalance := (cashBalance - totalCost)%Q in
            let record :=
              mkTransaction uid SYMBOL BUY qty currentPrice totalCost in
            let details := mkDetails SYMBOL qty currentPrice totalCost in
            let finish rows nid snap ev :=
              mkOutcome
                (mkResponse 201 true
                   (PurchasedFor qty SYMBOL (toFixed2 totalCost))
                   (PurchaseData snap newCashBalance details))
                (mkDb (<[uid := decimal2 newCashBalance]> (users d)) rows
                   (transactions d ++ [record]) nid)
                ([Begin; GetStockPrice SYMBOL; UserFind uid false;
                  InvestmentFind false; ev; UserUpdate uid;
                  TransactionCreate; Commit]) in
            match findOne (by_user_and_symbol uid SYMBOL) (investments d) with
            | Some inv =>
              (* the quotient is a division by zero when the new quantity
                 is 0, which needs a negative stored quantity *)
              let newTotalQuantity := (inject_Z (quantity inv) + qty)%Q in
              let newTotalInvested :=
                (get_decimal (totalInvested inv) + totalCost)%Q in
              let newAveragePrice := (newTotalInvested / newTotalQuantity)%Q in
              let upd r :=
                mkInvestment (id r) (userId r) (symbol r)
                  (or_string (shortName stock) (companyName r))
                  (set_quantity newTotalQuantity)
                  (set_decimal newAveragePrice)
                  (set_decimal currentPrice)
                  (set_decimal newTotalInvested) in
              finish (update_row (id inv) upd (investments d)) (next_id d)
                (mkSnapshot (id inv) (symbol inv)
                   (set_quantity newTotalQuantity)
                   newAveragePrice newTotalInvested)
                (InvestmentUpdate (id inv))
            | None =>
              let row :=
                mkInvestment (next_id d) uid SYMBOL (shortName stock)
                  (set_quantity qty) (set_decimal currentPrice)
                  (set_decimal currentPrice) (set_decimal totalCost) in
              finish (investments d ++ [row]) (S (next_id d))
                (mkSnapshot (next_id d) SYMBOL (set_quantity qty)
                   currentPrice totalCost)
                (InvestmentCreate (next_id d))
            end
        end
      end
  end.

(** [buyInvestment]. *)
Definition buyInvestment (getStockPrice : oracle) (uid : nat)
    (req_symbol : string) (req_quantity : jsval) (d : db) : outcome :=
  let invalid :=
    mkOutcome (failure 400 ValidNumericQuantityRequired) d [Begin; Rollback] in
  match parseInt req_quantity with
  | None => invalid
  | Some purchaseQuantity =>
    if purchaseQuantity <=? 0 then invalid
    else
      match getStockPrice req_symbol with
      | None =>
        mkOutcome (failure 400 CouldNotGetStockPriceTryAgain) d
          [Begin; GetStockPrice req_symbol; Rollback]
      | Some stock =>
        let stockPrice := price stock in
        if Qle_bool stockPrice 0 then
          mkOutcome (failure 400 InvalidStockPrice) d
            [Begin; GetStockPrice req_symbol; Rollback]
        else
          (* [toFixed(2)] of the product; the engine rounds its binary
             value, which decides a tie *)
          let totalCost := round2 (stockPrice * inject_Z purchaseQuantity) in
          match users d !! uid with
          | None =>
            (* user.cashBalance throws on null; the catch block answers *)
            mkOutcome (failure 500 ErrorProcessingPurchaseTryAgain) d
              [Begin; GetStockPrice req_symbol; UserFind uid true; Rollback]
          | Some cash =>
            let userCashBalance := of_cents cash in
            if Qltb userCashBalance totalCost then
              mkOutcome
                (mkResponse 400 false InsufficientFunds
                   (CurrentBalance userCashBalance))
                d [Begin; GetStockPrice req_symbol; UserFind uid true; Rollback]
            else
              let newCashBalance := round2 (userCashBalance - totalCost) in
              let record :=
                mkTransaction uid req_symbol BUY (inject_Z purchaseQuantity)
                  (round2 stockPrice) totalCost in
              let details :=
                mkDetails req_symbol (inject_Z purchaseQuantity) stockPrice
                  totalCost in
              let finish rows nid snap ev :=
                mkOutcome
                  (mkResponse 200 true (Purchased purchaseQuantity req_symbol)
                     (PurchaseData snap newCashBalance details))
                  (mkDb (<[uid := decimal2 newCashBalance]> (users d)) rows
                     (transactions d ++ [record]) nid)
                  ([Begin; GetStockPrice req_symbol; UserFind uid true;
                    InvestmentFind true; ev; UserUpdate uid;
                    TransactionCreate; Commit]) in
              match findOne (by_user_and_symbol uid req_symbol) (investments d) with
              | Some inv =>
                let existingTotalInvested := get_decimal (totalInvested inv) in
                let existingQuantity := quantity inv in
                let newTotalInvested :=
                  round2 (existingTotalInvested + totalCost) in
                let newQuantity := existingQuantity + purchaseQuantity in
                (* a division by zero when [newQuantity] is 0, which needs
                   a negative stored quantity *)
                let newAveragePrice :=
                  round2 (newTotalInvested / inject_Z newQuantity) in
                let upd r :=
                  mkInvestment (id r) (userId r) (symbol r) (companyName r)
                    (set_quantity (inject_Z newQuantity))
                    (set_decimal newAveragePrice)
                    (set_decimal (round2 stockPrice))
                    (set_decimal newTotalInvested) in
                finish (update_row (id inv) upd (investments d)) (next_id d)
                  (mkSnapshot (id inv) req_symbol
                     (set_quantity (inject_Z newQuantity))
                     newAveragePrice newTotalInvested)
                  (InvestmentUpdate (id inv))
              | None =>
                let row :=
                  mkInvestment (next_id d) uid req_symbol
                    (or_string (shortName stock)
                       (Some (req_symbol ++ " Inc.")%string))
                    (set_quantity (inject_Z purchaseQuantity))
                    (set_decimal (round2 stockPrice))
                    (set_decimal (round2 stockPrice))
                    (set_decimal totalCost) in
                finish (investments d ++ [row]) (S (next_id d))
                  (mkSnapshot (next_id d) req_symbol
                     (set_quantity (inject_Z purchaseQuantity))
                     (round2 stockPrice) totalCost)
                  (InvestmentCreate (next_id d))
              end
          end
      end
  end.

(** [sellInvestment]; [req_id] is [req.params.id]. *)
Definition sellInvestment (getStockPrice : oracle) (uid : nat)
    (req_id : nat) (req_quantity : jsval) (d : db) : outcome :=
  let invalid :=
    mkOutcome (failure 400 ValidQuantityRequiredForSale) d [Begin; Rollback] in
  match parseInt req_quantity with
  | None => invalid
  | Some sellQuantity =>
    (* if (!sellQuantity || sellQuantity <= 0 || isNaN(sellQuantity)) *)
    if (sellQuantity =? 0) || (sellQuantity <=? 0) then invalid
    else
      match findOne (by_id_and_user req_id uid) (investments d) with
      | None =>
        mkOutcome (failure 404 InvestmentNotFound) d
          [Begin; InvestmentFind true; Rollback]
      | Some inv =>
        let investmentQuantity := quantity inv in
        if investmentQuantity <? sellQuantity then
          mkOutcome
            (failure 400 (CannotSell sellQuantity investmentQuantity)) d
            [Begin; InvestmentFind true; Rollback]
        else
          let currentPrice :=
            match getStockPrice (symbol inv) with
            | Some stock => round2 (price stock)
            | None => get_decimal (currentPrice inv)
            end in
          let saleValue := round2 (currentPrice * inject_Z sellQuantity) in
          let totalInvested := get_decimal (totalInvested inv) in
          (* [toFixed(2)] of a quotient times the quantity; a tie is
             decided by the binary value in the engine *)
          let proportionalInvested :=
            round2 (totalInvested / inject_Z investmentQuantity
                    * inject_Z sellQuantity) in
          let profitLoss := round2 (saleValue - proportionalInvested) in
          let profitLossPercent :=
            if Qltb 0 proportionalInvested
            then round2 (profitLoss / proportionalInvested * 100)
            else 0%Q in
          match users d !! uid with
          | None =>
            (* user.cashBalance throws on null; the catch block answers *)
            mkOutcome (failure 500 ErrorProcessingSale) d
              [Begin; InvestmentFind true; GetStockPrice (symbol inv);
               UserFind uid true; Rollback]
          | Some cash =>
            let currentCashBalance := of_cents cash in
            let newCashBalance := round2 (currentCashBalance + saleValue) in
            let record :=
              mkTransaction uid (symbol inv) SELL (inject_Z sellQuantity)
                currentPrice saleValue in
            let sale :=
              mkSale (symbol inv) sellQuantity currentPrice saleValue
                profitLoss profitLossPercent in
            let finish rows ev remaining :=
              mkOutcome
                (mkResponse 200 true (SoldShares sellQuantity (symbol inv))
                   (SaleData sale newCashBalance remaining))
                (mkDb (<[uid := decimal2 newCashBalance]> (users d)) rows
                   (transactions d ++ [record]) (next_id d))
                ([Begin; InvestmentFind true; GetStockPrice (symbol inv);
                  UserFind uid true; UserUpdate uid; TransactionCreate;
                  ev; Commit]) in
            if sellQuantity =? investmentQuantity then
              finish (destroy_row (id inv) (investments d))
                (InvestmentDestroy (id inv)) 0
            else
              let remainingQuantity := investmentQuantity - sellQuantity in
              let remainingTotalInvested :=
                round2 (totalInvested - proportionalInvested) in
              let newAveragePrice :=
                if 0 <? remainingQuantity
                then round2 (remainingTotalInvested / inject_Z remainingQuantity)
                else get_decimal (purchasePrice inv) in
              let upd r :=
                mkInvestment (id r) (userId r) (symbol r) (companyName r)
                  (set_quantity (inject_Z remainingQuantity))
                  (set_decimal newAveragePrice)
                  (set_decimal currentPrice)
                  (set_decimal remainingTotalInvested) in
              finish (update_row (id inv) upd (investments d))
                (InvestmentUpdate (id inv))
                (investmentQuantity - sellQuantity)
          end
      end
  end.

(** [deleteInvestment]: no transaction, no account access. *)
Definition deleteInvestment (uid : nat) (req_id : nat) (d : db) : outcome :=
  match findOne (by_id_and_user req_id uid) (investments d) with
  | None =>
    mkOutcome (failure 404 InvestmentNotFound) d [InvestmentFind false]
  | Some inv =>
    mkOutcome (mkResponse 200 true InvestmentDeleted NoData)
      (mkDb (users d) (destroy_row (id inv) (investments d))
         (transactions d) (next_id d))
      [InvestmentFind false; InvestmentDestroy (id inv)]
  end.

(** [addCash]. *)
Definition addCash (uid : nat) (req_amount : jsval) (d : db) : outcome :=
  match req_amount with
  | JUndefined => mkOutcome (failure 400 ValidAmountRequired) d []
  | JNumber amount =>
    (* if (!amount || amount <= 0) *)
    if Qeq_bool amount 0 || Qle_bool amount 0 then
      mkOutcome (failure 400 ValidAmountRequired) d []
    else
      match users d !! uid with
      | None => mkOutcome (failure 404 UserNotFound) d [UserFind uid false]
      | Some cash =>
        (* the response shows [toFixed(2)] of the sum, the column rounds
           the sum as it is sent; they agree unless the sum is a tie *)
        let newBalance := (of_cents cash + amount)%Q in
        mkOutcome
          (mkResponse 200 true (CashAdded (toFixed2 amount))
             (NewBalance (round2 newBalance) amount))
          (mkDb (<[uid := decimal2 newBalance]> (users d)) (investments d)
             (transactions d) (next_id d))
          [UserFind uid false; UserUpdate uid]
      end
  end.

(** The body of the [map] in [getAllInvestments], shared with
    [getInvestmentById]: refresh [currentPrice] and derive the figures
    shown.  The oracle is asked once per row. *)
Definition refresh (getStockPrice : oracle) (r : investment)
  : investment * view :=
  let shown :=
    match getStockPrice (symbol r) with
    | Some stock => price stock
    | None => get_decimal (purchasePrice r)
    end in
  let value := (shown * inject_Z (quantity r))%Q in
  let gain := (value - get_decimal (totalInvested r))%Q in
  let percent :=
    if Qltb 0 (get_decimal (totalInvested r))
    then (gain / get_decimal (totalInvested r) * 100)%Q
    else 0%Q in
  (mkInvestment (id r) (userId r) (symbol r) (companyName r) (quantity r)
     (purchasePrice r) (set_decimal shown) (totalInvested r),
   mkView (id r) shown (round2 value) (round2 gain) (round2 percent)).

(** [getAllInvestments]: every row of the user is refreshed; the rows are
    listed newest first.  [Promise.all] over the mapped rows starts every
    oracle call before the first answer is awaited, newest row first; the
    updates follow as the answers arrive, taken here in the order of the
    calls. *)
Definition getAllInvestments (getStockPrice : oracle) (uid : nat) (d : db)
  : outcome :=
  let mine := List.filter (fun r => Nat.eqb (userId r) uid) (investments d) in
  let rows :=
    List.map (fun r => if Nat.eqb (userId r) uid
                       then fst (refresh getStockPrice r) else r)
      (investments d) in
  mkOutcome
    (mkResponse 200 true NoMessage
       (Views (List.rev (List.map (fun r => snd (refresh getStockPrice r)) mine))))
    (mkDb (users d) rows (transactions d) (next_id d))
    (InvestmentFind false ::
     List.map (fun r => GetStockPrice (symbol r)) (List.rev mine) ++
     List.map (fun r => InvestmentUpdate (id r)) (List.rev mine)).

(** [getInvestmentById]. *)
Definition getInvestmentById (getStockPrice : oracle) (uid : nat)
    (req_id : nat) (d : db) : outcome :=
  match findOne (by_id_and_user req_id uid) (investments d) with
  | None =>
    mkOutcome (failure 404 InvestmentNotFound) d [InvestmentFind false]
  | Some inv =>
    mkOutcome
      (mkResponse 200 true NoMessage
         (Views [snd (refresh getStockPrice inv)]))
      (mkDb (users d)
         (update_row (id inv) (fun r => fst (refresh getStockPrice r))
            (investments d))
         (transactions d) (next_id d))
      [InvestmentFind false; GetStockPrice (symbol inv);
       InvestmentUpdate (id inv)]
  end.

(** [getCashBalance]. *)
Definition getCashBalance (uid : nat) (d : db) : outcome :=
  match users d !! uid with
  | None => mkOutcome (failure 404 UserNotFound) d [UserFind uid false]
  | Some cash =>
    mkOutcome (mkResponse 200 true NoMessage (Balance (of_cents cash))) d
      [UserFind uid false]
  end.

Definition side_eqb (a b : side) : bool :=
  match a, b with
  | BUY, BUY | SELL, SELL => true
  | _, _ => false
  end.

(** [getTransactionHistory]; [limit] and [offset] are the query's values
    after [parseInt], [type] is the filter when the query names [BUY] or
    [SELL].  The modelled record carries no [transactionDate]: records are
    kept in the order they were written, and the query's
    [ORDER BY transactionDate DESC] is taken to be the reverse of that
    order.  The query has no tie-breaker, so the order of two records of
    one instant is the database's choice; the properties below speak of
    which records a page holds and how many, not of their order. *)
Definition getTransactionHistory (uid : nat) (limit offset : nat)
    (type : option side) (d : db) : outcome :=
  let wanted t :=
    Nat.eqb (tx_userId t) uid &&
    match type with
    | None => true
    | Some k => side_eqb (transactionType t) k
    end in
  let found := List.filter wanted (transactions d) in
  let page := firstn limit (skipn offset (List.rev found)) in
  mkOutcome
    (mkResponse 200 true NoMessage
       (History page (length found) (Nat.ltb (offset + limit) (length found))))
    d [TransactionFind].

(** The exported handlers as one request type. *)
Inductive request : Type :=
  | GetAllInvestments
  | GetInvestmentById (i : nat)
  | CreateInvestment (s : string) (q : jsval)
  | SellInvestment (i : nat) (q : jsval)
  | DeleteInvestment (i : nat)
  | GetCashBalance
  | AddCash (amount : jsval)
  | GetTransactionHistory (limit offset : nat) (type : option side)
  | BuyInvestment (s : string) (q : jsval).

Definition handle (o : oracle) (uid : nat) (rq : request) (d : db) : outcome :=
  match rq with
  | GetAllInvestments => getAllInvestments o uid d
  | GetInvestmentById i => getInvestmentById o uid i d
  | CreateInvestment s q => createInvestment o uid s q d
  | SellInvestment i q => sellInvestment o uid i q d
  | DeleteInvestment i => deleteInvestment uid i d
  | GetCashBalance => getCashBalance uid d
  | AddCash a => addCash uid a d
  | GetTransactionHistory l f t => getTransactionHistory uid l f t d
  | BuyInvestment s q => buyInvestment o uid s q d
  end.

(** ** Oracle calls that throw

    [await financeAPI.getStockPrice(...)] can also throw: the promise is
    rejected.  The three trade handlers make the call inside their [try]
    block and have one [catch] block, which rolls the transaction back and
    answers 500 with the handler's own message. *)

(** What a call of the oracle comes to. *)
Inductive settled : Type :=
  | Resolved (answer : option stockData)
  | Rejected.

Definition service : Type := string -> settled.

(** The answers of the calls that resolve. *)
Definition answers (f : service) : oracle :=
  fun s => match f s with Resolved a => a | Rejected => None end.

(** The calls of a handler up to and including its first oracle call, and
    the symbol asked about. *)
Fixpoint up_to_fetch (t : list event) : option (list event * string) :=
  match t with
  | [] => None
  | GetStockPrice s :: _ => Some ([GetStockPrice s], s)
  | e :: rest =>
    match up_to_fetch rest with
    | Some (calls, s) => Some (e :: calls, s)
    | None => None
    end
  end.

(** [try { run } catch { rollback; 500 }] around the one oracle call of a
    trade handler.  Up to that call a handler does not depend on the
    answer, so the call is the one the handler makes under the resolved
    answers; when it is rejected the [catch] block takes over, with
    nothing written. *)
Definition catching (m : message) (run : oracle -> db -> outcome)
    (f : service) (d : db) : outcome :=
  let r := run (answers f) d in
  match up_to_fetch (trace r) with
  | Some (calls, s) =>
    match f s with
    | Rejected => mkOutcome (failure 500 m) d (calls ++ [Rollback])
    | Resolved _ => r
    end
  | None => r
  end.



Definition sellInvestment_try (f : service) (uid : nat)
    (req_id : nat) (req_quantity : jsval) : db -> outcome :=
  catching ErrorProcessingSale
    (fun o => sellInvestment o uid req_id req_quantity) f.

End Ledger.

(** * Vocabulary of the properties *)

Module Props.

Import Num Js Ledger.

(** The current balance a failure response carries, in its data or in its
    message. *)
Definition reported_balance (r : response) : option Q :=
  match data r, msg r with
  | CurrentBalance b, _ => Some b
  | _, InsufficientFundsNeedHave _ have => Some (of_cents have)
  | _, _ => None
  end.

(** The required amount a failure response carries (hundredths). *)
Definition reported_required (r : response) : option Z :=
  match msg r with
  | InsufficientFundsNeedHave need _ => Some need
  | _ => None
  end.

(** The response refuses a purchase for lack of funds. *)
Definition insufficient_funds (r : response) : bool :=
  negb (success r) &&
  match msg r with
  | InsufficientFunds | InsufficientFundsNeedHave _ _ => true
  | _ => false
  end.

(** Reads that take a row lock ([lock: true]). *)
Definition account_lock (e : event) : bool :=
  match e with UserFind _ true => true | _ => false end.

Definition position_lock (e : event) : bool :=
  match e with InvestmentFind true => true | _ => false end.

Definition row_lock (e : event) : bool := account_lock e || position_lock e.

(** No lock of the kind [is_lock] is held when the oracle is called: locks
    are released by [Commit] and [Rollback] only. *)
Fixpoint fetch_outside_locks (is_lock : event -> bool) (held : bool)
    (t : list event) : bool :=
  match t with
  | [] => true
  | GetStockPrice _ :: rest =>
    negb held && fetch_outside_locks is_lock held rest
  | Commit :: rest | Rollback :: rest =>
    fetch_outside_locks is_lock false rest
  | e :: rest => fetch_outside_locks is_lock (held || is_lock e) rest
  end.

(** The events that touch a store or the oracle; [Begin] and [Rollback]
    only open and close the transaction. *)
Definition is_io (e : event) : bool :=
  match e with
  | Begin | Rollback | Commit => false
  | _ => true
  end.

(** The symbols the oracle was asked about. *)
Fixpoint fetched (t : list event) : list string :=
  match t with
  | [] => []
  | GetStockPrice s :: rest => s :: fetched rest
  | _ :: rest => fetched rest
  end.

(** Rows with no share left. *)
Definition empty_rows (d : db) : list investment :=
  List.filter (fun r => quantity r =? 0) (investments d).

(** The two purchase handlers, and the symbol each one stores. *)
Inductive entry : Type := ViaCreate | ViaBuy.

Definition buy (e : entry)
  : oracle -> nat -> string -> jsval -> db -> outcome :=
  match e with
  | ViaCreate => createInvestment
  | ViaBuy => buyInvestment
  end.


(** What the two purchase handlers are compared on: a row by its id,
    owner, symbol, quantity, last price and cost basis, and a transaction
    record by its fields, its amounts to the hundredth.  The stored average
    price is left out: the handlers round it by different means. *)
Definition position_key (r : investment) : nat * nat * string * Z * Z * Z :=
  (id r, userId r, symbol r, quantity r, currentPrice r, totalInvested r).

Definition same_record (a b : transaction) : Prop :=
  tx_userId a = tx_userId b /\
  tx_symbol a = tx_symbol b /\
  transactionType a = transactionType b /\
  (tx_quantity a == tx_quantity b)%Q /\
  toFixed2 (tx_price a) = toFixed2 (tx_price b) /\
  toFixed2 (totalAmount a) = toFixed2 (totalAmount b).

Definition same_purchase (c b : outcome) : Prop :=
  success (reply c) = success (reply b) /\
  users (after c) = users (after b) /\
  List.map position_key (investments (after c))
  = List.map position_key (investments (after b)) /\
  Forall2 same_record (transactions (after c)) (transactions (after b)).

(** A trade of the user: a purchase through either handler, or a sale. *)
Inductive trade : Type :=
  | TBuy (e : entry) (s : string) (q : jsval)
  | TSell (i : nat) (q : jsval).

Definition run_trade (o : oracle) (uid : nat) (t : trade) (d : db) : outcome :=
  match t with
  | TBuy e s q => buy e o uid s q d
  | TSell i q => sellInvestment o uid i q d
  end.

(** The cash a successful response says has moved: minus the total cost of
    a purchase, plus the value of a sale. *)
Definition cash_flow (r : response) : Q :=
  match data r with
  | PurchaseData _ _ details => (- totalCost details)%Q
  | SaleData sale _ _ => totalReceived sale
  | _ => 0%Q
  end.

(** A sequence of trades, each with the oracle of its moment, all of which
    succeed: the database at the end and the sum of the cash flows. *)
Fixpoint run_trades (uid : nat) (ts : list (oracle * trade)) (d : db)
  : option (db * Q) :=
  match ts with
  | [] => Some (d, 0%Q)
  | (o, t) :: rest =>
    let r := run_trade o uid t d in
    if success (reply r) then
      match run_trades uid rest (after r) with
      | Some (d', net) => Some (d', (cash_flow (reply r) + net)%Q)
      | None => None
      end
    else None
  end.

(** Sum of [totalInvested] over the user's rows (hundredths). *)
Definition cost_basis (uid : nat) (d : db) : Z :=
  fold_right Z.add 0
    (List.map totalInvested
       (List.filter (fun r => Nat.eqb (userId r) uid) (investments d))).

(** Half a hundredth per trade. *)
Definition rounding_allowance (ts : list (oracle * trade)) : Q :=
  Z.of_nat (length ts) # 200.

(** The conservation law with the cost basis of the open positions on the
    side of the final cash. *)
Definition conserved_with_basis (uid : nat) (ts : list (oracle * trade))
    (d : db) : Prop :=
  forall d' net c c',
    run_trades uid ts d = Some (d', net) ->
    users d !! uid = Some c ->
    users d' !! uid = Some c' ->
    (Qabs (of_cents (c' + cost_basis uid d') - (of_cents c + net))
     <= rounding_allowance ts)%Q.

(** A row without its [currentPrice]. *)
Definition without_price (r : investment)
  : nat * nat * string * option string * Z * Z * Z :=
  (id r, userId r, symbol r, companyName r, quantity r, purchasePrice r,
   totalInvested r).

(** An update that leaves a row's identity alone. *)
Definition keeps_identity (f : investment -> investment) : Prop :=
  forall r, id (f r) = id r /\ userId (f r) = userId r /\ symbol (f r) = symbol r.

(** A purchase of the symbol [sym], as stored. *)
Definition purchase_of (rq : request) (sym : string) : Prop :=
  (exists s q, rq = CreateInvestment s q /\ toUpperCase s = sym) \/
  (exists q, rq = BuyInvestment sym q).

(** What a request of user [uid] does to the [investments] table. *)
Inductive effect (o : oracle) (uid : nat) (rq : request) (d : db)
    (out : outcome) : Prop :=
  | Untouched :
      investments (after out) = investments d ->
      effect o uid rq d out
  | FirstBuy (row : investment) :
      investments (after out) = investments d ++ [row] ->
      id row = next_id d -> userId row = uid ->
      findOne (by_user_and_symbol uid (symbol row)) (investments d) = None ->
      purchase_of rq (symbol row) ->
      effect o uid rq d out
  | NextBuy (inv : investment) (f : investment -> investment) :
      findOne (by_user_and_symbol uid (symbol inv)) (investments d) = Some inv ->
      investments (after out) = update_row (id inv) f (investments d) ->
      keeps_identity f ->
      purchase_of rq (symbol inv) ->
      effect o uid rq d out
  | PartialSale (inv : investment) (f : investment -> investment)
      (i : nat) (q : jsval) (n : Z) :
      rq = SellInvestment i q ->
      findOne (by_id_and_user i uid) (investments d) = Some inv ->
      parseInt q = Some n -> 0 < n < quantity inv ->
      investments (after out) = update_row (id inv) f (investments d) ->
      keeps_identity f ->
      effect o uid rq d out
  | FullSale (inv : investment) (i : nat) (q : jsval)
      (sale : saleDetails) (balance : Q) (cash : Z) :
      rq = SellInvestment i q ->
      findOne (by_id_and_user i uid) (investments d) = Some inv ->
      parseInt q = Some (quantity inv) ->
      investments (after out) = destroy_row (id inv) (investments d) ->
      data (reply out) = SaleData sale balance 0 ->
      users d !! uid = Some cash ->
      users (after out) !! uid = Some (cash + toFixed2 (totalReceived sale)) ->
      effect o uid rq d out
  | Deletion (inv : investment) (i : nat) :
      rq = DeleteInvestment i ->
      findOne (by_id_and_user i uid) (investments d) = Some inv ->
      investments (after out) = destroy_row (id inv) (investments d) ->
      users (after out) = users d ->
      transactions (after out) = transactions d ->
      effect o uid rq d out
  | RefreshOne (inv : investment) (i : nat) :
      rq = GetInvestmentById i ->
      findOne (by_id_and_user i uid) (investments d) = Some inv ->
      investments (after out)
      = update_row (id inv) (fun r => fst (refresh o r)) (investments d) ->
      effect o uid rq d out
  | RefreshAll :
      rq = GetAllInvestments ->
      investments (after out)
      = List.map (fun r => if Nat.eqb (userId r) uid
                           then fst (refresh o r) else r) (investments d) ->
      effect o uid rq d out.







(** Row ids are below the next id to hand out, and no two rows share one. *)
Definition ids_below (n : nat) (rows : list investment) : bool :=
  forallb (fun r => Nat.ltb (id r) n) rows.

Fixpoint distinct_ids (rows : list investment) : bool :=
  match rows with
  | [] => true
  | r :: rest =>
    negb (existsb (fun r' => Nat.eqb (id r') (id r)) rest) && distinct_ids rest
  end.

Definition well_formed (d : db) : bool :=
  ids_below (next_id d) (investments d) && distinct_ids (investments d).

(** Sample data: user 1, an oracle that knows [AAPL] at 150, and one that
    answers every symbol at 150. *)
Definition AAPL : string := "AAPL".

Definition oracle_aapl : oracle :=
  fun s => if String.eqb s AAPL
           then Some (mkStock 150 (Some "Apple Inc."%string)) else None.

Definition oracle_any : oracle := fun _ => Some (mkStock 150 None).

Definition oracle_down : oracle := fun _ => None.

Definition db_cash (c : Z) : db := mkDb {[ 1%nat := c ]} [] [] 1.

Definition apple_row (q : Z) : investment :=
  mkInvestment 1 1 AAPL (Some "Apple Inc."%string) q 15000 15000 (150 * q * 100).

(** Buy 10 at 150, sell 5 when the oracle is down, buy 3 more through
    [createInvestment]. *)
Definition sample_trades : list (oracle * trade) :=
  [(oracle_aapl, TBuy ViaBuy AAPL (JNumber 10));
   (oracle_down, TSell 1 (JNumber 5));
   (oracle_aapl, TBuy ViaCreate AAPL (JNumber 3))].

Definition db_holding (c q : Z) : db :=
  mkDb {[ 1%nat := c ]} [apple_row q] [] 2.

End Props.

(** * Vocabulary of the further properties *)

Module Cover.

Import Num Js Ledger Props.

(** Calls that write to a table. *)
Definition is_write (e : event) : bool :=
  match e with
  | InvestmentCreate _ | InvestmentUpdate _ | InvestmentDestroy _
  | UserUpdate _ | TransactionCreate => true
  | _ => false
  end.

(** Calls that open or close a transaction. *)
Definition is_bracket (e : event) : bool :=
  match e with
  | Begin | Commit | Rollback => true
  | _ => false
  end.

(** Nothing in the trace opens or closes a transaction. *)
Definition transaction_free (t : list event) : bool :=
  forallb (fun e => negb (is_bracket e)) t.

(** The calls after [Begin] hold no further bracket until the last one,
    which is of the kind [closing]. *)
Fixpoint closes_with (closing : event -> bool) (t : list event) : bool :=
  match t with
  | [] => false
  | [e] => closing e
  | e :: rest => negb (is_bracket e) && closes_with closing rest
  end.

Definition committed (t : list event) : bool :=
  match t with
  | Begin :: rest =>
    closes_with (fun e => match e with Commit => true | _ => false end) rest
  | _ => false
  end.

Definition rolled_back (t : list event) : bool :=
  match t with
  | Begin :: rest =>
    closes_with (fun e => match e with Rollback => true | _ => false end) rest
  | _ => false
  end.

(** A row whose amounts are all non-negative. *)
Definition nonneg_row (r : investment) : Prop :=
  0 <= quantity r /\ 0 <= purchasePrice r /\
  0 <= currentPrice r /\ 0 <= totalInvested r.

(** No negative cash balance and no negative amount in a position. *)
Definition solvent (d : db) : Prop :=
  (forall u c, users d !! u = Some c -> 0 <= c) /\
  Forall nonneg_row (investments d).

(** The oracle never quotes a negative price. *)
Definition oracle_nonneg (o : oracle) : Prop :=
  forall s stock, o s = Some stock -> (0 <= price stock)%Q.

(** The key of the table's unique index. *)
Definition index_key (r : investment) : nat * string := (userId r, symbol r).

(** At most one row for a user and a symbol. *)
Definition one_per_symbol (d : db) : Prop :=
  NoDup (List.map index_key (investments d)).

(** The rows of one user. *)
Definition rows_of (u : nat) (d : db) : list investment :=
  List.filter (fun r => Nat.eqb (userId r) u) (investments d).

(** Sum of [totalInvested] over the rows of a user in a list of rows. *)
Definition basis_of (u : nat) (rows : list investment) : Z :=
  fold_right Z.add 0
    (List.map totalInvested
       (List.filter (fun r => Nat.eqb (userId r) u) rows)).

(** The cash balance a response shows. *)
Definition reported_cash (r : response) : option Q :=
  match data r with
  | PurchaseData _ c _ | SaleData _ c _ | Balance c | NewBalance c _ => Some c
  | _ => None
  end.

(** The parts of a transaction-history response. *)
Definition history_page (r : response) : list transaction :=
  match data r with History rows _ _ => rows | _ => [] end.

Definition history_count (r : response) : nat :=
  match data r with History _ n _ => n | _ => O end.

Definition history_more (r : response) : bool :=
  match data r with History _ _ m => m | _ => false end.

(** A record passes the history filter of a user. *)
Definition in_history (u : nat) (type : option side) (t : transaction) : Prop :=
  tx_userId t = u /\
  match type with None => True | Some k => transactionType t = k end.

(** The profit a successful sale reports, zero for any other response. *)
Definition realised (r : response) : Q :=
  match data r with
  | SaleData sale _ _ => profitLoss sale
  | _ => 0%Q
  end.

(** A database with two users and one position each. *)
Definition two_users : db :=
  mkDb (<[2%nat := 200000]> {[ 1%nat := 100000 ]})
    [apple_row 10;
     mkInvestment 2 2 AAPL (Some "Apple Inc."%string) 4 15000 15000 60000]
    [mkTransaction 1 AAPL BUY 10 150 1500;
     mkTransaction 2 AAPL BUY 4 150 600;
     mkTransaction 1 AAPL SELL 2 150 300]
    3.

End Cover.

(** * The handlers' amounts in binary64

    The engine computes with IEEE 754 binary64 Numbers.  This module
    gives the rounding of that arithmetic and, in it, the money amounts
    that the purchase and sale handlers derive, so that the exact
    arithmetic of the embedding above can be compared with them. *)

Module Binary64.

Import Num.

(** Nearest integer to [p / q] for [0 <= p] and [0 < q], ties to the even
    one. *)
Definition round_half_even (p q : Z) : Z :=
  let f := p / q in
  let r := p mod q in
  if 2 * r <? q then f
  else if q <? 2 * r then f + 1
  else if Z.even f then f else f + 1.

(** [2 ^ L <= a / d], for positive [a] and [d]. *)
Definition pow2_le (L a d : Z) : bool :=
  if 0 <=? L then d * 2 ^ L <=? a else d <=? a * 2 ^ (- L).

(** The binary exponent of [a / d]: the [L] with
    [2 ^ L <= a / d < 2 ^ (L + 1)]. *)
Definition exponent (a d : Z) : Z :=
  let L0 := Z.log2 a - Z.log2 d in
  if pow2_le L0 a d then L0 else L0 - 1.

(** The binary64 value nearest to [x], ties to even: a significand of 53
    bits at the exponent of [x].  The exponent range is not modelled (no
    overflow to infinity, no subnormal values); money amounts are far from
    both ends. *)
Definition fl (x : Q) : Q :=
  let n := Qnum x in
  let d := Zpos (Qden x) in
  if n =? 0 then 0%Q
  else
    let a := Z.abs n in
    let e := exponent a d - 52 in
    let v :=
      if 0 <=? e then inject_Z (round_half_even a (d * 2 ^ e) * 2 ^ e)
      else Qmake (round_half_even (a * 2 ^ (- e)) d) (Z.to_pos (2 ^ (- e))) in
    if 0 <? n then v else (- v)%Q.

(** The relative error of one rounding: [2 ^ -53]. *)
Definition eps : Q := 1 # 9007199254740992.

(** [a * b], [a + b], [a - b] and [a / b] on Numbers. *)
Definition mul64 (a b : Q) : Q := fl (a * b).
Definition add64 (a b : Q) : Q := fl (a + b).
Definition sub64 (a b : Q) : Q := fl (a - b).

(** [parseFloat(x.toFixed(2))]: [toFixed] rounds the exact value of the
    Number, [parseFloat] takes the nearest Number to the two-digit
    decimal. *)
Definition parseFloat_toFixed2 (x : Q) : Q := fl (of_cents (toFixed2 x)).

(** [parseFloat((stockPrice * purchaseQuantity).toFixed(2))] of
    [buyInvestment], and [parseFloat((currentPrice * sellQuantity)
    .toFixed(2))] of [sellInvestment]. *)
Definition totalCost64 (stockPrice : Q) (purchaseQuantity : Z) : Q :=
  parseFloat_toFixed2 (mul64 stockPrice (inject_Z purchaseQuantity)).

(** [userCashBalance < totalCost], the balance read from its column. *)
Definition lacks_funds64 (cash : Z) (totalCost : Q) : bool :=
  Qltb (fl (of_cents cash)) totalCost.

(** [parseFloat((userCashBalance - totalCost).toFixed(2))]. *)
Definition newCashBalance64 (cash : Z) (totalCost : Q) : Q :=
  parseFloat_toFixed2 (sub64 (fl (of_cents cash)) totalCost).

(** [parseFloat((currentCashBalance + saleValue).toFixed(2))]. *)
Definition creditedBalance64 (cash : Z) (saleValue : Q) : Q :=
  parseFloat_toFixed2 (add64 (fl (of_cents cash)) saleValue).

(** [currentPrice * quantity] of [createInvestment], which is compared
    with the balance as it is. *)
Definition unrounded_cost64 (currentPrice : Q) (quantity : Z) : Q :=
  mul64 currentPrice (inject_Z quantity).

End Binary64.

(** * Facts about the numeric model *)

Module NumFacts.

Import Num Js.

Lemma Qltb_lt a b : Qltb a b = true <-> (a < b)%Q.
Proof.
  unfold Qltb. rewrite negb_true_iff.
  split; intros H.
  - apply Qnot_le_lt. intros Hle. apply Qle_bool_iff in Hle. congruence.
  - destruct (Qle_bool b a) eqn:E; [|reflexivity].
    apply Qle_bool_iff in E. exfalso. apply (Qlt_not_le _ _ H E).
Qed.

Lemma Qltb_ge a b : Qltb a b = false <-> (b <= a)%Q.
Proof.
  unfold Qltb. rewrite negb_false_iff. apply Qle_bool_iff.
Qed.

Lemma div_cross a b c d :
  0 < b -> 0 < d -> a * d = c * b -> a / b = c / d.
Proof.
  intros Hb Hd H.
  rewrite <- (Z.div_mul_cancel_r a b d) by lia.
  rewrite <- (Z.div_mul_cancel_r c d b) by lia.
  rewrite H. f_equal. lia.
Qed.

Lemma round_half_away_proper x y :
  (x == y)%Q -> round_half_away x = round_half_away y.
Proof.
  unfold Qeq, round_half_away. intros H.
  pose proof (Pos2Z.is_pos (Qden x)) as Hx.
  pose proof (Pos2Z.is_pos (Qden y)) as Hy.
  destruct (Z.leb_spec 0 (Qnum x)) as [Hn|Hn];
    destruct (Z.leb_spec 0 (Qnum y)) as [Hm|Hm]; try nia.
  - apply div_cross; nia.
  - f_equal. apply div_cross; nia.
Qed.

Lemma toFixed2_proper x y : (x == y)%Q -> toFixed2 x = toFixed2 y.
Proof.
  intros H. unfold toFixed2. apply round_half_away_proper.
  rewrite H. reflexivity.
Qed.

Lemma round_half_away_inject c : round_half_away (inject_Z c) = c.
Proof.
  unfold round_half_away, inject_Z. cbn [Qnum Qden].
  destruct (Z.leb_spec 0 c).
  - symmetry. apply (Z.div_unique _ _ _ 1); lia.
  - replace ((2 * - c + 1) / (2 * 1)) with (- c).
    + lia.
    + apply (Z.div_unique _ _ _ 1); lia.
Qed.

Lemma toFixed2_of_cents c : toFixed2 (of_cents c) = c.
Proof.
  unfold toFixed2. rewrite <- (round_half_away_inject c) at 2.
  apply round_half_away_proper.
  unfold of_cents, Qeq, inject_Z, Qmult. cbn [Qnum Qden]. lia.
Qed.

Lemma toFixed2_eq x c : (x == of_cents c)%Q -> toFixed2 x = c.
Proof.
  intros H. rewrite (toFixed2_proper _ _ H). apply toFixed2_of_cents.
Qed.

Lemma of_cents_plus a b : (of_cents a + of_cents b == of_cents (a + b))%Q.
Proof. unfold of_cents, Qeq, Qminus, Qplus, Qopp. cbn [Qnum Qden]. lia. Qed.

Lemma of_cents_minus a b : (of_cents a - of_cents b == of_cents (a - b))%Q.
Proof. unfold of_cents, Qeq, Qminus, Qplus, Qopp. cbn [Qnum Qden]. lia. Qed.

(** Rounding moves a Number by at most half a hundredth. *)
Lemma round_half_away_close x :
  (Qabs (inject_Z (round_half_away x) - x) <= 1 # 2)%Q.
Proof.
  apply Qabs_Qle_condition.
  unfold round_half_away.
  destruct x as [n d]. cbn [Qnum Qden].
  pose proof (Pos2Z.is_pos d) as Hd.
  destruct (Z.leb_spec 0 n) as [Hn|Hn].
  - pose proof (Z.div_mod (2 * n + Zpos d) (2 * Zpos d) ltac:(lia)) as E.
    pose proof (Z.mod_pos_bound (2 * n + Zpos d) (2 * Zpos d) ltac:(lia)) as B.
    set (r := (2 * n + Zpos d) / (2 * Zpos d)) in *.
    unfold Qle, Qminus, Qplus, Qopp, inject_Z. cbn [Qnum Qden]. split; nia.
  - pose proof (Z.div_mod (2 * - n + Zpos d) (2 * Zpos d) ltac:(lia)) as E.
    pose proof (Z.mod_pos_bound (2 * - n + Zpos d) (2 * Zpos d) ltac:(lia)) as B.
    set (r := (2 * - n + Zpos d) / (2 * Zpos d)) in *.
    unfold Qle, Qminus, Qplus, Qopp, inject_Z. cbn [Qnum Qden]. split; nia.
Qed.

Lemma round2_close x : (Qabs (round2 x - x) <= 1 # 200)%Q.
Proof.
  pose proof (round_half_away_close (x * 100)) as H.
  apply Qabs_Qle_condition in H. apply Qabs_Qle_condition.
  unfold round2, toFixed2.
  set (r := round_half_away (x * 100)) in *.
  assert (E : (of_cents r == inject_Z r / 100)%Q).
  { unfold of_cents, Qeq, Qdiv, Qmult, Qinv, inject_Z. cbn. lia. }
  rewrite E. destruct H as [H1 H2].
  split; apply (Qmult_le_r _ _ 100); try reflexivity; field_simplify; lra.
Qed.

Lemma parseInt_number_inject (z : Z) :
  Z.abs z < 10 ^ 21 -> parseInt_number (inject_Z z) = z.
Proof.
  intros H. unfold parseInt_number, inject_Z. cbn [Qnum Qden].
  destruct (Z.eqb_spec z 0) as [->|Hz]; [reflexivity|].
  destruct (Z.leb_spec (10 ^ 21 * 1) (Z.abs z)); [lia|].
  destruct (Z.ltb_spec (Z.abs z * 10 ^ 6) 1); [lia|].
  apply Z.quot_1_r.
Qed.


Lemma inject_Z_pos z : 0 < z -> (0 < inject_Z z)%Q.
Proof. intros H. unfold Qlt, inject_Z. cbn [Qnum Qden]. lia. Qed.

Lemma of_cents_close x : (Qabs (of_cents (toFixed2 x) - x) <= 1 # 200)%Q.
Proof. apply round2_close. Qed.

Lemma first_digit_int_pos fuel : forall z, 1 <= z -> 1 <= first_digit_int fuel z.
Proof.
  induction fuel as [|k IH]; intros z Hz; cbn [first_digit_int]; [exact Hz|].
  destruct (Z.ltb_spec z 10); [exact Hz|].
  apply IH. apply Z.div_le_lower_bound; lia.
Qed.

Lemma parseInt_number_pos z : 0 < z -> 0 < parseInt_number (inject_Z z).
Proof.
  intros Hz. destruct (Z.lt_ge_cases z (10 ^ 21)) as [Hlt|Hge].
  - rewrite parseInt_number_inject; lia.
  - unfold parseInt_number, inject_Z. cbn [Qnum Qden].
    destruct (Z.eqb_spec z 0); [lia|].
    destruct (Z.leb_spec (10 ^ 21 * 1) (Z.abs z)); [|lia].
    rewrite Z.sgn_pos, Z.div_1_r by lia.
    pose proof (first_digit_int_pos (Z.to_nat (Z.log2 (Z.abs z))) (Z.abs z)
                  ltac:(lia)).
    lia.
Qed.

Lemma two_digit_product p pc q :
  (p == of_cents pc)%Q -> (p * inject_Z q == of_cents (pc * q))%Q.
Proof.
  intros H. rewrite H. unfold of_cents, inject_Z, Qeq, Qmult.
  cbn [Qnum Qden]. lia.
Qed.

(** Whole hundredths stay whole under a product with a whole number, a sum
    and a difference, so the rounding that follows leaves them alone. *)
Lemma round2_cents_product p n :
  round2 (of_cents p * inject_Z n) = of_cents (p * n).
Proof.
  unfold round2. f_equal. apply toFixed2_eq, two_digit_product. reflexivity.
Qed.

Lemma round2_cents_plus a b : round2 (of_cents a + of_cents b) = of_cents (a + b).
Proof. unfold round2. f_equal. apply toFixed2_eq, of_cents_plus. Qed.

Lemma round2_cents_minus a b : round2 (of_cents a - of_cents b) = of_cents (a - b).
Proof. unfold round2. f_equal. apply toFixed2_eq, of_cents_minus. Qed.

End NumFacts.

(** * The ledger's properties *)

Module LedgerFacts.

Import Num Js Ledger Props NumFacts.

Lemma Qle_bool_false a b : (b < a)%Q -> Qle_bool a b = false.
Proof.
  intros H. destruct (Qle_bool a b) eqn:E; [|reflexivity].
  apply Qle_bool_iff in E. exfalso. apply (Qlt_not_le _ _ H E).
Qed.

Lemma Qeq_bool_false_pos a : (0 < a)%Q -> Qeq_bool a 0 = false.
Proof.
  intros H. destruct (Qeq_bool a 0) eqn:E; [|reflexivity].
  apply Qeq_bool_iff in E. rewrite E in H. exfalso. apply (Qlt_irrefl _ H).
Qed.

(** ** Refused purchases *)

(** X26: [createInvestment] refuses a purchase of a whole number of shares
    at a price of whole hundredths that costs more than the cash at hand:
    it answers 400, its message names the cost and the balance, and it
    writes nothing. *)
Lemma createInvestment_insufficient_funds o uid s n stock pc cash d :
  s <> EmptyString -> 0 < n ->
  o (toUpperCase s) = Some stock ->
  (price stock == of_cents pc)%Q ->
  users d !! uid = Some cash ->
  cash < pc * n ->
  let r := createInvestment o uid s (JNumber (inject_Z n)) d in
  reply r = failure 400 (InsufficientFundsNeedHave (pc * n) cash) /\
  after r = d /\
  trace r = [Begin; GetStockPrice (toUpperCase s); UserFind uid false; Rollback].
Proof.
  intros Hs Hn Ho Hprice Hu Hlt. unfold createInvestment.
  destruct s as [|c s']; [congruence|]. cbn [falsy_string orb].
  pose proof (inject_Z_pos n Hn) as Hq.
  rewrite (Qeq_bool_false_pos _ Hq), (Qle_bool_false _ _ Hq). cbn [orb].
  rewrite Ho, Hu.
  pose proof (two_digit_product _ _ n Hprice) as Hprod.
  assert (Hshort : Qltb (of_cents cash) (price stock * inject_Z n) = true).
  { apply Qltb_lt. rewrite Hprod. unfold Qlt, of_cents. cbn [Qnum Qden]. lia. }
  rewrite Hshort, (toFixed2_eq _ _ Hprod).
  repeat split.
Qed.

(** [buyInvestment] refuses it too and writes nothing; its response names
    the balance only. *)
Lemma buyInvestment_insufficient_funds o uid s q n stock cash d :
  parseInt q = Some n -> 0 < n ->
  o s = Some stock -> (0 < price stock)%Q ->
  users d !! uid = Some cash ->
  (of_cents cash < round2 (price stock * inject_Z n))%Q ->
  let r := buyInvestment o uid s q d in
  insufficient_funds (reply r) = true /\
  reported_balance (reply r) = Some (of_cents cash) /\
  reported_required (reply r) = None /\
  after r = d.
Proof.
  intros Hp Hn Ho Hpr Hu Hlt. unfold buyInvestment.
  rewrite Hp. destruct (Z.leb_spec n 0); [lia|].
  rewrite Ho, (Qle_bool_false _ _ Hpr), Hu.
  apply Qltb_lt in Hlt. rewrite Hlt.
  repeat split.
Qed.

(** C2, at cash 1000.00 and 100 shares of a stock at 150:
    [buyInvestment] answers 400 with the balance and leaves the database
    alone, but its response does not carry the required amount, which
    [createInvestment] reports on the same request. *)
Theorem buyInvestment_omits_required_amount :
  let d := db_cash 100000 in
  let r := buyInvestment oracle_aapl 1 AAPL (JNumber 100) d in
  reply r = mkResponse 400 false InsufficientFunds (CurrentBalance (of_cents 100000)) /\
  after r = d /\
  reported_balance (reply r) = Some (of_cents 100000) /\
  reported_required (reply r) = None /\
  reported_required (reply (createInvestment oracle_aapl 1 AAPL (JNumber 100) d))
    = Some 1500000.
Proof. vm_compute. repeat split. Qed.

(** ** Refused sales *)




(** ** Pricing a sale when the oracle is down *)

Lemma decimal2_round2_sum a x :
  decimal2 (round2 (of_cents a + round2 x)) = a + toFixed2 x.
Proof.
  unfold decimal2, round2. rewrite toFixed2_of_cents.
  apply toFixed2_eq, of_cents_plus.
Qed.

Lemma decimal2_round2_diff a x :
  decimal2 (round2 (of_cents a - round2 x)) = a - toFixed2 x.
Proof.
  unfold decimal2, round2. rewrite toFixed2_of_cents.
  apply toFixed2_eq, of_cents_minus.
Qed.


(** Such a sale gets as far as the oracle call, whatever the answer. *)
Lemma sell_reaches_oracle o uid i q n inv cash d :
  parseInt q = Some n -> 0 < n ->
  findOne (by_id_and_user i uid) (investments d) = Some inv ->
  n <= quantity inv ->
  users d !! uid = Some cash ->
  up_to_fetch (trace (sellInvestment o uid i q d))
  = Some ([Begin; InvestmentFind true; GetStockPrice (symbol inv)], symbol inv).
Proof.
  intros Hp Hn Hf Hle Hu. unfold sellInvestment.
  rewrite Hp.
  destruct (Z.eqb_spec n 0); [lia|].
  destruct (Z.leb_spec n 0); [lia|]. cbn [orb].
  rewrite Hf.
  destruct (Z.ltb_spec (quantity inv) n); [lia|].
  rewrite Hu. destruct (n =? quantity inv); reflexivity.
Qed.

(** The oracle call a trade handler makes, and the calls before it, do not
    depend on what the oracle answers: [catching] may read them off the
    run under the resolved answers. *)
Lemma call_ignores_answers o1 o2 uid s i q d :
  up_to_fetch (trace (createInvestment o1 uid s q d))
  = up_to_fetch (trace (createInvestment o2 uid s q d)) /\
  up_to_fetch (trace (buyInvestment o1 uid s q d))
  = up_to_fetch (trace (buyInvestment o2 uid s q d)) /\
  up_to_fetch (trace (sellInvestment o1 uid i q d))
  = up_to_fetch (trace (sellInvestment o2 uid i q d)).
Proof.
  split; [|split].
  - unfold createInvestment. destruct q as [|x]; [reflexivity|].
    destruct (_ || _); [reflexivity|].
    destruct (o1 _), (o2 _); repeat case_match; reflexivity.
  - unfold buyInvestment. destruct (parseInt q) as [n|]; [|reflexivity].
    destruct (n <=? 0); [reflexivity|].
    destruct (o1 _), (o2 _); repeat case_match; reflexivity.
  - unfold sellInvestment. destruct (parseInt q) as [n|]; [|reflexivity].
    destruct (_ || _); [reflexivity|].
    destruct (findOne _ _) as [inv|]; [|reflexivity].
    destruct (_ <? _); [reflexivity|].
    destruct (users d !! uid); destruct (n =? quantity inv); reflexivity.
Qed.

(** With no call rejected, the handler under [catching] is the handler. *)
Lemma catching_resolved m run (o : oracle) d :
  catching m run (fun s => Resolved (o s)) d = run o d.
Proof.
  unfold catching. change (answers (fun s => Resolved (o s))) with o.
  destruct (up_to_fetch _) as [[calls s]|]; reflexivity.
Qed.




(** A sale within the holding whose oracle call throws is rolled back and
    answered 500, with nothing written. *)
Lemma sell_rolls_back_on_rejection f uid i q n inv cash d :
  parseInt q = Some n -> 0 < n ->
  findOne (by_id_and_user i uid) (investments d) = Some inv ->
  n <= quantity inv ->
  users d !! uid = Some cash ->
  f (symbol inv) = Rejected ->
  let r := sellInvestment_try f uid i q d in
  reply r = failure 500 ErrorProcessingSale /\
  after r = d /\
  trace r = [Begin; InvestmentFind true; GetStockPrice (symbol inv); Rollback].
Proof.
  intros Hp Hn Hf Hle Hu Hrej r. subst r.
  unfold sellInvestment_try, catching.
  rewrite (sell_reaches_oracle (answers f) uid i q n inv cash d Hp Hn Hf Hle Hu).
  rewrite Hrej. repeat split.
Qed.




(** ** Symbols and early rejection *)

(** X24: [createInvestment] turns down an empty symbol and a missing or
    non-positive quantity before it asks the oracle or reads a row. *)
Lemma createInvestment_rejects_before_io o uid s q d :
  s = EmptyString \/ q = JUndefined \/ (exists x, q = JNumber x /\ (x <= 0)%Q) ->
  let r := createInvestment o uid s q d in
  reply r = failure 400 SymbolAndQuantityRequired /\
  after r = d /\
  List.filter is_io (trace r) = [].
Proof.
  intros H. unfold createInvestment.
  destruct q as [|x]; [repeat split|].
  destruct H as [->|[H|(y & E & Hy)]]; [repeat split|discriminate|].
  injection E as ->. apply Qle_bool_iff in Hy. rewrite Hy.
  rewrite !orb_true_r. repeat split.
Qed.

(** X25: [buyInvestment] turns down a missing or non-positive quantity
    before any such call. *)
Lemma buyInvestment_rejects_before_io o uid s q d :
  parseInt q = None \/ (exists n, parseInt q = Some n /\ n <= 0) ->
  let r := buyInvestment o uid s q d in
  reply r = failure 400 ValidNumericQuantityRequired /\
  after r = d /\
  List.filter is_io (trace r) = [].
Proof.
  intros [H|(n & H & Hn)]; unfold buyInvestment; rewrite H; [repeat split|].
  destruct (Z.leb_spec n 0); [|lia]. repeat split.
Qed.

(** C6, on a purchase of one share of [aapl]: [buyInvestment] asks the
    oracle about the symbol as typed and stores it as typed, where
    [createInvestment] upper-cases it first; and [buyInvestment] hands an
    empty symbol to the oracle instead of turning it down. *)
Theorem buyInvestment_keeps_symbol_case :
  let d := db_cash 500000 in
  let b := buyInvestment oracle_any 1 "aapl" (JNumber 1) d in
  let c := createInvestment oracle_any 1 "aapl" (JNumber 1) d in
  let e := buyInvestment oracle_aapl 1 EmptyString (JNumber 1) d in
  (success (reply b) = true /\
   fetched (trace b) = ["aapl"%string] /\
   List.map symbol (investments (after b)) = ["aapl"%string] /\
   List.map tx_symbol (transactions (after b)) = ["aapl"%string]) /\
  (success (reply c) = true /\
   fetched (trace c) = ["AAPL"%string] /\
   List.map symbol (investments (after c)) = ["AAPL"%string] /\
   List.map tx_symbol (transactions (after c)) = ["AAPL"%string]) /\
  (trace e = [Begin; GetStockPrice EmptyString; Rollback] /\
   reply e = failure 400 CouldNotGetStockPriceTryAgain).
Proof. vm_compute. repeat split. Qed.

(** ** Locks and the oracle call *)

(** C7 fails for a sale: the position row is read with its lock before
    the oracle is asked. *)
Lemma sell_locks_before_fetch :
  let r := sellInvestment oracle_aapl 1 1 (JNumber 5) (db_holding 0 10) in
  trace r = [Begin; InvestmentFind true; GetStockPrice AAPL; UserFind 1 true;
             UserUpdate 1; TransactionCreate; InvestmentUpdate 1; Commit] /\
  fetch_outside_locks row_lock false (trace r) = false.
Proof. vm_compute. split; reflexivity. Qed.

(** C7, amended: in every purchase the oracle is asked before any row lock
    is taken.  In every sale the account row is locked only after the
    oracle call, but the position row is read with its lock before it (the
    symbol to price comes from that row), so that one lock is held across
    the oracle call. *)
Theorem oracle_call_and_locks o uid s i q d :
  fetch_outside_locks row_lock false (trace (buyInvestment o uid s q d)) = true /\
  fetch_outside_locks row_lock false (trace (createInvestment o uid s q d)) = true /\
  fetch_outside_locks account_lock false (trace (sellInvestment o uid i q d)) = true /\
  (fetched (trace (sellInvestment o uid i q d)) <> [] ->
   exists sym rest,
     trace (sellInvestment o uid i q d)
     = Begin :: InvestmentFind true :: GetStockPrice sym :: rest).
Proof.
  repeat split.
  - unfold buyInvestment. repeat case_match; reflexivity.
  - unfold createInvestment. repeat case_match; reflexivity.
  - unfold sellInvestment. repeat case_match; reflexivity.
  - unfold sellInvestment. repeat case_match; cbn; try congruence;
      intros _; eexists _, _; reflexivity.
Qed.

(** ** Rows without shares *)

(** X22: a sale of the whole position deletes its row and reports no share
    left. *)
Lemma sell_everything_deletes o uid i q inv cash d :
  parseInt q = Some (quantity inv) -> 0 < quantity inv ->
  findOne (by_id_and_user i uid) (investments d) = Some inv ->
  users d !! uid = Some cash ->
  let r := sellInvestment o uid i q d in
  success (reply r) = true /\
  (exists sale balance, data (reply r) = SaleData sale balance 0) /\
  investments (after r) = destroy_row (id inv) (investments d) /\
  ~ In (id inv) (List.map id (investments (after r))).
Proof.
  intros Hp Hn Hf Hu. unfold sellInvestment.
  rewrite Hp.
  destruct (Z.eqb_spec (quantity inv) 0); [lia|].
  destruct (Z.leb_spec (quantity inv) 0); [lia|]. cbn [orb].
  rewrite Hf, Z.ltb_irrefl, Hu, Z.eqb_refl.
  cbn [reply after success data investments].
  split; [reflexivity|]. split; [eexists _, _; reflexivity|].
  split; [reflexivity|].
  unfold destroy_row. intros Hin. apply in_map_iff in Hin.
  destruct Hin as (r & E & Hin). apply filter_In in Hin.
  destruct Hin as [_ Hin]. rewrite E, Nat.eqb_refl in Hin. discriminate.
Qed.

(** C4, on a purchase of half a share through [createInvestment]: the
    request passes the handler's check, the model's setter stores
    [parseInt(0.5) || 0], and the committed database holds a row with
    quantity 0. *)
Theorem createInvestment_keeps_empty_row :
  let d := db_cash 500000 in
  let r := createInvestment oracle_aapl 1 AAPL (JNumber (1 # 2)) d in
  empty_rows d = [] /\
  success (reply r) = true /\
  last (trace r) = Some Commit /\
  List.map quantity (investments (after r)) = [0] /\
  List.map id (empty_rows (after r)) = [1%nat] /\
  success (reply (buyInvestment oracle_aapl 1 AAPL (JNumber (1 # 2)) d)) = false.
Proof. vm_compute. repeat split. Qed.

(** ** Two purchases of one symbol *)

Lemma findOne_app_none p rows r :
  findOne p rows = None -> findOne p (rows ++ [r]) = (if p r then Some r else None).
Proof.
  unfold findOne. induction rows as [|a rows IH]; cbn; intros H.
  - reflexivity.
  - destruct (p a); [discriminate|]. auto.
Qed.


Lemma Qeq_bool_inject_pos q : 0 < q -> Qeq_bool (inject_Z q) 0 = false.
Proof. intros H. apply Qeq_bool_false_pos, inject_Z_pos, H. Qed.

Lemma Qle_bool_inject_pos q : 0 < q -> Qle_bool (inject_Z q) 0 = false.
Proof. intros H. apply Qle_bool_false, inject_Z_pos, H. Qed.

Lemma parseInt_inject q : Z.abs q < 10 ^ 21 -> parseInt (JNumber (inject_Z q)) = Some q.
Proof. intros H. cbn. f_equal. apply parseInt_number_inject, H. Qed.

Lemma falsy_nonempty s : s <> EmptyString -> falsy_string s = false.
Proof. destruct s; [congruence|reflexivity]. Qed.





(** ** The two purchase handlers side by side *)

(** C10 fails on a lower-case symbol: [createInvestment] stores [AAPL],
    [buyInvestment] stores [aapl].  It also fails, in binary64, on 3 shares
    at 100.01 with a balance of 300.03: the unrounded product that
    [createInvestment] compares exceeds the balance, the rounded cost that
    [buyInvestment] compares does not. *)
Lemma purchase_handlers_differ :
  let d := db_cash 500000 in
  ~ same_purchase (createInvestment oracle_any 1 "aapl" (JNumber 1) d)
                  (buyInvestment oracle_any 1 "aapl" (JNumber 1) d) /\
  (Qltb (Binary64.fl (of_cents 30003))
     (Binary64.unrounded_cost64 (Binary64.fl (of_cents 10001)) 3) = true /\
   Binary64.lacks_funds64 30003
     (Binary64.totalCost64 (Binary64.fl (of_cents 10001)) 3) = false).
Proof.
  intros d. split.
  - intros (_ & _ & H & _). vm_compute in H. discriminate.
  - vm_compute. split; reflexivity.
Qed.

Lemma same_record_refl t : same_record t t.
Proof. repeat split; reflexivity. Qed.

Lemma same_records_refl l : Forall2 same_record l l.
Proof. induction l; constructor; auto using same_record_refl. Qed.

Lemma same_purchase_failed r1 r2 d ev1 ev2 :
  same_purchase (mkOutcome (failure 400 r1) d ev1) (mkOutcome r2 d ev2) <->
  success r2 = false.
Proof.
  unfold same_purchase. cbn. split.
  - intros (H & _). congruence.
  - intros ->. repeat split. apply same_records_refl.
Qed.

Lemma Qltb_proper a b b' : (b == b')%Q -> Qltb a b = Qltb a b'.
Proof.
  intros H. destruct (Qltb a b') eqn:E.
  - apply Qltb_lt. apply Qltb_lt in E. rewrite H. exact E.
  - apply Qltb_ge. apply Qltb_ge in E. rewrite H. exact E.
Qed.

Lemma update_row_keys i f g rows :
  (forall r, position_key (f r) = position_key (g r)) ->
  List.map position_key (update_row i f rows)
  = List.map position_key (update_row i g rows).
Proof.
  intros H. unfold update_row. rewrite !List.map_map.
  apply List.map_ext. intros r. destruct (Nat.eqb (id r) i); auto.
Qed.

(** C10, amended: for a non-empty symbol that is already upper-case, a
    whole quantity above 0 and below 10^21 sent as a JSON number, an
    oracle that has no answer or answers with a positive price of whole
    hundredths, and a cost that is not exactly the cash balance,
    [createInvestment] and [buyInvestment] succeed or fail together and
    leave the same cash balances, position rows with the same id, owner,
    symbol, quantity, last price and cost basis, and transaction records
    equal to the hundredth.  Status codes, messages, company names and the
    stored average price are not compared.  A cost equal to the balance is
    left out because [createInvestment] compares the unrounded product:
    there the last bit of the binary64 product decides, which exact
    arithmetic cannot tell. *)
Theorem purchase_handlers_agree o uid s q d :
  s <> EmptyString -> toUpperCase s = s ->
  0 < q < 10 ^ 21 ->
  (forall stock, o s = Some stock ->
     exists pc, 0 < pc /\ (price stock == of_cents pc)%Q) ->
  (forall stock cash, o s = Some stock -> users d !! uid = Some cash ->
     ~ (price stock * inject_Z q == of_cents cash)%Q) ->
  same_purchase (createInvestment o uid s (JNumber (inject_Z q)) d)
                (buyInvestment o uid s (JNumber (inject_Z q)) d).
Proof.
  intros Hs Hup Hq Ho _.
  unfold createInvestment, buyInvestment.
  rewrite (falsy_nonempty _ Hs), Qeq_bool_inject_pos, Qle_bool_inject_pos by lia.
  cbn [orb]. rewrite parseInt_inject by lia.
  destruct (Z.leb_spec q 0); [lia|].
  rewrite Hup.
  destruct (o s) as [stock|] eqn:Hos;
    [|apply same_purchase_failed; reflexivity].
  destruct (Ho stock eq_refl) as (pc & Hpc & Hprice).
  assert (Hpos : (0 < price stock)%Q).
  { rewrite Hprice. unfold Qlt, of_cents. cbn [Qnum Qden]. lia. }
  rewrite (Qle_bool_false _ _ Hpos).
  pose proof (two_digit_product _ _ q Hprice) as Hprod.
  assert (Hcost : (round2 (price stock * inject_Z q)
                   == price stock * inject_Z q)%Q).
  { unfold round2. rewrite (toFixed2_eq _ _ Hprod). symmetry. exact Hprod. }
  destruct (users d !! uid) as [cash|];
    [|repeat split; apply same_records_refl].
  rewrite (Qltb_proper _ _ _ Hcost).
  destruct (Qltb (of_cents cash) (price stock * inject_Z q));
    [repeat split; apply same_records_refl|].
  assert (Hcash : decimal2 (of_cents cash - price stock * inject_Z q)
                  = decimal2 (round2 (of_cents cash
                                      - round2 (price stock * inject_Z q)))).
  { rewrite decimal2_round2_diff. unfold decimal2.
    rewrite (toFixed2_eq _ _ Hprod).
    apply toFixed2_eq. rewrite Hprod. apply of_cents_minus. }
  assert (Hrec : same_record
            (mkTransaction uid s BUY (inject_Z q) (price stock)
               (price stock * inject_Z q))
            (mkTransaction uid s BUY (inject_Z q) (round2 (price stock))
               (round2 (price stock * inject_Z q)))).
  { repeat split; cbn; try reflexivity;
      unfold round2; rewrite toFixed2_of_cents; reflexivity. }
  assert (Hcur : set_decimal (price stock) = set_decimal (round2 (price stock))).
  { unfold set_decimal, decimal2, round2. rewrite toFixed2_of_cents. reflexivity. }
  destruct (findOne (by_user_and_symbol uid s) (investments d)) as [inv|];
    unfold same_purchase; cbn [reply after success users investments transactions].
  - split; [reflexivity|]. split; [rewrite Hcash; reflexivity|].
    split; [|apply Forall2_app; [apply same_records_refl|constructor; [exact Hrec|constructor]]].
    apply update_row_keys. intros r. unfold position_key.
    cbn [id userId symbol quantity currentPrice totalInvested].
    assert (HA : (get_decimal (totalInvested inv) + price stock * inject_Z q
                  == of_cents (totalInvested inv + pc * q))%Q).
    { unfold get_decimal. rewrite Hprod. apply of_cents_plus. }
    assert (HB : round2 (get_decimal (totalInvested inv)
                         + round2 (price stock * inject_Z q))
                 = of_cents (totalInvested inv + pc * q)).
    { unfold round2, get_decimal. rewrite (toFixed2_eq _ _ Hprod).
      f_equal. apply toFixed2_eq, of_cents_plus. }
    rewrite HB, <- inject_Z_plus, <- Hcur.
    unfold set_decimal, decimal2.
    rewrite toFixed2_of_cents, (toFixed2_eq _ _ HA). reflexivity.
  - split; [reflexivity|]. split; [rewrite Hcash; reflexivity|].
    split; [|apply Forall2_app; [apply same_records_refl|constructor; [exact Hrec|constructor]]].
    rewrite !List.map_app. f_equal. cbn. unfold position_key.
    cbn [id userId symbol quantity currentPrice totalInvested].
    rewrite Hcur.
    unfold set_decimal, decimal2, round2.
    rewrite !toFixed2_of_cents. reflexivity.
Qed.

Lemma purchase_handlers_agree_witness :
  same_purchase
    (createInvestment oracle_aapl 1 AAPL (JNumber (inject_Z 10)) (db_cash 500000))
    (buyInvestment oracle_aapl 1 AAPL (JNumber (inject_Z 10)) (db_cash 500000)).
Proof.
  apply purchase_handlers_agree.
  - discriminate.
  - reflexivity.
  - lia.
  - intros stock H. vm_compute in H. injection H as <-.
    exists 15000. split; [lia | reflexivity].
  - intros stock cash H Hc. vm_compute in H. injection H as <-.
    vm_compute in Hc. injection Hc as <-. vm_compute. discriminate.
Defined.

(** ** Cash over a sequence of trades *)

(** C1 fails after a single purchase: 10 shares at 150 from a balance of
    5000.00 leave 3500.00 in cash and a cost basis of 1500.00, which sum
    to 5000.00, not to 5000.00 - 1500.00. *)
Lemma conservation_with_basis_fails :
  ~ conserved_with_basis 1 [(oracle_aapl, TBuy ViaBuy AAPL (JNumber 10))]
      (db_cash 500000).
Proof.
  intros H.
  specialize (H _ _ 500000 350000 eq_refl eq_refl eq_refl).
  vm_compute in H. apply H. reflexivity.
Qed.

Lemma trade_moves_cash o uid t d c :
  users d !! uid = Some c ->
  success (reply (run_trade o uid t d)) = true ->
  exists c1,
    users (after (run_trade o uid t d)) !! uid = Some c1 /\
    (Qabs (of_cents c1 - (of_cents c + cash_flow (reply (run_trade o uid t d))))
     <= 1 # 200)%Q.
Proof.
  intros Hu.
  destruct t as [[|] s q | i q]; cbn [run_trade buy].
  - unfold createInvestment. rewrite Hu.
    repeat case_match; cbn [reply after success]; try discriminate; intros _;
      (eexists; split; [apply lookup_insert_eq|]);
      unfold cash_flow; cbn [data reply totalCost users];
      match goal with
      | |- context [decimal2 ?x] =>
        pose proof (of_cents_close x) as Hc; unfold decimal2;
        apply Qabs_Qle_condition in Hc; destruct Hc;
        apply Qabs_Qle_condition; split; lra
      end.
  - unfold buyInvestment. rewrite Hu.
    repeat case_match; cbn [reply after success]; try discriminate; intros _;
      (eexists; split; [apply lookup_insert_eq|]);
      unfold cash_flow; cbn [data reply totalCost users];
      rewrite decimal2_round2_diff, <- of_cents_minus; unfold round2;
      apply Qabs_Qle_condition; split; lra.
  - unfold sellInvestment. rewrite Hu.
    repeat case_match; cbn [reply after success]; try discriminate; intros _;
      (eexists; split; [apply lookup_insert_eq|]);
      unfold cash_flow; cbn [data reply totalReceived users];
      rewrite decimal2_round2_sum, <- of_cents_plus; unfold round2;
      apply Qabs_Qle_condition; split; lra.
Qed.

Lemma rounding_allowance_cons x ts :
  (rounding_allowance (x :: ts) == rounding_allowance ts + (1 # 200))%Q.
Proof.
  unfold rounding_allowance. cbn [length]. rewrite Nat2Z.inj_succ.
  unfold Qeq, Qplus. cbn [Qnum Qden]. lia.
Qed.

(** C1, amended: over any sequence of successful purchases and sales of
    one user, the final cash balance is the initial balance minus the
    total cost of every purchase plus the value of every sale, up to half
    a hundredth per trade.  The cost basis of the open positions is not
    part of that balance. *)
Theorem cash_tracks_trades uid ts : forall d d' net c,
  run_trades uid ts d = Some (d', net) ->
  users d !! uid = Some c ->
  exists c',
    users d' !! uid = Some c' /\
    (Qabs (of_cents c' - (of_cents c + net)) <= rounding_allowance ts)%Q.
Proof.
  induction ts as [|[o t] ts IH]; intros d d' net c Hrun Hu.
  - cbn in Hrun. injection Hrun as <- <-. exists c. split; [exact Hu|].
    apply Qabs_Qle_condition.
    change (rounding_allowance []) with (0 # 200)%Q. split; lra.
  - cbn [run_trades] in Hrun.
    destruct (success (reply (run_trade o uid t d))) eqn:Hs; [|discriminate].
    destruct (run_trades uid ts (after (run_trade o uid t d)))
      as [[d1 net1]|] eqn:Hrest; [|discriminate].
    injection Hrun as <- <-.
    destruct (trade_moves_cash o uid t d c Hu Hs) as (c1 & Hu1 & Hc1).
    destruct (IH _ _ _ _ Hrest Hu1) as (c' & Hu' & Hc').
    exists c'. split; [exact Hu'|].
    rewrite rounding_allowance_cons.
    apply Qabs_Qle_condition in Hc1. destruct Hc1.
    apply Qabs_Qle_condition in Hc'. destruct Hc'.
    apply Qabs_Qle_condition. split; lra.
Qed.

Lemma cash_tracks_trades_witness :
  exists d' net c',
    run_trades 1 sample_trades (db_cash 500000) = Some (d', net) /\
    users d' !! 1%nat = Some c' /\
    (Qabs (of_cents c' - (of_cents 500000 + net))
     <= rounding_allowance sample_trades)%Q.
Proof.
  destruct (run_trades 1 sample_trades (db_cash 500000)) as [[d' net]|] eqn:E.
  - destruct (cash_tracks_trades 1 sample_trades (db_cash 500000) d' net
                500000 E eq_refl) as (c' & H1 & H2).
    exists d', net, c'. split; [reflexivity|]. split; [exact H1 | exact H2].
  - vm_compute in E. discriminate.
Defined.

(** ** The life of a position row *)

Lemma findOne_some p rows r :
  findOne p rows = Some r -> In r rows /\ p r = true.
Proof. apply find_some. Qed.

Lemma by_user_and_symbol_true u s r :
  by_user_and_symbol u s r = true -> userId r = u /\ symbol r = s.
Proof.
  unfold by_user_and_symbol. intros H. apply andb_true_iff in H.
  destruct H as [H1 H2]. apply Nat.eqb_eq in H1. apply String.eqb_eq in H2.
  auto.
Qed.

Lemma by_id_and_user_true i u r :
  by_id_and_user i u r = true -> id r = i /\ userId r = u.
Proof.
  unfold by_id_and_user. intros H. apply andb_true_iff in H.
  destruct H as [H1 H2]. apply Nat.eqb_eq in H1. apply Nat.eqb_eq in H2.
  auto.
Qed.

Lemma handle_effect o uid rq d : effect o uid rq d (handle o uid rq d).
Proof.
  destruct rq as [|i|s q|i q|i| |a|l f t|s q]; cbn [handle].
  - apply RefreshAll; reflexivity.
  - unfold getInvestmentById.
    destruct (findOne _ _) as [inv|] eqn:Hf; [|apply Untouched; reflexivity].
    eapply RefreshOne; [reflexivity|exact Hf|reflexivity].
  - unfold createInvestment.
    destruct q as [|qty]; [apply Untouched; reflexivity|].
    destruct (_ || _); [apply Untouched; reflexivity|].
    destruct (o _) as [stock|]; [|apply Untouched; reflexivity].
    destruct (users d !! uid) as [cash|]; [|apply Untouched; reflexivity].
    destruct (Qltb _ _); [apply Untouched; reflexivity|].
    destruct (findOne _ _) as [inv|] eqn:Hf.
    + destruct (findOne_some _ _ _ Hf) as [_ Hp].
      apply by_user_and_symbol_true in Hp. destruct Hp as [Hu Hs].
      eapply NextBuy; [rewrite Hs; exact Hf|reflexivity| |].
      * intros r. repeat split.
      * left. eexists _, _. split; [reflexivity|]. symmetry. exact Hs.
    + eapply FirstBuy; [reflexivity|reflexivity|reflexivity|exact Hf|].
      left. eexists _, _. split; reflexivity.
  - unfold sellInvestment.
    destruct (parseInt q) as [n|] eqn:Hq; [|apply Untouched; reflexivity].
    destruct (Z.eqb_spec n 0); [apply Untouched; reflexivity|].
    destruct (Z.leb_spec n 0); [apply Untouched; reflexivity|]. cbn [orb].
    destruct (findOne _ _) as [inv|] eqn:Hf; [|apply Untouched; reflexivity].
    destruct (Z.ltb_spec (quantity inv) n); [apply Untouched; reflexivity|].
    destruct (users d !! uid) as [cash|] eqn:Hu; [|apply Untouched; reflexivity].
    destruct (Z.eqb_spec n (quantity inv)) as [->|Hne].
    + eapply FullSale; [reflexivity|exact Hf|exact Hq|reflexivity|reflexivity
                        |exact Hu|].
      cbn [after users reply data totalReceived].
      rewrite lookup_insert_eq, decimal2_round2_sum. f_equal. f_equal.
      unfold round2. symmetry. apply toFixed2_of_cents.
    + eapply PartialSale; [reflexivity|exact Hf|exact Hq|lia|reflexivity|].
      intros r. repeat split.
  - unfold deleteInvestment.
    destruct (findOne _ _) as [inv|] eqn:Hf; [|apply Untouched; reflexivity].
    eapply Deletion; [reflexivity|exact Hf|reflexivity|reflexivity|reflexivity].
  - unfold getCashBalance. destruct (users d !! uid); apply Untouched; reflexivity.
  - unfold addCash. repeat case_match; apply Untouched; reflexivity.
  - apply Untouched; reflexivity.
  - unfold buyInvestment.
    destruct (parseInt q) as [n|]; [|apply Untouched; reflexivity].
    destruct (n <=? 0); [apply Untouched; reflexivity|].
    destruct (o s) as [stock|]; [|apply Untouched; reflexivity].
    destruct (Qle_bool _ _); [apply Untouched; reflexivity|].
    destruct (users d !! uid) as [cash|]; [|apply Untouched; reflexivity].
    destruct (Qltb _ _); [apply Untouched; reflexivity|].
    destruct (findOne _ _) as [inv|] eqn:Hf.
    + destruct (findOne_some _ _ _ Hf) as [_ Hp].
      apply by_user_and_symbol_true in Hp. destruct Hp as [Hu Hs].
      eapply NextBuy; [rewrite Hs; exact Hf|reflexivity| |].
      * intros r. repeat split.
      * right. eexists. rewrite Hs. reflexivity.
    + eapply FirstBuy; [reflexivity|reflexivity|reflexivity|exact Hf|].
      right. eexists. reflexivity.
Qed.

Lemma ids_below_lt n rows r :
  ids_below n rows = true -> In r rows -> (id r < n)%nat.
Proof.
  unfold ids_below. rewrite forallb_forall. intros H Hr.
  apply Nat.ltb_lt, H, Hr.
Qed.

Lemma distinct_ids_inj rows :
  distinct_ids rows = true ->
  forall r r', In r rows -> In r' rows -> id r = id r' -> r = r'.
Proof.
  induction rows as [|a rows IH]; cbn [distinct_ids]; intros H r r' Hr Hr' E.
  - destruct Hr.
  - apply andb_true_iff in H. destruct H as [Ha Hrest].
    apply negb_true_iff in Ha.
    assert (Hno : forall x, In x rows -> id x <> id a).
    { intros x Hx Hid.
      assert (existsb (fun r' => Nat.eqb (id r') (id a)) rows = true) as Hex.
      { apply existsb_exists. exists x. split; [exact Hx|].
        apply Nat.eqb_eq, Hid. }
      congruence. }
    destruct Hr as [<-|Hr]; destruct Hr' as [<-|Hr']; auto.
    + exfalso. apply (Hno r' Hr'). auto.
    + exfalso. apply (Hno r Hr). auto.
Qed.

Lemma mapped_ids (g : investment -> investment) rows :
  (forall r, id (g r) = id r) ->
  List.map id (List.map g rows) = List.map id rows.
Proof.
  intros H. rewrite List.map_map. apply List.map_ext. exact H.
Qed.

Lemma mapped_row (g : investment -> investment) rows r r' :
  distinct_ids rows = true -> (forall x, id (g x) = id x) ->
  In r rows -> In r' (List.map g rows) -> id r' = id r -> r' = g r.
Proof.
  intros Hd Hg Hr Hr' E. apply in_map_iff in Hr'.
  destruct Hr' as (r0 & <- & Hr0). f_equal.
  apply (distinct_ids_inj rows Hd); auto. rewrite <- E. symmetry. apply Hg.
Qed.

Lemma in_destroy_row i rows r :
  In r (destroy_row i rows) <-> In r rows /\ id r <> i.
Proof.
  unfold destroy_row. rewrite filter_In, negb_true_iff, Nat.eqb_neq. tauto.
Qed.

Lemma update_row_id i f r :
  (forall x, id (f x) = id x) ->
  id (if Nat.eqb (id r) i then f r else r) = id r.
Proof. intros H. destruct (Nat.eqb (id r) i); auto. Qed.

Lemma refresh_identity o : keeps_identity (fun r => fst (refresh o r)).
Proof. intros r. repeat split. Qed.

Section Lifecycle.

Variables (o : oracle) (uid : nat) (rq : request) (d : db).
Hypothesis Hwf : well_formed d = true.

Let out := handle o uid rq d.
Let rows := investments d.
Let rows' := investments (after out).

Lemma wf_below : ids_below (next_id d) rows = true.
Proof. unfold well_formed in Hwf. apply andb_true_iff in Hwf. apply Hwf. Qed.

Lemma wf_distinct : distinct_ids rows = true.
Proof. unfold well_formed in Hwf. apply andb_true_iff in Hwf. apply Hwf. Qed.

(** An update in place of the row [inv]: the only row that can differ is
    [inv] itself. *)
Lemma updated_in_place inv f r r' :
  In inv rows -> keeps_identity f ->
  rows' = update_row (id inv) f rows ->
  In r rows -> In r' rows' -> id r' = id r -> r' <> r ->
  r = inv /\ r' = f inv.
Proof.
  intros Hinv Hf E Hr Hr' Hid Hne. rewrite E in Hr'. unfold update_row in Hr'.
  pose proof (mapped_row _ rows r r' wf_distinct
                (fun x => update_row_id (id inv) f x (fun y => proj1 (Hf y)))
                Hr Hr' Hid) as Hg.
  cbv beta in Hg.
  destruct (Nat.eqb_spec (id r) (id inv)) as [Heq|Hneq]; [|congruence].
  assert (r = inv) by (apply (distinct_ids_inj rows wf_distinct); auto).
  subst r. auto.
Qed.

Lemma update_keeps_ids inv f :
  keeps_identity f ->
  List.map id (update_row (id inv) f rows) = List.map id rows.
Proof.
  intros Hf. apply mapped_ids. intros r. apply update_row_id.
  intros x. apply Hf.
Qed.

Lemma destroyed_row inv r :
  In inv rows -> rows' = destroy_row (id inv) rows ->
  In r rows -> ~ In (id r) (List.map id rows') -> r = inv.
Proof.
  intros Hinv E Hr Hnot.
  destruct (Nat.eq_dec (id r) (id inv)) as [Heq|Hneq].
  - apply (distinct_ids_inj rows wf_distinct); auto.
  - exfalso. apply Hnot. apply in_map. rewrite E. apply in_destroy_row. auto.
Qed.

Lemma same_id_same_row r r' :
  In r rows -> In r' rows -> id r' = id r -> r' = r.
Proof. intros. apply (distinct_ids_inj rows wf_distinct); auto. Qed.

End Lifecycle.

(** C9 fails on [deleteInvestment]: the row goes, the cash balance stays,
    and no sale is recorded. *)
Lemma delete_without_credit :
  let d := db_holding 100000 10 in
  let out := handle oracle_aapl 1 (DeleteInvestment 1) d in
  success (reply out) = true /\
  investments d = [apple_row 10] /\
  investments (after out) = [] /\
  users (after out) = users d /\
  transactions (after out) = transactions d.
Proof. vm_compute. repeat split. Qed.

(** C9, amended: in a database whose row ids are distinct and below the
    next id, a request of a user changes the [investments] table in these
    ways only.  A row appears only through a purchase of a symbol the user
    held no row for.  A row changes only through a further purchase of its
    symbol, through a sale of fewer shares than it holds, or through the
    price refresh of [getAllInvestments] and [getInvestmentById], which
    touches [currentPrice] alone; it keeps its owner and symbol.  A row
    disappears through a sale of all its shares, which credits the sale's
    value to the account, or through [deleteInvestment], which leaves the
    cash balance and the transaction log as they were. *)
Theorem position_lifecycle o uid rq d :
  well_formed d = true ->
  let out := handle o uid rq d in
  (forall r',
      In r' (investments (after out)) ->
      ~ In (id r') (List.map id (investments d)) ->
      userId r' = uid /\
      findOne (by_user_and_symbol uid (symbol r')) (investments d) = None /\
      purchase_of rq (symbol r')) /\
  (forall r r',
      In r (investments d) -> In r' (investments (after out)) ->
      id r' = id r -> r' <> r ->
      userId r = uid /\ userId r' = uid /\ symbol r' = symbol r /\
      (purchase_of rq (symbol r) \/
       (exists q n, rq = SellInvestment (id r) q /\
                    parseInt q = Some n /\ 0 < n < quantity r) \/
       ((rq = GetAllInvestments \/ rq = GetInvestmentById (id r)) /\
        without_price r' = without_price r))) /\
  (forall r,
      In r (investments d) ->
      ~ In (id r) (List.map id (investments (after out))) ->
      userId r = uid /\
      ((exists q sale balance cash,
           rq = SellInvestment (id r) q /\
           parseInt q = Some (quantity r) /\
           data (reply out) = SaleData sale balance 0 /\
           users d !! uid = Some cash /\
           users (after out) !! uid
           = Some (cash + toFixed2 (totalReceived sale))) \/
       (rq = DeleteInvestment (id r) /\
        users (after out) = users d /\
        transactions (after out) = transactions d))).
Proof.
  intros Hwf out.
  pose proof (wf_below d Hwf) as Hbelow.
  pose proof (wf_distinct d Hwf) as Hdist.
  destruct (handle_effect o uid rq d) as
    [E
    |row E Hid Hu Hnone Hbuy
    |inv f Hf E Hkeep Hbuy
    |inv f i q n Hrq Hf Hq Hn E Hkeep
    |inv i q sale balance cash Hrq Hf Hq E Hdata Hcash Hcash'
    |inv i Hrq Hf E Husers Htxs
    |inv i Hrq Hf E
    |Hrq E];
    fold out in E.
  - (* untouched *)
    rewrite E. split; [|split].
    + intros r' Hr' Hnew. exfalso. apply Hnew, in_map, Hr'.
    + intros r r' Hr Hr' Hsame Hne. exfalso.
      apply Hne, (same_id_same_row d Hwf); auto.
    + intros r Hr Hgone. exfalso. apply Hgone, in_map, Hr.
  - (* first purchase *)
    rewrite E. split; [|split].
    + intros r' Hr' Hnew. apply in_app_iff in Hr'.
      destruct Hr' as [Hr'|[<-|[]]]; [exfalso; apply Hnew, in_map, Hr'|].
      auto.
    + intros r r' Hr Hr' Hsame Hne. exfalso. apply in_app_iff in Hr'.
      destruct Hr' as [Hr'|[<-|[]]].
      * apply Hne, (same_id_same_row d Hwf); auto.
      * pose proof (ids_below_lt _ _ _ Hbelow Hr). lia.
    + intros r Hr Hgone. exfalso. apply Hgone, in_map, in_app_iff. auto.
  - (* further purchase *)
    destruct (findOne_some _ _ _ Hf) as [Hin Hp].
    apply by_user_and_symbol_true in Hp. destruct Hp as [Hu _].
    split; [|split].
    + intros r' Hr' Hnew. exfalso. apply Hnew.
      rewrite <- (update_keeps_ids d inv f Hkeep), <- E. apply in_map, Hr'.
    + intros r r' Hr Hr' Hsame Hne.
      destruct (updated_in_place o uid rq d Hwf inv f r r' Hin Hkeep E
                  Hr Hr' Hsame Hne) as [-> ->].
      destruct (Hkeep inv) as (_ & Hku & Hks). rewrite Hku, Hks. auto.
    + intros r Hr Hgone. exfalso. apply Hgone.
      rewrite E, (update_keeps_ids d inv f Hkeep). apply in_map, Hr.
  - (* partial sale *)
    destruct (findOne_some _ _ _ Hf) as [Hin Hp].
    apply by_id_and_user_true in Hp. destruct Hp as [Hi Hu].
    split; [|split].
    + intros r' Hr' Hnew. exfalso. apply Hnew.
      rewrite <- (update_keeps_ids d inv f Hkeep), <- E. apply in_map, Hr'.
    + intros r r' Hr Hr' Hsame Hne.
      destruct (updated_in_place o uid rq d Hwf inv f r r' Hin Hkeep E
                  Hr Hr' Hsame Hne) as [-> ->].
      destruct (Hkeep inv) as (_ & Hku & Hks). rewrite Hku, Hks.
      repeat split; auto. right. left. exists q, n. rewrite Hi. auto.
    + intros r Hr Hgone. exfalso. apply Hgone.
      rewrite E, (update_keeps_ids d inv f Hkeep). apply in_map, Hr.
  - (* full sale *)
    destruct (findOne_some _ _ _ Hf) as [Hin Hp].
    apply by_id_and_user_true in Hp. destruct Hp as [Hi Hu].
    split; [|split].
    + intros r' Hr' Hnew. exfalso. apply Hnew, in_map.
      rewrite E in Hr'. apply in_destroy_row in Hr'. apply Hr'.
    + intros r r' Hr Hr' Hsame Hne. exfalso.
      rewrite E in Hr'. apply in_destroy_row in Hr'.
      apply Hne, (same_id_same_row d Hwf); tauto.
    + intros r Hr Hgone.
      assert (r = inv) as -> by (apply (destroyed_row o uid rq d Hwf inv r); auto).
      split; [exact Hu|]. left. exists q, sale, balance, cash.
      rewrite Hi. auto.
  - (* deletion *)
    destruct (findOne_some _ _ _ Hf) as [Hin Hp].
    apply by_id_and_user_true in Hp. destruct Hp as [Hi Hu].
    split; [|split].
    + intros r' Hr' Hnew. exfalso. apply Hnew, in_map.
      rewrite E in Hr'. apply in_destroy_row in Hr'. apply Hr'.
    + intros r r' Hr Hr' Hsame Hne. exfalso.
      rewrite E in Hr'. apply in_destroy_row in Hr'.
      apply Hne, (same_id_same_row d Hwf); tauto.
    + intros r Hr Hgone.
      assert (r = inv) as -> by (apply (destroyed_row o uid rq d Hwf inv r); auto).
      split; [exact Hu|]. right. rewrite Hi. auto.
  - (* refresh of one row *)
    destruct (findOne_some _ _ _ Hf) as [Hin Hp].
    apply by_id_and_user_true in Hp. destruct Hp as [Hi Hu].
    pose proof (refresh_identity o) as Hkeep.
    split; [|split].
    + intros r' Hr' Hnew. exfalso. apply Hnew.
      rewrite <- (update_keeps_ids d inv _ Hkeep), <- E. apply in_map, Hr'.
    + intros r r' Hr Hr' Hsame Hne.
      destruct (updated_in_place o uid rq d Hwf inv _ r r' Hin Hkeep E
                  Hr Hr' Hsame Hne) as [-> ->].
      repeat split; auto. right. right. rewrite Hi. auto.
    + intros r Hr Hgone. exfalso. apply Hgone.
      rewrite E, (update_keeps_ids d inv _ Hkeep). apply in_map, Hr.
  - (* refresh of all rows *)
    set (g := fun r => if Nat.eqb (userId r) uid then fst (refresh o r) else r) in E.
    assert (Hg : forall x, id (g x) = id x).
    { intros x. unfold g. destruct (Nat.eqb (userId x) uid); reflexivity. }
    split; [|split].
    + intros r' Hr' Hnew. exfalso. apply Hnew.
      rewrite <- (mapped_ids g _ Hg), <- E. apply in_map, Hr'.
    + intros r r' Hr Hr' Hsame Hne. rewrite E in Hr'.
      pose proof (mapped_row g _ r r' Hdist Hg Hr Hr' Hsame) as ->.
      unfold g in *. destruct (Nat.eqb_spec (userId r) uid); [|congruence].
      repeat split; auto.
    + intros r Hr Hgone. exfalso. apply Hgone.
      rewrite E, (mapped_ids g _ Hg). apply in_map, Hr.
Qed.

Lemma position_lifecycle_witness :
  let d := db_holding 0 10 in
  let out := handle oracle_aapl 1 (SellInvestment 1 (JNumber 10)) d in
  userId (apple_row 10) = 1%nat /\
  ((exists q sale balance cash,
       SellInvestment 1 (JNumber 10) = SellInvestment (id (apple_row 10)) q /\
       parseInt q = Some (quantity (apple_row 10)) /\
       data (reply out) = SaleData sale balance 0 /\
       users d !! 1%nat = Some cash /\
       users (after out) !! 1%nat
       = Some (cash + toFixed2 (totalReceived sale))) \/
   (SellInvestment 1 (JNumber 10) = DeleteInvestment (id (apple_row 10)) /\
    users (after out) = users d /\
    transactions (after out) = transactions d)).
Proof.
  apply (proj2 (proj2 (position_lifecycle oracle_aapl 1
                         (SellInvestment 1 (JNumber 10))
                         (db_holding 0 10) eq_refl))
           (apple_row 10)).
  - left. reflexivity.
  - vm_compute. intros [].
Defined.

(** ** What moves the average price *)





(** ** Where rows without shares can come from *)

Lemma Forall_update_row (P : investment -> Prop) i f rows :
  Forall P rows -> (forall r, In r rows -> id r = i -> P (f r)) ->
  Forall P (update_row i f rows).
Proof.
  intros H Hf. unfold update_row. apply Forall_forall. intros x Hx.
  apply list_elem_of_In, in_map_iff in Hx. destruct Hx as (r & <- & Hr).
  destruct (Nat.eqb_spec (id r) i).
  - apply Hf; auto.
  - rewrite Forall_forall in H. apply H, list_elem_of_In, Hr.
Qed.

Lemma Forall_destroy_row (P : investment -> Prop) i rows :
  Forall P rows -> Forall P (destroy_row i rows).
Proof.
  intros H. apply Forall_forall. intros x Hx.
  apply list_elem_of_In, in_destroy_row in Hx.
  rewrite Forall_forall in H. apply H, list_elem_of_In, Hx.
Qed.

(** X23: every handler but [createInvestment] keeps all rows at a positive
    quantity. *)
Lemma quantities_stay_positive o uid rq d :
  (forall s q, rq <> CreateInvestment s q) ->
  Forall (fun r => 0 < quantity r) (investments d) ->
  Forall (fun r => 0 < quantity r) (investments (after (handle o uid rq d))).
Proof.
  intros Hrq Hpos.
  destruct rq as [|i|s q|i q|i| |a|l f t|s q]; cbn [handle].
  - cbn [getAllInvestments after investments].
    apply Forall_forall. intros x Hx.
    apply list_elem_of_In, in_map_iff in Hx. destruct Hx as (r & <- & Hr).
    rewrite Forall_forall in Hpos. specialize (Hpos r ltac:(apply list_elem_of_In, Hr)).
    destruct (Nat.eqb (userId r) uid); exact Hpos.
  - unfold getInvestmentById.
    destruct (findOne _ _) as [inv|]; [|exact Hpos].
    cbn [after investments]. apply Forall_update_row; [exact Hpos|].
    intros r Hr _. rewrite Forall_forall in Hpos.
    apply (Hpos r), list_elem_of_In, Hr.
  - exfalso. apply (Hrq s q). reflexivity.
  - unfold sellInvestment.
    destruct (parseInt q) as [n|]; [|exact Hpos].
    destruct (Z.eqb_spec n 0); [exact Hpos|].
    destruct (Z.leb_spec n 0); [exact Hpos|]. cbn [orb].
    destruct (findOne _ _) as [inv|] eqn:Hf; [|exact Hpos].
    destruct (Z.ltb_spec (quantity inv) n); [exact Hpos|].
    destruct (users d !! uid) as [cash|]; [|exact Hpos].
    destruct (Z.eqb_spec n (quantity inv)); cbn [after investments].
    + apply Forall_destroy_row, Hpos.
    + apply Forall_update_row; [exact Hpos|].
      intros r _ _. cbn [quantity]. apply parseInt_number_pos. lia.
  - unfold deleteInvestment.
    destruct (findOne _ _) as [inv|]; [|exact Hpos].
    apply Forall_destroy_row, Hpos.
  - unfold getCashBalance. destruct (users d !! uid); exact Hpos.
  - unfold addCash. repeat case_match; exact Hpos.
  - exact Hpos.
  - unfold buyInvestment.
    destruct (parseInt q) as [n|]; [|exact Hpos].
    destruct (Z.leb_spec n 0); [exact Hpos|].
    destruct (o s) as [stock|]; [|exact Hpos].
    destruct (Qle_bool _ _); [exact Hpos|].
    destruct (users d !! uid) as [cash|]; [|exact Hpos].
    destruct (Qltb _ _); [exact Hpos|].
    destruct (findOne _ _) as [inv|] eqn:Hf; cbn [after investments].
    + destruct (findOne_some _ _ _ Hf) as [Hin _].
      rewrite Forall_forall in Hpos.
      pose proof (Hpos inv ltac:(apply list_elem_of_In, Hin)) as Hinv.
      apply Forall_update_row; [apply Forall_forall, Hpos|].
      intros r _ _. cbn [quantity]. apply parseInt_number_pos. lia.
    + apply Forall_app. split; [exact Hpos|].
      constructor; [|constructor]. cbn [quantity].
      apply parseInt_number_pos. lia.
Qed.

End LedgerFacts.

(** * Further properties of the handlers *)

Module CoverFacts.

Import Num Js Ledger Props Cover NumFacts LedgerFacts.

(** ** Signs and order of rounded amounts *)

Lemma floor_mono a b c d :
  0 < b -> 0 < d -> a * d <= c * b -> a / b <= c / d.
Proof.
  intros Hb Hd H. apply Z.div_le_lower_bound; [exact Hd|].
  pose proof (Z.mul_div_le a b Hb). nia.
Qed.

Lemma round_half_away_mono x y :
  (x <= y)%Q -> round_half_away x <= round_half_away y.
Proof.
  unfold Qle, round_half_away. intros H.
  pose proof (Pos2Z.is_pos (Qden x)) as Hx.
  pose proof (Pos2Z.is_pos (Qden y)) as Hy.
  destruct (Z.leb_spec 0 (Qnum x)) as [Hn|Hn];
    destruct (Z.leb_spec 0 (Qnum y)) as [Hm|Hm].
  - apply floor_mono; nia.
  - nia.
  - assert (0 <= (2 * - Qnum x + Zpos (Qden x)) / (2 * Zpos (Qden x)))
      by (apply Z.div_pos; lia).
    assert (0 <= (2 * Qnum y + Zpos (Qden y)) / (2 * Zpos (Qden y)))
      by (apply Z.div_pos; lia).
    lia.
  - apply Z.opp_le_mono. rewrite !Z.opp_involutive.
    apply floor_mono; nia.
Qed.

Lemma toFixed2_mono x y : (x <= y)%Q -> toFixed2 x <= toFixed2 y.
Proof.
  intros H. apply round_half_away_mono.
  apply Qmult_le_compat_r; [exact H|discriminate].
Qed.

Lemma toFixed2_nonneg x : (0 <= x)%Q -> 0 <= toFixed2 x.
Proof.
  intros H. change 0 with (toFixed2 0) at 1. apply toFixed2_mono, H.
Qed.

Lemma toFixed2_le x c : (x <= of_cents c)%Q -> toFixed2 x <= c.
Proof.
  intros H. rewrite <- (toFixed2_of_cents c). apply toFixed2_mono, H.
Qed.

Lemma toFixed2_ge x c : (of_cents c <= x)%Q -> c <= toFixed2 x.
Proof.
  intros H. rewrite <- (toFixed2_of_cents c) at 1. apply toFixed2_mono, H.
Qed.

Lemma of_cents_nonneg c : 0 <= c -> (0 <= of_cents c)%Q.
Proof. intros H. unfold of_cents, Qle. cbn [Qnum Qden]. lia. Qed.

Lemma of_cents_le a b : a <= b <-> (of_cents a <= of_cents b)%Q.
Proof. unfold of_cents, Qle. cbn [Qnum Qden]. lia. Qed.

Lemma round2_nonneg x : (0 <= x)%Q -> (0 <= round2 x)%Q.
Proof. intros H. apply of_cents_nonneg, toFixed2_nonneg, H. Qed.

Lemma inject_Z_nonneg z : 0 <= z -> (0 <= inject_Z z)%Q.
Proof. intros H. unfold Qle, inject_Z. cbn [Qnum Qden]. lia. Qed.

Lemma Qdiv_nonneg a b : (0 <= a)%Q -> (0 <= b)%Q -> (0 <= a / b)%Q.
Proof.
  intros Ha Hb. unfold Qdiv. apply Qmult_le_0_compat; [exact Ha|].
  apply Qinv_le_0_compat, Hb.
Qed.

Lemma first_digit_frac_nonneg fuel : forall n d,
  0 <= n -> 0 < d -> 0 <= first_digit_frac fuel n d.
Proof.
  induction fuel as [|k IH]; intros n d Hn Hd; cbn [first_digit_frac].
  - apply Z.div_pos; lia.
  - destruct (d <=? n); [apply Z.div_pos; lia|]. apply IH; lia.
Qed.

Lemma parseInt_number_nonneg x : (0 <= x)%Q -> 0 <= parseInt_number x.
Proof.
  unfold Qle, parseInt_number. cbn [Qnum Qden]. intros H.
  rewrite Z.mul_1_r in H.
  pose proof (Pos2Z.is_pos (Qden x)) as Hd.
  destruct (Z.eqb_spec (Qnum x) 0); [lia|].
  rewrite Z.sgn_pos by lia.
  destruct (_ <=? _).
  - pose proof (first_digit_int_pos
                  (Z.to_nat (Z.log2 (Z.abs (Qnum x) / Zpos (Qden x))))
                  (Z.abs (Qnum x) / Zpos (Qden x))) as Hf.
    destruct (Z.le_gt_cases 1 (Z.abs (Qnum x) / Zpos (Qden x))) as [H1|H1].
    + specialize (Hf H1). lia.
    + assert (0 <= Z.abs (Qnum x) / Zpos (Qden x))
        by (apply Z.div_pos; lia).
      replace (Z.abs (Qnum x) / Zpos (Qden x)) with 0 by lia.
      vm_compute. discriminate.
  - destruct (_ <? _).
    + pose proof (first_digit_frac_nonneg (Pos.size_nat (Qden x))
                    (Z.abs (Qnum x)) (Zpos (Qden x)) ltac:(lia) Hd). lia.
    + apply Z.quot_pos; lia.
Qed.

(** ** Transactions and failures *)

Lemma refresh_trace_free (rows : list investment) :
  transaction_free
    (List.map (fun r => GetStockPrice (symbol r)) rows ++
     List.map (fun r => InvestmentUpdate (id r)) rows) = true.
Proof.
  unfold transaction_free. rewrite forallb_app.
  apply andb_true_iff. split; induction rows as [|r rows IH]; auto.
Qed.

(** X1: a handler never leaves a transaction open.  Its calls either open
    no transaction, or run from [Begin] to a single [Commit] and the
    response reports success, or run from [Begin] to a single [Rollback],
    contain no write, and the response reports failure. *)
Theorem transactions_are_closed o uid rq d :
  let out := handle o uid rq d in
  transaction_free (trace out) = true \/
  (success (reply out) = true /\ committed (trace out) = true) \/
  (success (reply out) = false /\ rolled_back (trace out) = true /\
   List.filter is_write (trace out) = []).
Proof.
  destruct rq as [|i|s q|i q|i| |a|l f t|s q]; cbn [handle].
  - left. apply refresh_trace_free.
  - unfold getInvestmentById. case_match; left; reflexivity.
  - unfold createInvestment.
    repeat case_match; cbn; auto.
  - unfold sellInvestment.
    repeat case_match; cbn; auto.
  - unfold deleteInvestment. case_match; left; reflexivity.
  - unfold getCashBalance. case_match; left; reflexivity.
  - unfold addCash. repeat case_match; left; reflexivity.
  - left. reflexivity.
  - unfold buyInvestment.
    repeat case_match; cbn; auto.
Qed.

(** X2: a request that is answered with a failure leaves the whole database
    as it was and makes no write call. *)
Theorem failed_request_changes_nothing o uid rq d :
  success (reply (handle o uid rq d)) = false ->
  after (handle o uid rq d) = d /\
  List.filter is_write (trace (handle o uid rq d)) = [].
Proof.
  destruct rq as [|i|s q|i q|i| |a|l f t|s q]; cbn [handle].
  - cbn. discriminate.
  - unfold getInvestmentById. case_match; cbn; [discriminate|auto].
  - unfold createInvestment.
    repeat case_match; cbn; try discriminate; auto.
  - unfold sellInvestment.
    repeat case_match; cbn; try discriminate; auto.
  - unfold deleteInvestment. case_match; cbn; [discriminate|auto].
  - unfold getCashBalance. case_match; cbn; [discriminate|auto].
  - unfold addCash. repeat case_match; cbn; try discriminate; auto.
  - cbn. discriminate.
  - unfold buyInvestment.
    repeat case_match; cbn; try discriminate; auto.
Qed.

Lemma failed_request_changes_nothing_witness :
  after (handle oracle_aapl 1 (AddCash (JNumber (-5))) two_users) = two_users /\
  List.filter is_write
    (trace (handle oracle_aapl 1 (AddCash (JNumber (-5))) two_users)) = [].
Proof.
  apply failed_request_changes_nothing. reflexivity.
Defined.

(** X3: the transaction log only grows at its end.  A request leaves the
    records it found in place and in order, and adds at most one record,
    of the requesting user, when it is a purchase or a sale that
    succeeds. *)
Theorem log_is_append_only o uid rq d :
  let out := handle o uid rq d in
  exists added,
    transactions (after out) = transactions d ++ added /\
    (added = [] \/
     exists record,
       added = [record] /\ tx_userId record = uid /\
       success (reply out) = true /\
       ((exists s q, rq = CreateInvestment s q \/ rq = BuyInvestment s q) \/
        (exists i q, rq = SellInvestment i q))).
Proof.
  assert (Hsame : forall out : outcome,
             transactions (after out) = transactions d ->
             exists added,
               transactions (after out) = transactions d ++ added /\
               (added = [] \/
                exists record,
                  added = [record] /\ tx_userId record = uid /\
                  success (reply out) = true /\
                  ((exists s q, rq = CreateInvestment s q \/ rq = BuyInvestment s q) \/
                   (exists i q, rq = SellInvestment i q)))).
  { intros out E. exists []. rewrite app_nil_r. auto. }
  destruct rq as [|i|s q|i q|i| |a|l f t|s q]; cbn [handle]; cbv zeta.
  - apply Hsame. reflexivity.
  - apply Hsame. unfold getInvestmentById. case_match; reflexivity.
  - unfold createInvestment.
    repeat case_match; try (apply Hsame; reflexivity);
      (eexists; split; [reflexivity|]; right; eexists; split; [reflexivity|];
       repeat split; left; eexists _, _; left; reflexivity).
  - unfold sellInvestment.
    repeat case_match; try (apply Hsame; reflexivity);
      (eexists; split; [reflexivity|]; right; eexists; split; [reflexivity|];
       repeat split; right; eexists _, _; reflexivity).
  - apply Hsame. unfold deleteInvestment. case_match; reflexivity.
  - apply Hsame. unfold getCashBalance. case_match; reflexivity.
  - apply Hsame. unfold addCash. repeat case_match; reflexivity.
  - apply Hsame. reflexivity.
  - unfold buyInvestment.
    repeat case_match; try (apply Hsame; reflexivity);
      (eexists; split; [reflexivity|]; right; eexists; split; [reflexivity|];
       repeat split; left; eexists _, _; right; reflexivity).
Qed.

(** ** Invariants of the tables *)

Lemma distinct_ids_NoDup rows :
  distinct_ids rows = true <-> NoDup (List.map id rows).
Proof.
  induction rows as [|a rows IH]; cbn [distinct_ids List.map].
  - split; [constructor|reflexivity].
  - rewrite andb_true_iff, negb_true_iff, IH. split.
    + intros [Ha Hn]. apply NoDup_cons. split; [|exact Hn].
      intros Hin. apply list_elem_of_In, in_map_iff in Hin.
      destruct Hin as (x & E & Hx).
      assert (existsb (fun r' => Nat.eqb (id r') (id a)) rows = true) as Hex.
      { apply existsb_exists. exists x. split; [exact Hx|]. apply Nat.eqb_eq, E. }
      congruence.
    + intros H. apply NoDup_cons in H. destruct H as [Ha Hn].
      split; [|exact Hn].
      destruct (existsb _ rows) eqn:Hex; [|reflexivity].
      exfalso. apply Ha. apply existsb_exists in Hex.
      destruct Hex as (x & Hx & E). apply Nat.eqb_eq in E.
      rewrite <- E. apply list_elem_of_In, in_map, Hx.
Qed.

Lemma ids_below_Forall n rows :
  ids_below n rows = true <-> Forall (fun r => (id r < n)%nat) rows.
Proof.
  unfold ids_below. rewrite forallb_forall, Forall_forall. split.
  - intros H r Hr. apply Nat.ltb_lt, H, list_elem_of_In, Hr.
  - intros H r Hr. apply Nat.ltb_lt, H, list_elem_of_In, Hr.
Qed.

Lemma NoDup_map_filter {A B : Type} (k : A -> B) (p : A -> bool) l :
  NoDup (List.map k l) -> NoDup (List.map k (List.filter p l)).
Proof.
  induction l as [|a l IH]; cbn; intros H; [constructor|].
  apply NoDup_cons in H. destruct H as [Ha Hn].
  destruct (p a); cbn; [|auto].
  apply NoDup_cons. split; [|auto].
  intros Hin. apply Ha. apply list_elem_of_In, in_map_iff in Hin.
  destruct Hin as (x & E & Hx). apply filter_In in Hx.
  rewrite <- E. apply list_elem_of_In, in_map, Hx.
Qed.

Lemma next_id_grows o uid rq d :
  next_id (after (handle o uid rq d))
  = (next_id d
     + (length (investments (after (handle o uid rq d)))
        - length (investments d)))%nat.
Proof.
  assert (Hfilter : forall i, (length (destroy_row i (investments d))
                               - length (investments d) = 0)%nat).
  { intros i. unfold destroy_row.
    pose proof (List.filter_length_le
                  (fun r => negb (Nat.eqb (id r) i)) (investments d)).
    lia. }
  destruct rq as [|i|s q|i q|i| |a|l f t|s q]; cbn [handle].
  - cbn [getAllInvestments after investments next_id].
    rewrite List.length_map. lia.
  - unfold getInvestmentById. case_match; cbn [after investments next_id];
      unfold update_row; rewrite ?List.length_map; lia.
  - unfold createInvestment.
    repeat case_match; cbn [after investments next_id];
      unfold update_row; rewrite ?List.length_map, ?List.length_app;
      cbn [length]; lia.
  - unfold sellInvestment.
    repeat case_match; cbn [after investments next_id];
      unfold update_row; rewrite ?List.length_map, ?Hfilter; lia.
  - unfold deleteInvestment. case_match; cbn [after investments next_id];
      rewrite ?Hfilter; lia.
  - unfold getCashBalance. case_match; cbn; lia.
  - unfold addCash. repeat case_match; cbn [after investments next_id]; lia.
  - cbn. lia.
  - unfold buyInvestment.
    repeat case_match; cbn [after investments next_id];
      unfold update_row; rewrite ?List.length_map, ?List.length_app;
      cbn [length]; lia.
Qed.

Lemma update_row_length i f rows :
  length (update_row i f rows) = length rows.
Proof. unfold update_row. apply List.length_map. Qed.

Lemma keeps_id_map i f rows :
  keeps_identity f ->
  List.map id (update_row i f rows) = List.map id rows.
Proof.
  intros Hf. unfold update_row. apply mapped_ids.
  intros r. apply update_row_id. intros x. apply Hf.
Qed.

Lemma keeps_key_map i f rows :
  keeps_identity f ->
  List.map index_key (update_row i f rows) = List.map index_key rows.
Proof.
  intros Hf. unfold update_row. rewrite List.map_map.
  apply List.map_ext. intros r. unfold index_key.
  destruct (Nat.eqb (id r) i); [|reflexivity].
  destruct (Hf r) as (_ & -> & ->). reflexivity.
Qed.

(** X4: every handler keeps the row ids distinct and below the next id to
    hand out, and never lowers that next id: an id is never used twice. *)
Theorem handle_keeps_well_formed o uid rq d :
  well_formed d = true ->
  well_formed (after (handle o uid rq d)) = true /\
  (next_id d <= next_id (after (handle o uid rq d)))%nat.
Proof.
  intros Hwf.
  pose proof (next_id_grows o uid rq d) as Hnext.
  split; [|lia].
  unfold well_formed in *. apply andb_true_iff in Hwf.
  destruct Hwf as [Hbelow Hdist].
  apply ids_below_Forall in Hbelow. apply distinct_ids_NoDup in Hdist.
  apply andb_true_iff.
  rewrite ids_below_Forall, distinct_ids_NoDup.
  set (out := handle o uid rq d) in *.
  assert (Hids : forall rows',
             investments (after out) = rows' ->
             List.map id rows' = List.map id (investments d) ->
             Forall (fun r => (id r < next_id (after out))%nat) rows' /\
             NoDup (List.map id rows')).
  { intros rows' E Hmap. split; [|rewrite Hmap; exact Hdist].
    assert (length rows' = length (investments d)) as Hlen.
    { rewrite <- (List.length_map id rows'), Hmap. apply List.length_map. }
    rewrite Hnext, E, Hlen, Nat.sub_diag, Nat.add_0_r.
    apply Forall_forall. intros r Hr.
    assert (In (id r) (List.map id (investments d))) as Hin.
    { rewrite <- Hmap. apply in_map, list_elem_of_In, Hr. }
    apply in_map_iff in Hin. destruct Hin as (x & Ex & Hx).
    rewrite Forall_forall in Hbelow. rewrite <- Ex.
    apply Hbelow, list_elem_of_In, Hx. }
  assert (Hdel : forall i,
             investments (after out) = destroy_row i (investments d) ->
             Forall (fun r => (id r < next_id (after out))%nat)
               (investments (after out)) /\
             NoDup (List.map id (investments (after out)))).
  { intros i E. split.
    - rewrite Hnext. apply Forall_forall. intros r Hr.
      rewrite E in Hr. apply list_elem_of_In, in_destroy_row in Hr.
      rewrite Forall_forall in Hbelow.
      pose proof (Hbelow r ltac:(apply list_elem_of_In, Hr)). lia.
    - rewrite E. apply NoDup_map_filter, Hdist. }
  destruct (handle_effect o uid rq d) as
    [E
    |row E Hid Hu Hnone Hbuy
    |inv f Hf E Hkeep Hbuy
    |inv f i q n Hrq Hf Hq Hn E Hkeep
    |inv i q sale balance cash Hrq Hf Hq E Hdata Hcash Hcash'
    |inv i Hrq Hf E Husers Htxs
    |inv i Hrq Hf E
    |Hrq E];
    fold out in E.
  - destruct (Hids _ E) as [H1 H2]; [reflexivity|]. rewrite E. auto.
  - rewrite Hnext, E, List.length_app. cbn [length].
    replace (length (investments d) + 1 - length (investments d))%nat
      with 1%nat by lia.
    split.
    + apply Forall_app. split.
      * eapply Forall_impl; [exact Hbelow|]. cbn. intros; lia.
      * constructor; [lia|constructor].
    + rewrite List.map_app. cbn [List.map].
      apply NoDup_app. split; [exact Hdist|]. split.
      * intros x Hx Hx'. apply list_elem_of_In in Hx'. destruct Hx' as [<-|[]].
        apply list_elem_of_In, in_map_iff in Hx. destruct Hx as (y & Ey & Hy).
        rewrite Forall_forall in Hbelow.
        pose proof (Hbelow y ltac:(apply list_elem_of_In, Hy)). lia.
      * constructor; [|constructor]. intros H. inversion H.
  - destruct (Hids _ eq_refl) as [H1 H2];
      [rewrite E; apply keeps_id_map, Hkeep|auto].
  - destruct (Hids _ eq_refl) as [H1 H2];
      [rewrite E; apply keeps_id_map, Hkeep|auto].
  - apply (Hdel _ E).
  - apply (Hdel _ E).
  - destruct (Hids _ eq_refl) as [H1 H2];
      [rewrite E; apply keeps_id_map, refresh_identity|auto].
  - destruct (Hids _ eq_refl) as [H1 H2]; [|auto].
    rewrite E. apply mapped_ids. intros r.
    destruct (Nat.eqb (userId r) uid); reflexivity.
Qed.

Lemma findOne_none p rows r :
  findOne p rows = None -> In r rows -> p r = false.
Proof. intros H Hr. exact (find_none p rows H r Hr). Qed.

(** X5: when the table holds at most one row for a user and a symbol, it
    still does after any request: a purchase adds a row only when it found
    none for the symbol, and no update changes a row's user or symbol. *)
Theorem handle_keeps_one_per_symbol o uid rq d :
  one_per_symbol d -> one_per_symbol (after (handle o uid rq d)).
Proof.
  unfold one_per_symbol. intros Hone.
  destruct (handle_effect o uid rq d) as
    [E
    |row E Hid Hu Hnone Hbuy
    |inv f Hf E Hkeep Hbuy
    |inv f i q n Hrq Hf Hq Hn E Hkeep
    |inv i q sale balance cash Hrq Hf Hq E Hdata Hcash Hcash'
    |inv i Hrq Hf E Husers Htxs
    |inv i Hrq Hf E
    |Hrq E];
    rewrite E.
  - exact Hone.
  - rewrite List.map_app. cbn [List.map].
    apply NoDup_app. split; [exact Hone|]. split.
    + intros k Hk Hk'. apply list_elem_of_In in Hk'. destruct Hk' as [<-|[]].
      apply list_elem_of_In, in_map_iff in Hk. destruct Hk as (x & Ex & Hx).
      pose proof (findOne_none _ _ x Hnone Hx) as Hp.
      unfold index_key in Ex. injection Ex as Eu Es.
      unfold by_user_and_symbol in Hp.
      rewrite Eu, Hu, Es, Nat.eqb_refl, String.eqb_refl in Hp. discriminate.
    + apply NoDup_cons. split; [|constructor]. intros H. inversion H.
  - rewrite (keeps_key_map _ _ _ Hkeep). exact Hone.
  - rewrite (keeps_key_map _ _ _ Hkeep). exact Hone.
  - apply NoDup_map_filter, Hone.
  - apply NoDup_map_filter, Hone.
  - rewrite (keeps_key_map _ _ _ (refresh_identity o)). exact Hone.
  - rewrite List.map_map.
    erewrite List.map_ext; [exact Hone|]. intros r. cbv beta.
    destruct (Nat.eqb (userId r) uid); reflexivity.
Qed.

Lemma handle_keeps_one_per_symbol_witness :
  one_per_symbol
    (after (handle oracle_aapl 2 (BuyInvestment AAPL (JNumber 3)) two_users)).
Proof.
  apply handle_keeps_one_per_symbol.
  unfold one_per_symbol. cbn.
  apply NoDup_cons. split.
  - intros H. apply list_elem_of_In in H. destruct H as [H|[]]. discriminate.
  - apply NoDup_cons. split; [|constructor]. intros H. inversion H.
Defined.

Lemma handle_keeps_well_formed_witness :
  well_formed
    (after (handle oracle_aapl 2 (BuyInvestment AAPL (JNumber 3)) two_users))
  = true /\
  (next_id two_users
   <= next_id (after (handle oracle_aapl 2 (BuyInvestment AAPL (JNumber 3))
                        two_users)))%nat.
Proof.
  apply handle_keeps_well_formed. reflexivity.
Defined.

(** ** One user's requests and another user's data *)

Lemma handle_users_other o uid rq d u :
  u <> uid ->
  users (after (handle o uid rq d)) !! u = users d !! u.
Proof.
  intros Hu.
  destruct rq as [|i|s q|i q|i| |a|l f t|s q]; cbn [handle].
  - reflexivity.
  - unfold getInvestmentById. case_match; reflexivity.
  - unfold createInvestment.
    repeat case_match; cbn [after users]; try reflexivity;
      apply lookup_insert_ne; congruence.
  - unfold sellInvestment.
    repeat case_match; cbn [after users]; try reflexivity;
      apply lookup_insert_ne; congruence.
  - unfold deleteInvestment. case_match; reflexivity.
  - unfold getCashBalance. case_match; reflexivity.
  - unfold addCash.
    repeat case_match; cbn [after users]; try reflexivity;
      apply lookup_insert_ne; congruence.
  - reflexivity.
  - unfold buyInvestment.
    repeat case_match; cbn [after users]; try reflexivity;
      apply lookup_insert_ne; congruence.
Qed.

Lemma filter_update_other (p : investment -> bool) i f rows :
  (forall r, In r rows -> id r = i -> p r = false /\ p (f r) = false) ->
  List.filter p (update_row i f rows) = List.filter p rows.
Proof.
  unfold update_row. induction rows as [|a rows IH]; intros H; [reflexivity|].
  cbn [List.map List.filter].
  rewrite IH by (intros r Hr; apply H; right; exact Hr).
  destruct (Nat.eqb_spec (id a) i) as [Ei|Ei]; [|reflexivity].
  destruct (H a (or_introl eq_refl) Ei) as [-> ->]. reflexivity.
Qed.

Lemma filter_destroy_other (p : investment -> bool) i rows :
  (forall r, In r rows -> id r = i -> p r = false) ->
  List.filter p (destroy_row i rows) = List.filter p rows.
Proof.
  unfold destroy_row. induction rows as [|a rows IH]; intros H; [reflexivity|].
  cbn [List.filter].
  destruct (Nat.eqb_spec (id a) i) as [Ei|Ei]; cbn [negb List.filter].
  - rewrite (H a (or_introl eq_refl) Ei).
    apply IH. intros r Hr. apply H. right. exact Hr.
  - rewrite IH by (intros r Hr; apply H; right; exact Hr). reflexivity.
Qed.

Lemma filter_refresh_other o uid u rows :
  u <> uid ->
  List.filter (fun r => Nat.eqb (userId r) u)
    (List.map (fun r => if Nat.eqb (userId r) uid
                        then fst (refresh o r) else r) rows)
  = List.filter (fun r => Nat.eqb (userId r) u) rows.
Proof.
  intros Hu. induction rows as [|a rows IH]; [reflexivity|].
  cbn [List.map List.filter]. rewrite IH.
  destruct (Nat.eqb_spec (userId a) uid) as [Ea|Ea]; [|reflexivity].
  cbn [refresh fst userId]. rewrite Ea.
  destruct (Nat.eqb_spec uid u); [congruence|reflexivity].
Qed.

(** X6: a request of one user leaves every other user's cash balance and
    every other user's rows exactly as they were. *)
Theorem other_users_untouched o uid rq d u :
  well_formed d = true -> u <> uid ->
  users (after (handle o uid rq d)) !! u = users d !! u /\
  rows_of u (after (handle o uid rq d)) = rows_of u d.
Proof.
  intros Hwf Hu. split; [apply handle_users_other, Hu|].
  unfold rows_of.
  set (p := fun r => Nat.eqb (userId r) u).
  assert (Hown : forall inv f,
             In inv (investments d) -> userId inv = uid -> keeps_identity f ->
             forall r, In r (investments d) -> id r = id inv ->
                       p r = false /\ p (f r) = false).
  { intros inv f Hin Hinv Hkeep r Hr Hid.
    assert (r = inv) as -> by (apply (same_id_same_row d Hwf); auto).
    unfold p. destruct (Hkeep inv) as (_ & -> & _). rewrite Hinv.
    split; apply Nat.eqb_neq; congruence. }
  destruct (handle_effect o uid rq d) as
    [E
    |row E Hid Hur Hnone Hbuy
    |inv f Hf E Hkeep Hbuy
    |inv f i q n Hrq Hf Hq Hn E Hkeep
    |inv i q sale balance cash Hrq Hf Hq E Hdata Hcash Hcash'
    |inv i Hrq Hf E Husers Htxs
    |inv i Hrq Hf E
    |Hrq E];
    rewrite E.
  - reflexivity.
  - rewrite List.filter_app. cbn [List.filter]. unfold p at 2.
    rewrite Hur. destruct (Nat.eqb_spec uid u); [congruence|].
    apply app_nil_r.
  - destruct (findOne_some _ _ _ Hf) as [Hin Hp].
    apply by_user_and_symbol_true in Hp.
    apply filter_update_other. apply (Hown inv f Hin (proj1 Hp) Hkeep).
  - destruct (findOne_some _ _ _ Hf) as [Hin Hp].
    apply by_id_and_user_true in Hp.
    apply filter_update_other. apply (Hown inv f Hin (proj2 Hp) Hkeep).
  - destruct (findOne_some _ _ _ Hf) as [Hin Hp].
    apply by_id_and_user_true in Hp.
    apply filter_destroy_other. intros r Hr Hid.
    apply (Hown inv (fun x => x) Hin (proj2 Hp) ltac:(intros x; auto) r Hr Hid).
  - destruct (findOne_some _ _ _ Hf) as [Hin Hp].
    apply by_id_and_user_true in Hp.
    apply filter_destroy_other. intros r Hr Hid.
    apply (Hown inv (fun x => x) Hin (proj2 Hp) ltac:(intros x; auto) r Hr Hid).
  - destruct (findOne_some _ _ _ Hf) as [Hin Hp].
    apply by_id_and_user_true in Hp.
    apply filter_update_other.
    apply (Hown inv _ Hin (proj2 Hp) (refresh_identity o)).
  - apply filter_refresh_other, Hu.
Qed.

Lemma other_users_untouched_witness :
  users (after (handle oracle_aapl 1 (SellInvestment 1 (JNumber 10)) two_users))
    !! 2%nat = users two_users !! 2%nat /\
  rows_of 2 (after (handle oracle_aapl 1 (SellInvestment 1 (JNumber 10))
                      two_users))
  = rows_of 2 two_users.
Proof.
  apply other_users_untouched; [reflexivity|lia].
Defined.

(** ** No negative balance, no negative amount *)

Lemma solvent_write d uid c rows' txs nid :
  solvent d -> 0 <= c -> Forall nonneg_row rows' ->
  solvent (mkDb (<[uid := c]> (users d)) rows' txs nid).
Proof.
  intros [Hu Hr] Hc Hrows. split; [|exact Hrows].
  cbn [users]. intros u x. rewrite lookup_insert.
  case_decide; [intros [= <-]; exact Hc|apply Hu].
Qed.

Lemma solvent_rows d rows' txs nid :
  solvent d -> Forall nonneg_row rows' ->
  solvent (mkDb (users d) rows' txs nid).
Proof. intros [Hu Hr] Hrows. split; [exact Hu|exact Hrows]. Qed.

Lemma Qle_bool_gt a : Qle_bool a 0 = false -> (0 < a)%Q.
Proof.
  intros H. apply Qnot_le_lt. intros Hle.
  apply Qle_bool_iff in Hle. congruence.
Qed.

Lemma solvent_row d r : solvent d -> In r (investments d) -> nonneg_row r.
Proof.
  intros [_ Hr] Hin. rewrite Forall_forall in Hr.
  apply Hr, list_elem_of_In, Hin.
Qed.

Lemma refresh_nonneg o r :
  oracle_nonneg o -> nonneg_row r -> nonneg_row (fst (refresh o r)).
Proof.
  intros Ho (Hq & Hp & Hc & Ht). unfold nonneg_row, refresh.
  cbn [fst quantity purchasePrice currentPrice totalInvested].
  repeat split; try assumption.
  apply toFixed2_nonneg.
  destruct (o (symbol r)) as [stock|] eqn:E.
  - apply (Ho _ _ E).
  - apply of_cents_nonneg, Hp.
Qed.

Lemma part_of_basis ti q n :
  0 <= ti -> 0 < n <= q ->
  (0 <= of_cents ti / inject_Z q * inject_Z n <= of_cents ti)%Q.
Proof.
  intros Hti Hn.
  assert (Hq : (0 < inject_Z q)%Q) by (apply inject_Z_pos; lia).
  assert (Ht : (0 <= of_cents ti)%Q) by (apply of_cents_nonneg, Hti).
  assert (Hn0 : (0 <= inject_Z n)%Q) by (apply inject_Z_nonneg; lia).
  assert (Hnq : (inject_Z n <= inject_Z q)%Q).
  { unfold Qle, inject_Z. cbn [Qnum Qden]. lia. }
  split.
  - apply Qmult_le_0_compat; [|exact Hn0].
    apply Qdiv_nonneg; [exact Ht|apply Qlt_le_weak, Hq].
  - assert (E : (of_cents ti / inject_Z q * inject_Z n
                 == of_cents ti * (inject_Z n / inject_Z q))%Q).
    { field. intros Hz. rewrite Hz in Hq. apply (Qlt_irrefl _ Hq). }
    rewrite E.
    assert (Hr : (inject_Z n / inject_Z q <= 1)%Q).
    { apply Qle_shift_div_r; [exact Hq|]. lra. }
    assert (H0 : (0 <= inject_Z n / inject_Z q)%Q).
    { apply Qdiv_nonneg; [exact Hn0|apply Qlt_le_weak, Hq]. }
    set (r := (inject_Z n / inject_Z q)%Q) in *.
    set (t := of_cents ti) in *. nra.
Qed.

Lemma createInvestment_solvent o uid s q d :
  oracle_nonneg o -> solvent d -> solvent (after (createInvestment o uid s q d)).
Proof.
  intros Ho Hs. unfold createInvestment.
  destruct q as [|qty]; [exact Hs|].
  destruct (falsy_string s); [exact Hs|]. cbn [orb].
  destruct (Qeq_bool qty 0); [exact Hs|]. cbn [orb].
  destruct (Qle_bool qty 0) eqn:Hq; [exact Hs|]. apply Qle_bool_gt in Hq.
  destruct (o (toUpperCase s)) as [stock|] eqn:Hos; [|exact Hs].
  pose proof (Ho _ _ Hos) as Hp.
  destruct (users d !! uid) as [cash|] eqn:Hu; [|exact Hs].
  destruct (Qltb _ _) eqn:Hlt; [exact Hs|]. apply Qltb_ge in Hlt.
  assert (Hcost : (0 <= price stock * qty)%Q).
  { apply Qmult_le_0_compat; [exact Hp|apply Qlt_le_weak, Hq]. }
  assert (Hcash : 0 <= decimal2 (of_cents cash - price stock * qty)).
  { apply toFixed2_nonneg. lra. }
  destruct (findOne _ _) as [inv|] eqn:Hf; cbn [after].
  - destruct (findOne_some _ _ _ Hf) as [Hin _].
    destruct (solvent_row d inv Hs Hin) as (Hiq & Hip & Hic & Hit).
    pose proof (inject_Z_nonneg _ Hiq) as Hiq'.
    pose proof (of_cents_nonneg _ Hit) as Hit'.
    apply solvent_write; [exact Hs|exact Hcash|].
    apply Forall_update_row; [apply Hs|].
    intros r _ _. unfold nonneg_row, set_quantity, set_decimal, decimal2, get_decimal.
    cbn [quantity purchasePrice currentPrice totalInvested].
    repeat split.
    + apply parseInt_number_nonneg. lra.
    + apply toFixed2_nonneg, Qdiv_nonneg; lra.
    + apply toFixed2_nonneg, Hp.
    + apply toFixed2_nonneg. lra.
  - apply solvent_write; [exact Hs|exact Hcash|].
    apply Forall_app. split; [apply Hs|].
    constructor; [|constructor].
    unfold nonneg_row, set_quantity, set_decimal, decimal2.
    cbn [quantity purchasePrice currentPrice totalInvested].
    repeat split.
    + apply parseInt_number_nonneg, Qlt_le_weak, Hq.
    + apply toFixed2_nonneg, Hp.
    + apply toFixed2_nonneg, Hp.
    + apply toFixed2_nonneg, Hcost.
Qed.

Lemma buyInvestment_solvent o uid s q d :
  solvent d -> solvent (after (buyInvestment o uid s q d)).
Proof.
  intros Hs. unfold buyInvestment.
  destruct (parseInt q) as [n|]; [|exact Hs].
  destruct (Z.leb_spec n 0) as [|Hn]; [exact Hs|].
  destruct (o s) as [stock|] eqn:Hos; [|exact Hs].
  destruct (Qle_bool (price stock) 0) eqn:Hp; [exact Hs|].
  apply Qle_bool_gt in Hp.
  destruct (users d !! uid) as [cash|] eqn:Hu; [|exact Hs].
  destruct (Qltb _ _) eqn:Hlt; [exact Hs|]. apply Qltb_ge in Hlt.
  pose proof (inject_Z_pos _ Hn) as Hn'.
  assert (Hcost : (0 <= price stock * inject_Z n)%Q).
  { apply Qmult_le_0_compat; apply Qlt_le_weak; assumption. }
  pose proof (round2_nonneg _ Hcost) as Hcost'.
  assert (Hcash : 0 <= decimal2 (round2 (of_cents cash
                                         - round2 (price stock * inject_Z n)))).
  { apply toFixed2_nonneg, round2_nonneg. lra. }
  pose proof (round2_nonneg _ (Qlt_le_weak _ _ Hp)) as Hpr.
  destruct (findOne _ _) as [inv|] eqn:Hf; cbn [after].
  - destruct (findOne_some _ _ _ Hf) as [Hin _].
    destruct (solvent_row d inv Hs Hin) as (Hiq & Hip & Hic & Hit).
    pose proof (of_cents_nonneg _ Hit) as Hit'.
    assert (Hnew : (0 <= round2 (get_decimal (totalInvested inv)
                      + round2 (price stock * inject_Z n)))%Q).
    { apply round2_nonneg. unfold get_decimal. lra. }
    apply solvent_write; [exact Hs|exact Hcash|].
    apply Forall_update_row; [apply Hs|].
    intros r _ _. unfold nonneg_row, set_quantity, set_decimal, decimal2.
    cbn [quantity purchasePrice currentPrice totalInvested].
    repeat split.
    + apply parseInt_number_nonneg, inject_Z_nonneg. lia.
    + apply toFixed2_nonneg, round2_nonneg, Qdiv_nonneg;
        [exact Hnew|apply inject_Z_nonneg; lia].
    + apply toFixed2_nonneg, Hpr.
    + apply toFixed2_nonneg, Hnew.
  - apply solvent_write; [exact Hs|exact Hcash|].
    apply Forall_app. split; [apply Hs|].
    constructor; [|constructor].
    unfold nonneg_row, set_quantity, set_decimal, decimal2.
    cbn [quantity purchasePrice currentPrice totalInvested].
    repeat split.
    + apply parseInt_number_nonneg, inject_Z_nonneg. lia.
    + apply toFixed2_nonneg, Hpr.
    + apply toFixed2_nonneg, Hpr.
    + apply toFixed2_nonneg, Hcost'.
Qed.

Lemma sellInvestment_solvent o uid i q d :
  oracle_nonneg o -> solvent d -> solvent (after (sellInvestment o uid i q d)).
Proof.
  intros Ho Hs. unfold sellInvestment.
  destruct (parseInt q) as [n|]; [|exact Hs].
  destruct (Z.eqb_spec n 0); [exact Hs|].
  destruct (Z.leb_spec n 0) as [|Hn]; [exact Hs|]. cbn [orb].
  destruct (findOne _ _) as [inv|] eqn:Hf; [|exact Hs].
  destruct (findOne_some _ _ _ Hf) as [Hin _].
  destruct (solvent_row d inv Hs Hin) as (Hiq & Hip & Hic & Hit).
  destruct (Z.ltb_spec (quantity inv) n) as [|Hle]; [exact Hs|].
  set (p := match o (symbol inv) with
            | Some stock => round2 (price stock)
            | None => get_decimal (currentPrice inv)
            end).
  assert (Hp : (0 <= p)%Q).
  { unfold p. destruct (o (symbol inv)) as [stock|] eqn:E.
    - apply round2_nonneg, (Ho _ _ E).
    - apply of_cents_nonneg, Hic. }
  destruct (users d !! uid) as [cash|] eqn:Hu; [|exact Hs].
  assert (Hc : 0 <= cash) by (apply (proj1 Hs uid), Hu).
  assert (Hcash : 0 <= decimal2 (round2 (of_cents cash
                                         + round2 (p * inject_Z n)))).
  { pose proof (of_cents_nonneg _ Hc).
    assert (0 <= round2 (p * inject_Z n))%Q.
    { apply round2_nonneg, Qmult_le_0_compat; [exact Hp|].
      apply inject_Z_nonneg. lia. }
    apply toFixed2_nonneg, round2_nonneg. lra. }
  destruct (Z.eqb_spec n (quantity inv)) as [E|E]; cbn [after].
  - apply solvent_write; [exact Hs|exact Hcash|].
    apply Forall_destroy_row, Hs.
  - destruct (part_of_basis (totalInvested inv) (quantity inv) n Hit
                ltac:(lia)) as [Hlo Hhi].
    assert (Hrem : (0 <= round2 (get_decimal (totalInvested inv)
                      - round2 (get_decimal (totalInvested inv)
                                / inject_Z (quantity inv) * inject_Z n)))%Q).
    { apply round2_nonneg. unfold get_decimal, round2.
      pose proof (toFixed2_le _ _ Hhi) as Hle'.
      apply of_cents_le in Hle'. lra. }
    apply solvent_write; [exact Hs|exact Hcash|].
    apply Forall_update_row; [apply Hs|].
    intros r _ _. unfold nonneg_row, set_quantity, set_decimal, decimal2.
    cbn [quantity purchasePrice currentPrice totalInvested].
    repeat split.
    + apply parseInt_number_nonneg, inject_Z_nonneg. lia.
    + apply toFixed2_nonneg. destruct (0 <? quantity inv - n).
      * apply round2_nonneg, Qdiv_nonneg;
          [exact Hrem|apply inject_Z_nonneg; lia].
      * apply of_cents_nonneg, Hip.
    + apply toFixed2_nonneg, Hp.
    + apply toFixed2_nonneg, Hrem.
Qed.

(** X7: when the oracle quotes no negative price, no request can make a
    cash balance negative, nor the quantity, the average price, the
    current price or the cost basis of a position. *)
Theorem money_stays_non_negative o uid rq d :
  oracle_nonneg o -> solvent d -> solvent (after (handle o uid rq d)).
Proof.
  intros Ho Hs.
  destruct rq as [|i|s q|i q|i| |a|l f t|s q]; cbn [handle].
  - cbn [getAllInvestments after]. apply solvent_rows; [exact Hs|].
    apply Forall_forall. intros x Hx.
    apply list_elem_of_In, in_map_iff in Hx. destruct Hx as (r & <- & Hr).
    pose proof (solvent_row d r Hs Hr) as Hrow.
    destruct (Nat.eqb (userId r) uid); [|exact Hrow].
    apply refresh_nonneg; assumption.
  - unfold getInvestmentById.
    destruct (findOne _ _) as [inv|]; [|exact Hs].
    cbn [after]. apply solvent_rows; [exact Hs|].
    apply Forall_update_row; [apply Hs|].
    intros r Hr _. apply refresh_nonneg; [exact Ho|].
    apply (solvent_row d r Hs Hr).
  - apply createInvestment_solvent; assumption.
  - apply sellInvestment_solvent; assumption.
  - unfold deleteInvestment.
    destruct (findOne _ _) as [inv|]; [|exact Hs].
    cbn [after]. apply solvent_rows; [exact Hs|].
    apply Forall_destroy_row, Hs.
  - unfold getCashBalance. destruct (users d !! uid); exact Hs.
  - unfold addCash.
    destruct a as [|amount]; [exact Hs|].
    destruct (Qeq_bool amount 0); [exact Hs|]. cbn [orb].
    destruct (Qle_bool amount 0) eqn:Ha; [exact Hs|]. apply Qle_bool_gt in Ha.
    destruct (users d !! uid) as [cash|] eqn:Hu; [|exact Hs].
    cbn [after]. apply solvent_write; [exact Hs| |apply Hs].
    pose proof (of_cents_nonneg _ (proj1 Hs uid cash Hu)).
    apply toFixed2_nonneg. lra.
  - exact Hs.
  - apply buyInvestment_solvent; assumption.
Qed.

Lemma money_stays_non_negative_witness :
  solvent (after (handle oracle_aapl 1 (SellInvestment 1 (JNumber 4)) two_users)).
Proof.
  apply money_stays_non_negative.
  - intros s stock H. unfold oracle_aapl in H.
    destruct (String.eqb s AAPL); [|discriminate].
    injection H as <-. discriminate.
  - split.
    + intros u c. cbn [two_users users].
      rewrite lookup_insert. case_decide; [intros [= <-]; lia|].
      rewrite lookup_singleton. case_decide; [intros [= <-]; lia|discriminate].
    + repeat constructor; cbn; lia.
Defined.

(** ** When a trade goes through *)

(** X8: with a quantity that parses, an oracle answer whose price is a
    whole number of hundredths and an account, [buyInvestment] succeeds
    exactly when the quantity and the price are positive and the cost,
    price times quantity, does not exceed the balance (a cost equal to the
    balance is accepted); it then debits exactly that cost. *)
Theorem buyInvestment_succeeds_iff o uid s q n stock pc cash d :
  parseInt q = Some n ->
  o s = Some stock ->
  (price stock == of_cents pc)%Q ->
  users d !! uid = Some cash ->
  let out := buyInvestment o uid s q d in
  (success (reply out) = true <-> 0 < n /\ 0 < pc /\ pc * n <= cash) /\
  (success (reply out) = true ->
   users (after out) !! uid = Some (cash - pc * n)).
Proof.
  intros Hq Ho Hprice Hu. cbv zeta. unfold buyInvestment. rewrite Hq.
  destruct (Z.leb_spec n 0) as [Hn|Hn].
  { split; [split; [discriminate|lia]|discriminate]. }
  rewrite Ho.
  assert (Hsign : (0 < price stock)%Q <-> 0 < pc).
  { rewrite Hprice. unfold Qlt, of_cents. cbn [Qnum Qden]. lia. }
  destruct (Qle_bool (price stock) 0) eqn:Hp.
  { split; [split; [discriminate|]|discriminate].
    intros (_ & Hpos & _). apply Hsign in Hpos. apply Qle_bool_iff in Hp.
    exfalso. apply (Qlt_not_le _ _ Hpos Hp). }
  apply Qle_bool_gt, Hsign in Hp. rewrite Hu.
  assert (Hcost : round2 (price stock * inject_Z n) = of_cents (pc * n)).
  { unfold round2. f_equal. apply toFixed2_eq, two_digit_product, Hprice. }
  rewrite Hcost.
  destruct (Qltb _ _) eqn:Hlt.
  { apply Qltb_lt in Hlt.
    split; [split; [discriminate|]|discriminate].
    intros (_ & _ & Hle). apply of_cents_le in Hle.
    exfalso. apply (Qlt_not_le _ _ Hlt Hle). }
  apply Qltb_ge, of_cents_le in Hlt.
  destruct (findOne _ _); cbn [reply after success users];
    rewrite lookup_insert_eq, round2_cents_minus;
    unfold decimal2; rewrite toFixed2_of_cents;
    (split; [split; [intros _; repeat split; assumption|reflexivity]
            |reflexivity]).
Qed.

Lemma buyInvestment_succeeds_iff_witness :
  let out := buyInvestment oracle_aapl 1 AAPL (JNumber 10) (db_cash 150000) in
  (success (reply out) = true <-> 0 < 10 /\ 0 < 15000 /\ 15000 * 10 <= 150000) /\
  (success (reply out) = true ->
   users (after out) !! 1%nat = Some (150000 - 15000 * 10)).
Proof.
  exact (buyInvestment_succeeds_iff oracle_aapl 1 AAPL (JNumber 10) 10
           (mkStock 150 (Some "Apple Inc."%string)) 15000 150000
           (db_cash 150000) eq_refl eq_refl eq_refl eq_refl).
Defined.

(** X9: with a quantity that parses, a position of the user under the id
    and an account, [sellInvestment] succeeds exactly when the quantity is
    positive and at most the quantity held, whatever the oracle answers. *)
Theorem sellInvestment_succeeds_iff o uid i q n inv cash d :
  parseInt q = Some n ->
  findOne (by_id_and_user i uid) (investments d) = Some inv ->
  users d !! uid = Some cash ->
  (success (reply (sellInvestment o uid i q d)) = true <->
   0 < n <= quantity inv).
Proof.
  intros Hq Hf Hu. unfold sellInvestment. rewrite Hq.
  destruct (Z.eqb_spec n 0); [split; [discriminate|lia]|].
  destruct (Z.leb_spec n 0); [split; [discriminate|lia]|]. cbn [orb].
  rewrite Hf.
  destruct (Z.ltb_spec (quantity inv) n); [split; [discriminate|lia]|].
  rewrite Hu.
  destruct (n =? quantity inv); cbn [reply success]; split; auto; lia.
Qed.

Lemma sellInvestment_succeeds_iff_witness :
  success (reply (sellInvestment oracle_down 1 1 (JNumber 10) two_users)) = true
  <-> 0 < 10 <= quantity (apple_row 10).
Proof.
  exact (sellInvestment_succeeds_iff oracle_down 1 1 (JNumber 10) 10
           (apple_row 10) 100000 two_users eq_refl eq_refl eq_refl).
Defined.

(** ** The balance a response shows *)

(** X10: the balance that [buyInvestment] or [sellInvestment] shows in
    its response is the balance [getCashBalance] shows right after it, and
    [getCashBalance] shows the same balance when asked again.  The two
    handlers round the balance before they show and store it;
    [createInvestment] and [addCash] show a balance they have rounded for
    the response alone, or not at all, and are left out. *)
Theorem shown_balance_is_stored o uid rq d b :
  (forall s q, rq <> CreateInvestment s q) ->
  (forall a, rq <> AddCash a) ->
  reported_cash (reply (handle o uid rq d)) = Some b ->
  reported_cash (reply (getCashBalance uid (after (handle o uid rq d))))
  = Some b.
Proof.
  intros Hrq Hadd.
  destruct rq as [|i|s q|i q|i| |a|l f t|s q]; cbn [handle].
  - discriminate.
  - unfold getInvestmentById. case_match; discriminate.
  - exfalso. apply (Hrq s q). reflexivity.
  - unfold sellInvestment.
    repeat case_match; unfold failure;
      cbn [reply data reported_cash after]; try discriminate; intros [= <-];
      unfold getCashBalance; cbn [users];
      rewrite lookup_insert_eq; cbn [reply data reported_cash];
      unfold decimal2, round2; rewrite toFixed2_of_cents; reflexivity.
  - unfold deleteInvestment. case_match; discriminate.
  - assert (E : after (getCashBalance uid d) = d)
      by (unfold getCashBalance; case_match; reflexivity).
    rewrite E. auto.
  - exfalso. apply (Hadd a). reflexivity.
  - discriminate.
  - unfold buyInvestment.
    repeat case_match; unfold failure;
      cbn [reply data reported_cash after]; try discriminate; intros [= <-];
      unfold getCashBalance; cbn [users];
      rewrite lookup_insert_eq; cbn [reply data reported_cash];
      unfold decimal2, round2; rewrite toFixed2_of_cents; reflexivity.
Qed.

Lemma shown_balance_is_stored_witness :
  reported_cash
    (reply (getCashBalance 1
              (after (handle oracle_aapl 1 (SellInvestment 1 (JNumber 4))
                        two_users))))
  = Some (of_cents 160000).
Proof.
  apply shown_balance_is_stored; [discriminate|discriminate|reflexivity].
Defined.

(** ** Cash and cost basis together *)

Lemma cost_basis_rows u d : cost_basis u d = basis_of u (investments d).
Proof. reflexivity. Qed.

Lemma basis_of_app u rows row :
  userId row = u ->
  basis_of u (rows ++ [row]) = basis_of u rows + totalInvested row.
Proof.
  intros Hu. unfold basis_of. rewrite List.filter_app. cbn [List.filter].
  rewrite Hu, Nat.eqb_refl, List.map_app, fold_right_app.
  cbn [List.map fold_right].
  induction (List.map totalInvested _) as [|x l IH]; cbn [fold_right]; lia.
Qed.

Lemma update_row_absent i f rows :
  existsb (fun r => Nat.eqb (id r) i) rows = false ->
  update_row i f rows = rows.
Proof.
  unfold update_row. induction rows as [|a rows IH]; cbn; intros H;
    [reflexivity|].
  apply orb_false_iff in H. destruct H as [Ha Hr].
  rewrite Ha, IH by exact Hr. reflexivity.
Qed.

Lemma destroy_row_absent i rows :
  existsb (fun r => Nat.eqb (id r) i) rows = false ->
  destroy_row i rows = rows.
Proof.
  unfold destroy_row. induction rows as [|a rows IH]; cbn; intros H;
    [reflexivity|].
  apply orb_false_iff in H. destruct H as [Ha Hr].
  rewrite Ha, IH by exact Hr. reflexivity.
Qed.

Lemma existsb_id_in i rows r :
  existsb (fun r' => Nat.eqb (id r') i) rows = false -> In r rows -> id r <> i.
Proof.
  intros H Hr E.
  assert (existsb (fun r' => Nat.eqb (id r') i) rows = true) as Hex.
  { apply existsb_exists. exists r. split; [exact Hr|]. apply Nat.eqb_eq, E. }
  congruence.
Qed.

Lemma basis_of_update u inv f rows :
  distinct_ids rows = true -> In inv rows ->
  userId inv = u -> userId (f inv) = u ->
  basis_of u (update_row (id inv) f rows)
  = basis_of u rows - totalInvested inv + totalInvested (f inv).
Proof.
  intros Hd Hin Hu Hfu.
  induction rows as [|a rows IH]; [destruct Hin|].
  cbn [distinct_ids] in Hd. apply andb_true_iff in Hd.
  destruct Hd as [Ha Hd]. apply negb_true_iff in Ha.
  destruct Hin as [->|Hin].
  - unfold update_row at 1. cbn [List.map]. rewrite Nat.eqb_refl.
    fold (update_row (id inv) f rows).
    rewrite (update_row_absent _ _ _ Ha).
    unfold basis_of. cbn [List.filter]. rewrite Hu, Hfu, Nat.eqb_refl.
    cbn [List.map fold_right]. lia.
  - pose proof (existsb_id_in _ _ _ Ha Hin) as Hne.
    unfold update_row at 1. cbn [List.map].
    destruct (Nat.eqb_spec (id a) (id inv)) as [E|_]; [congruence|].
    fold (update_row (id inv) f rows).
    specialize (IH Hd Hin). unfold basis_of in *. cbn [List.filter].
    destruct (Nat.eqb (userId a) u); cbn [List.map fold_right]; lia.
Qed.

Lemma basis_of_destroy u inv rows :
  distinct_ids rows = true -> In inv rows -> userId inv = u ->
  basis_of u (destroy_row (id inv) rows) = basis_of u rows - totalInvested inv.
Proof.
  intros Hd Hin Hu.
  induction rows as [|a rows IH]; [destruct Hin|].
  cbn [distinct_ids] in Hd. apply andb_true_iff in Hd.
  destruct Hd as [Ha Hd]. apply negb_true_iff in Ha.
  destruct Hin as [->|Hin].
  - unfold destroy_row at 1. cbn [List.filter]. rewrite Nat.eqb_refl.
    cbn [negb]. fold (destroy_row (id inv) rows).
    rewrite (destroy_row_absent _ _ Ha).
    unfold basis_of. cbn [List.filter]. rewrite Hu, Nat.eqb_refl.
    cbn [List.map fold_right]. lia.
  - pose proof (existsb_id_in _ _ _ Ha Hin) as Hne.
    unfold destroy_row at 1. cbn [List.filter].
    destruct (Nat.eqb_spec (id a) (id inv)) as [E|_]; [congruence|].
    cbn [negb]. fold (destroy_row (id inv) rows).
    specialize (IH Hd Hin). unfold basis_of in *. cbn [List.filter].
    destruct (Nat.eqb (userId a) u); cbn [List.map fold_right]; lia.
Qed.

Lemma whole_basis ti q :
  0 < q ->
  toFixed2 (of_cents ti / inject_Z q * inject_Z q) = ti.
Proof.
  intros Hq. apply toFixed2_eq. field.
  intros Hz. pose proof (inject_Z_pos q Hq) as Hp.
  rewrite Hz in Hp. apply (Qlt_irrefl _ Hp).
Qed.

Lemma round2_of_difference a b :
  round2 (round2 a - round2 b) = of_cents (toFixed2 a - toFixed2 b).
Proof.
  unfold round2. f_equal. apply toFixed2_eq, of_cents_minus.
Qed.

Ltac same_cents :=
  match goal with
  | |- (of_cents ?a == of_cents ?b)%Q => replace a with b by lia; reflexivity
  end.

(** X11: a purchase through [buyInvestment] moves money from the cash
    balance into the cost basis and leaves their sum unchanged; a sale
    through [sellInvestment] changes that sum by exactly the profit or loss
    it reports. *)
Theorem book_value_moves_by_profit o uid rq d c :
  well_formed d = true ->
  users d !! uid = Some c ->
  (exists s q, rq = BuyInvestment s q) \/ (exists i q, rq = SellInvestment i q) ->
  success (reply (handle o uid rq d)) = true ->
  exists c',
    users (after (handle o uid rq d)) !! uid = Some c' /\
    (of_cents (c' + cost_basis uid (after (handle o uid rq d)))
     == of_cents (c + cost_basis uid d) + realised (reply (handle o uid rq d)))%Q.
Proof.
  intros Hwf Hu Hrq.
  unfold well_formed in Hwf. apply andb_true_iff in Hwf.
  destruct Hwf as [_ Hd].
  rewrite !cost_basis_rows.
  destruct Hrq as [(s & q & ->)|(i & q & ->)]; cbn [handle].
  - unfold buyInvestment.
    destruct (parseInt q) as [n|]; [|discriminate].
    destruct (n <=? 0); [discriminate|].
    destruct (o s) as [stock|]; [|discriminate].
    destruct (Qle_bool _ _); [discriminate|].
    rewrite Hu.
    destruct (Qltb _ _); [discriminate|].
    destruct (findOne _ _) as [inv|] eqn:Hf;
      cbn [reply after success users investments data realised]; intros _;
      (eexists; split; [apply lookup_insert_eq|]);
      rewrite decimal2_round2_diff.
    + destruct (findOne_some _ _ _ Hf) as [Hin Hp].
      apply by_user_and_symbol_true in Hp. destruct Hp as [Hiu _].
      rewrite (basis_of_update uid inv) by (cbn [userId]; assumption).
      cbn [totalInvested]. unfold set_decimal.
      rewrite decimal2_round2_sum.
      rewrite Qplus_0_r. same_cents.
    + rewrite basis_of_app by reflexivity. cbn [totalInvested].
      unfold set_decimal, decimal2, round2. rewrite toFixed2_of_cents.
      rewrite Qplus_0_r. same_cents.
  - unfold sellInvestment.
    destruct (parseInt q) as [n|]; [|discriminate].
    destruct (Z.eqb_spec n 0); [discriminate|].
    destruct (Z.leb_spec n 0); [discriminate|]. cbn [orb].
    destruct (findOne _ _) as [inv|] eqn:Hf; [|discriminate].
    destruct (findOne_some _ _ _ Hf) as [Hin Hp].
    apply by_id_and_user_true in Hp. destruct Hp as [_ Hiu].
    destruct (Z.ltb_spec (quantity inv) n); [discriminate|].
    rewrite Hu.
    destruct (Z.eqb_spec n (quantity inv)) as [E|E];
      cbn [reply after success users investments data realised profitLoss];
      intros _; (eexists; split; [apply lookup_insert_eq|]);
      rewrite decimal2_round2_sum, round2_of_difference, of_cents_plus.
    + rewrite (basis_of_destroy uid inv _ Hd Hin Hiu).
      subst n. unfold get_decimal. rewrite whole_basis by lia. same_cents.
    + rewrite (basis_of_update uid inv) by (cbn [userId]; assumption).
      cbn [totalInvested]. unfold set_decimal.
      rewrite decimal2_round2_diff. same_cents.
Qed.

Lemma book_value_moves_by_profit_witness :
  exists c',
    users (after (handle oracle_down 1 (SellInvestment 1 (JNumber 4)) two_users))
      !! 1%nat = Some c' /\
    (of_cents (c' + cost_basis 1
                      (after (handle oracle_down 1 (SellInvestment 1 (JNumber 4))
                                two_users)))
     == of_cents (100000 + cost_basis 1 two_users)
        + realised (reply (handle oracle_down 1 (SellInvestment 1 (JNumber 4))
                             two_users)))%Q.
Proof.
  apply book_value_moves_by_profit.
  - reflexivity.
  - reflexivity.
  - right. exists 1%nat, (JNumber 4). reflexivity.
  - reflexivity.
Defined.

(** ** Buying and selling back *)

Lemma findOne_fresh_id uid rows n :
  ids_below n rows = true ->
  findOne (by_id_and_user n uid) rows = None.
Proof.
  intros H. unfold findOne.
  induction rows as [|a rows IH]; [reflexivity|].
  cbn [ids_below forallb] in H. apply andb_true_iff in H.
  destruct H as [Ha Hr]. apply Nat.ltb_lt in Ha.
  cbn [List.find]. unfold by_id_and_user at 1.
  destruct (Nat.eqb_spec (id a) n); [lia|]. cbn [andb]. apply IH, Hr.
Qed.

Lemma destroy_row_last rows row :
  ids_below (id row) rows = true ->
  destroy_row (id row) (rows ++ [row]) = rows.
Proof.
  intros H. unfold destroy_row. rewrite List.filter_app.
  cbn [List.filter]. rewrite Nat.eqb_refl. cbn [negb]. rewrite app_nil_r.
  induction rows as [|a rows IH]; [reflexivity|].
  cbn [ids_below forallb] in H. apply andb_true_iff in H.
  destruct H as [Ha Hr]. apply Nat.ltb_lt in Ha.
  cbn [List.filter].
  destruct (Nat.eqb_spec (id a) (id row)); [lia|]. cbn [negb].
  f_equal. apply IH, Hr.
Qed.

(** X12: buying [n] shares of a symbol the user holds none of, at a price of
    at most two fraction digits, and selling the [n] shares of the new
    position back at that price, restores every cash balance and the
    [investments] table, and leaves two more records in the log. *)
Theorem buy_then_sell_all_restores o uid s n stock pc cash d :
  0 < n < 10 ^ 21 ->
  o s = Some stock -> (price stock == of_cents pc)%Q -> 0 < pc ->
  users d !! uid = Some cash -> pc * n <= cash ->
  ids_below (next_id d) (investments d) = true ->
  findOne (by_user_and_symbol uid s) (investments d) = None ->
  let bought := buyInvestment o uid s (JNumber (inject_Z n)) d in
  let sold :=
    sellInvestment o uid (next_id d) (JNumber (inject_Z n)) (after bought) in
  success (reply bought) = true /\
  success (reply sold) = true /\
  users (after sold) = users d /\
  investments (after sold) = investments d /\
  length (transactions (after sold)) = (length (transactions d) + 2)%nat.
Proof.
  intros Hn Ho Hprice Hpc Hu Hle Hbelow Hnone bought sold.
  pose proof (two_digit_product _ _ n Hprice) as Hprod.
  assert (Hcost : toFixed2 (price stock * inject_Z n) = pc * n)
    by (apply toFixed2_eq, Hprod).
  assert (Hpos : (0 < price stock)%Q).
  { rewrite Hprice. unfold Qlt, of_cents. cbn [Qnum Qden]. lia. }
  assert (Hb : bought =
    mkOutcome (reply bought)
      (mkDb (<[uid := cash - pc * n]> (users d))
         (investments d ++
          [mkInvestment (next_id d) uid s
             (or_string (shortName stock) (Some (s ++ " Inc.")%string))
             n (toFixed2 (price stock)) (toFixed2 (price stock)) (pc * n)])
         (transactions d ++
          [mkTransaction uid s BUY (inject_Z n) (round2 (price stock))
             (round2 (price stock * inject_Z n))])
         (S (next_id d)))
      (trace bought) /\ success (reply bought) = true).
  { subst bought sold. unfold buyInvestment.
    rewrite parseInt_inject by lia.
    destruct (Z.leb_spec n 0); [lia|].
    rewrite Ho, (Qle_bool_false _ _ Hpos), Hu.
    assert (Hlt : Qltb (of_cents cash) (round2 (price stock * inject_Z n))
                  = false).
    { apply Qltb_ge. unfold round2. rewrite Hcost.
      apply (proj1 (of_cents_le _ _)), Hle. }
    rewrite Hlt, Hnone. cbn [reply after trace success].
    split; [|reflexivity]. f_equal. f_equal.
    - rewrite decimal2_round2_diff, Hcost. reflexivity.
    - f_equal. f_equal. unfold set_quantity, set_decimal, decimal2, round2.
      rewrite !toFixed2_of_cents, Hcost, parseInt_number_inject by lia.
      reflexivity. }
  destruct Hb as [Hb Hsb]. split; [exact Hsb|].
  subst sold. rewrite Hb. cbn [after]. unfold sellInvestment.
  rewrite parseInt_inject by lia.
  destruct (Z.eqb_spec n 0); [lia|].
  destruct (Z.leb_spec n 0); [lia|]. cbn [orb investments].
  rewrite findOne_app_none by (apply findOne_fresh_id, Hbelow).
  match goal with
  | |- context [by_id_and_user ?a ?b ?r] =>
    assert (Hm : by_id_and_user a b r = true)
      by (unfold by_id_and_user; cbn [id userId];
          rewrite !Nat.eqb_refl; reflexivity);
    rewrite Hm
  end.
  cbn [quantity symbol].
  destruct (Z.ltb_spec n n); [lia|].
  rewrite Ho. cbn [users]. rewrite lookup_insert_eq, Z.eqb_refl.
  cbn [reply after success users investments transactions id].
  split; [reflexivity|].
  split.
  { rewrite decimal2_round2_sum, insert_insert_eq.
    assert (Hsale : toFixed2 (round2 (price stock) * inject_Z n) = pc * n).
    { apply toFixed2_eq. unfold round2. rewrite (toFixed2_eq _ _ Hprice).
      unfold of_cents, inject_Z, Qeq, Qmult. cbn [Qnum Qden]. lia. }
    rewrite Hsale. replace (cash - pc * n + pc * n) with cash by lia.
    apply insert_id, Hu. }
  split.
  { apply (destroy_row_last (investments d)
             (mkInvestment (next_id d) uid s _ n _ _ _)), Hbelow. }
  rewrite !List.length_app. cbn [length]. lia.
Qed.

Lemma buy_then_sell_all_restores_witness :
  let bought := buyInvestment oracle_any 2 "MSFT" (JNumber (inject_Z 7)) two_users in
  let sold :=
    sellInvestment oracle_any 2 (next_id two_users) (JNumber (inject_Z 7))
      (after bought) in
  success (reply bought) = true /\
  success (reply sold) = true /\
  users (after sold) = users two_users /\
  investments (after sold) = investments two_users /\
  length (transactions (after sold)) = (length (transactions two_users) + 2)%nat.
Proof.
  apply (buy_then_sell_all_restores oracle_any 2 "MSFT" 7 (mkStock 150 None)
           15000 200000 two_users).
  - lia.
  - reflexivity.
  - reflexivity.
  - lia.
  - reflexivity.
  - lia.
  - reflexivity.
  - reflexivity.
Defined.

(** ** A sale of part of a position *)

Lemma findOne_update i uid f rows inv :
  distinct_ids rows = true ->
  findOne (by_id_and_user i uid) rows = Some inv ->
  keeps_identity f ->
  findOne (by_id_and_user i uid) (update_row (id inv) f rows) = Some (f inv).
Proof.
  intros Hd Hf Hkeep. unfold findOne in *.
  induction rows as [|a rows IH]; [discriminate|].
  cbn [distinct_ids] in Hd. apply andb_true_iff in Hd.
  destruct Hd as [Ha Hd]. apply negb_true_iff in Ha.
  cbn [List.find] in Hf. unfold update_row. cbn [List.map List.find].
  destruct (by_id_and_user i uid a) eqn:Hp.
  - injection Hf as <-. rewrite Nat.eqb_refl.
    unfold by_id_and_user in *. destruct (Hkeep a) as (-> & -> & _).
    rewrite Hp. reflexivity.
  - destruct (find_some _ _ Hf) as [Hin Hpi].
    pose proof (existsb_id_in _ _ _ Ha Hin) as Hne.
    destruct (Nat.eqb_spec (id a) (id inv)) as [E|_]; [congruence|].
    rewrite Hp. apply (IH Hd Hf).
Qed.

(** X13: a sale of fewer shares than a position holds keeps the row under
    its id: the quantity drops by the number sold, which is also the
    [remainingShares] of the response, and the cost basis stays between
    zero and what it was. *)
Theorem partial_sale_shrinks_position o uid i q n inv cash d :
  well_formed d = true ->
  parseInt q = Some n ->
  findOne (by_id_and_user i uid) (investments d) = Some inv ->
  0 < n < quantity inv -> quantity inv < 10 ^ 21 ->
  0 <= totalInvested inv ->
  users d !! uid = Some cash ->
  let out := sellInvestment o uid i q d in
  exists inv',
    findOne (by_id_and_user i uid) (investments (after out)) = Some inv' /\
    quantity inv' = quantity inv - n /\
    0 <= totalInvested inv' <= totalInvested inv /\
    exists sale balance,
      data (reply out) = SaleData sale balance (quantity inv') /\
      quantitySold sale = n.
Proof.
  intros Hwf Hq Hf Hn Hrange Hti Hu out.
  unfold well_formed in Hwf. apply andb_true_iff in Hwf.
  destruct Hwf as [_ Hd].
  subst out. unfold sellInvestment. rewrite Hq.
  destruct (Z.eqb_spec n 0); [lia|].
  destruct (Z.leb_spec n 0); [lia|]. cbn [orb].
  rewrite Hf.
  destruct (Z.ltb_spec (quantity inv) n); [lia|].
  rewrite Hu.
  destruct (Z.eqb_spec n (quantity inv)); [lia|].
  cbn [reply after data investments].
  eexists. split.
  { apply (findOne_update i uid _ _ inv Hd Hf). intros r. repeat split. }
  cbn [quantity totalInvested].
  assert (Hqty : set_quantity (inject_Z (quantity inv - n)) = quantity inv - n).
  { apply parseInt_number_inject. lia. }
  rewrite Hqty. split; [reflexivity|]. split.
  - unfold set_decimal. rewrite decimal2_round2_diff. unfold get_decimal.
    destruct (part_of_basis (totalInvested inv) (quantity inv) n Hti
                ltac:(lia)) as [Hlo Hhi].
    pose proof (toFixed2_le _ _ Hhi). pose proof (toFixed2_nonneg _ Hlo). lia.
  - eexists _, _. split; reflexivity.
Qed.

Lemma partial_sale_shrinks_position_witness :
  exists inv',
    findOne (by_id_and_user 1 1)
      (investments (after (sellInvestment oracle_aapl 1 1 (JNumber 4) two_users)))
    = Some inv' /\
    quantity inv' = quantity (apple_row 10) - 4 /\
    0 <= totalInvested inv' <= totalInvested (apple_row 10) /\
    exists sale balance,
      data (reply (sellInvestment oracle_aapl 1 1 (JNumber 4) two_users))
      = SaleData sale balance (quantity inv') /\
      quantitySold sale = 4.
Proof.
  apply (partial_sale_shrinks_position oracle_aapl 1 1 (JNumber 4) 4
           (apple_row 10) 100000 two_users).
  - reflexivity.
  - reflexivity.
  - reflexivity.
  - cbn. lia.
  - cbn. lia.
  - cbn. lia.
  - reflexivity.
Defined.

(** ** Positions of other users *)

Lemma findOne_foreign i uid rows r :
  distinct_ids rows = true -> In r rows -> id r = i -> userId r <> uid ->
  findOne (by_id_and_user i uid) rows = None.
Proof.
  intros Hd Hr Hi Hu. unfold findOne.
  destruct (List.find _ rows) as [x|] eqn:E; [|reflexivity].
  destruct (find_some _ _ E) as [Hx Hp].
  apply by_id_and_user_true in Hp. destruct Hp as [Hxi Hxu].
  assert (x = r) by (apply (distinct_ids_inj rows Hd); auto; congruence).
  congruence.
Qed.

(** X14: a position of another user is out of reach.  Under its id,
    [deleteInvestment] and [getInvestmentById] answer 404, [sellInvestment]
    fails (with 404 once the quantity is valid), and none of them changes
    the database. *)
Theorem foreign_position_is_out_of_reach o uid i q r d :
  well_formed d = true ->
  In r (investments d) -> id r = i -> userId r <> uid ->
  (reply (deleteInvestment uid i d) = failure 404 InvestmentNotFound /\
   after (deleteInvestment uid i d) = d) /\
  (reply (getInvestmentById o uid i d) = failure 404 InvestmentNotFound /\
   after (getInvestmentById o uid i d) = d) /\
  (success (reply (sellInvestment o uid i q d)) = false /\
   after (sellInvestment o uid i q d) = d /\
   ((exists n, parseInt q = Some n /\ 0 < n) ->
    reply (sellInvestment o uid i q d) = failure 404 InvestmentNotFound)).
Proof.
  intros Hwf Hr Hi Hu.
  unfold well_formed in Hwf. apply andb_true_iff in Hwf.
  destruct Hwf as [_ Hd].
  pose proof (findOne_foreign i uid _ r Hd Hr Hi Hu) as Hnone.
  unfold deleteInvestment, getInvestmentById, sellInvestment.
  rewrite Hnone. repeat split.
  - repeat case_match; reflexivity.
  - repeat case_match; reflexivity.
  - intros (n & -> & Hn).
    destruct (Z.eqb_spec n 0); [lia|].
    destruct (Z.leb_spec n 0); [lia|]. reflexivity.
Qed.

Lemma foreign_position_is_out_of_reach_witness :
  (reply (deleteInvestment 1 2 two_users) = failure 404 InvestmentNotFound /\
   after (deleteInvestment 1 2 two_users) = two_users) /\
  (reply (getInvestmentById oracle_aapl 1 2 two_users)
   = failure 404 InvestmentNotFound /\
   after (getInvestmentById oracle_aapl 1 2 two_users) = two_users) /\
  (success (reply (sellInvestment oracle_aapl 1 2 (JNumber 1) two_users)) = false /\
   after (sellInvestment oracle_aapl 1 2 (JNumber 1) two_users) = two_users /\
   ((exists n, parseInt (JNumber 1) = Some n /\ 0 < n) ->
    reply (sellInvestment oracle_aapl 1 2 (JNumber 1) two_users)
    = failure 404 InvestmentNotFound)).
Proof.
  apply (foreign_position_is_out_of_reach oracle_aapl 1 2 (JNumber 1)
           (mkInvestment 2 2 AAPL (Some "Apple Inc."%string) 4 15000 15000 60000)
           two_users).
  - reflexivity.
  - right. left. reflexivity.
  - reflexivity.
  - cbn. lia.
Defined.

(** ** Pages of the transaction history *)

Lemma in_firstn {A : Type} (n : nat) (l : list A) x :
  In x (firstn n l) -> In x l.
Proof.
  revert l. induction n as [|n IH]; intros l H; [destruct H|].
  destruct l as [|a l]; [destruct H|].
  destruct H as [->|H]; [left; reflexivity|right; apply IH, H].
Qed.

Lemma in_skipn {A : Type} (n : nat) (l : list A) x :
  In x (skipn n l) -> In x l.
Proof.
  revert l. induction n as [|n IH]; intros l H; [exact H|].
  destruct l as [|a l]; [destruct H|]. right. apply IH, H.
Qed.

Lemma side_eqb_eq a b : side_eqb a b = true -> a = b.
Proof. destruct a, b; cbn; congruence. Qed.

(** X16: a page of the history holds at most [limit] records, all of them
    written for the requesting user and of the requested type, and the
    total count does not depend on the page asked for. *)
Theorem history_shows_own_records uid limit offset type d :
  let r := reply (getTransactionHistory uid limit offset type d) in
  Forall (in_history uid type) (history_page r) /\
  (length (history_page r) <= limit)%nat /\
  history_count r
  = history_count (reply (getTransactionHistory uid 0 0 type d)).
Proof.
  unfold getTransactionHistory. cbn [reply data history_page history_count].
  split; [|split; [|reflexivity]].
  - apply Forall_forall. intros t Ht. apply list_elem_of_In in Ht.
    apply in_firstn, in_skipn, in_rev, filter_In in Ht.
    + destruct Ht as [_ Hw].
      apply andb_true_iff in Hw. destruct Hw as [Hu Hk].
      split; [apply Nat.eqb_eq, Hu|].
      destruct type as [k|]; [apply side_eqb_eq, Hk|exact I].
  - apply List.firstn_le_length.
Qed.

Lemma skipn_nil_iff {A : Type} (n : nat) (l : list A) :
  skipn n l = [] <-> (length l <= n)%nat.
Proof.
  revert l. induction n as [|n IH]; intros l.
  - destruct l; cbn; split; intros H; try reflexivity; try discriminate; lia.
  - destruct l as [|a l]; cbn [skipn length]; [split; [lia|reflexivity]|].
    rewrite IH. lia.
Qed.

(** X17: [hasMore] is true exactly when the page that starts right after
    the one shown holds a record. *)
Theorem history_more_iff_next_page uid limit offset type d :
  history_more (reply (getTransactionHistory uid limit offset type d)) = true
  <-> history_page
        (reply (getTransactionHistory uid 1 (offset + limit) type d)) <> [].
Proof.
  unfold getTransactionHistory. cbn [reply data history_page history_more].
  set (found := List.filter _ (transactions d)).
  rewrite Nat.ltb_lt, <- (List.length_rev found).
  destruct (skipn (offset + limit) (rev found)) as [|x rest] eqn:E.
  - apply skipn_nil_iff in E. cbn. split; [lia|congruence].
  - assert (~ (length (rev found) <= offset + limit)%nat) as Hn.
    { intros H. apply skipn_nil_iff in H. congruence. }
    cbn. split; [discriminate|lia].
Qed.

Lemma trade_appends o uid t d :
  success (reply (run_trade o uid t d)) = true ->
  exists record,
    transactions (after (run_trade o uid t d)) = transactions d ++ [record] /\
    tx_userId record = uid.
Proof.
  destruct t as [[|] s q|i q]; cbn [run_trade buy].
  - unfold createInvestment.
    repeat case_match; cbn [reply success after transactions];
      try discriminate; intros _; eexists; split; reflexivity.
  - unfold buyInvestment.
    repeat case_match; cbn [reply success after transactions];
      try discriminate; intros _; eexists; split; reflexivity.
  - unfold sellInvestment.
    repeat case_match; cbn [reply success after transactions];
      try discriminate; intros _; eexists; split; reflexivity.
Qed.

Lemma filter_last {A : Type} (p : A -> bool) l x :
  p x = true -> List.filter p (l ++ [x]) = List.filter p l ++ [x].
Proof.
  intros H. rewrite List.filter_app. cbn [List.filter]. rewrite H. reflexivity.
Qed.

(** X18: a purchase or a sale that succeeds shows in the user's history.
    The unfiltered count grows by one, and the record of the trade is on
    every first page long enough to hold the whole history. *)
Theorem trade_shows_in_history o uid t d :
  success (reply (run_trade o uid t d)) = true ->
  let d' := after (run_trade o uid t d) in
  let count := history_count (reply (getTransactionHistory uid 0 0 None d)) in
  exists record,
    transactions d' = transactions d ++ [record] /\
    history_count (reply (getTransactionHistory uid 0 0 None d')) = S count /\
    forall limit,
      (count < limit)%nat ->
      In record
        (history_page (reply (getTransactionHistory uid limit 0 None d'))).
Proof.
  intros Hs. destruct (trade_appends o uid t d Hs) as (record & E & Hu).
  exists record. split; [exact E|].
  unfold getTransactionHistory.
  cbn [reply data history_page history_count skipn].
  rewrite E, filter_last by (rewrite Hu, Nat.eqb_refl; reflexivity).
  split; [rewrite List.length_app; cbn [length]; lia|].
  intros limit Hlimit. rewrite List.rev_app_distr. cbn [rev app].
  destruct limit as [|limit]; [lia|]. left. reflexivity.
Qed.

Lemma trade_shows_in_history_witness :
  let d' := after (run_trade oracle_aapl 2 (TSell 2 (JNumber 1)) two_users) in
  exists record,
    transactions d' = transactions two_users ++ [record] /\
    history_count (reply (getTransactionHistory 2 0 0 None d'))
    = S (history_count (reply (getTransactionHistory 2 0 0 None two_users))) /\
    forall limit,
      (history_count (reply (getTransactionHistory 2 0 0 None two_users))
       < limit)%nat ->
      In record
        (history_page (reply (getTransactionHistory 2 limit 0 None d'))).
Proof.
  apply trade_shows_in_history. reflexivity.
Defined.

(** ** Reading the positions *)

(** X19: [getAllInvestments] changes the database the same way whether it
    runs once or twice under the same oracle, and it touches neither a
    cash balance nor the log nor the next id. *)
Theorem refresh_is_idempotent o uid d :
  let once := after (getAllInvestments o uid d) in
  after (getAllInvestments o uid once) = once /\
  users once = users d /\
  transactions once = transactions d /\
  next_id once = next_id d.
Proof.
  cbn [getAllInvestments after users transactions next_id investments].
  repeat split. f_equal. rewrite List.map_map.
  apply List.map_ext. intros r.
  destruct (Nat.eqb (userId r) uid) eqn:E; [|rewrite E; reflexivity].
  cbn [refresh fst userId symbol purchasePrice]. rewrite E. reflexivity.
Qed.

(** ** Deposits *)

(** X20: [addCash] of a positive amount of at most two fraction digits adds
    exactly that amount to the balance of an existing account, outside any
    transaction, and writes neither a position nor a log record. *)
Theorem addCash_credits_the_amount uid amount a c d :
  users d !! uid = Some c ->
  (amount == of_cents a)%Q -> 0 < a ->
  let out := addCash uid (JNumber amount) d in
  success (reply out) = true /\
  users (after out) !! uid = Some (c + a) /\
  reported_cash (reply out) = Some (of_cents (c + a)) /\
  investments (after out) = investments d /\
  transactions (after out) = transactions d /\
  trace out = [UserFind uid false; UserUpdate uid].
Proof.
  intros Hu Ha Hpos. cbv zeta. unfold addCash.
  assert (Hgt : (0 < amount)%Q).
  { rewrite Ha. unfold Qlt, of_cents. cbn [Qnum Qden]. lia. }
  rewrite (Qeq_bool_false_pos _ Hgt), (Qle_bool_false _ _ Hgt), Hu.
  cbn [orb reply after success users investments transactions trace data
       reported_cash].
  assert (E : toFixed2 (of_cents c + amount) = c + a).
  { apply toFixed2_eq. rewrite Ha. apply of_cents_plus. }
  unfold decimal2, round2. rewrite lookup_insert_eq, E. repeat split.
Qed.

Lemma addCash_credits_the_amount_witness :
  let out := addCash 1 (JNumber (25 # 2)) two_users in
  success (reply out) = true /\
  users (after out) !! 1%nat = Some (100000 + 1250) /\
  reported_cash (reply out) = Some (of_cents (100000 + 1250)) /\
  investments (after out) = investments two_users /\
  transactions (after out) = transactions two_users /\
  trace out = [UserFind 1 false; UserUpdate 1].
Proof.
  apply (addCash_credits_the_amount 1 (25 # 2) 1250 100000 two_users).
  - reflexivity.
  - reflexivity.
  - lia.
Defined.

(** ** The accessors of the [Investment] model *)

(** X21: a decimal column round-trips through its accessors.  Writing back
    what the getter returned stores the same value; reading back what the
    setter stored gives the written Number to within half a hundredth; and
    the quantity setter keeps a whole number of the column's range. *)
Theorem decimal_columns_round_trip :
  (forall c, set_decimal (get_decimal c) = c) /\
  (forall x, (Qabs (get_decimal (set_decimal x) - x) <= 1 # 200)%Q) /\
  (forall x, set_decimal (get_decimal (set_decimal x)) = set_decimal x) /\
  (forall z, Z.abs z <= 2147483647 -> set_quantity (inject_Z z) = z).
Proof.
  unfold set_decimal, get_decimal, decimal2, set_quantity.
  repeat split.
  - apply toFixed2_of_cents.
  - intros x. apply of_cents_close.
  - intros x. apply toFixed2_of_cents.
  - intros z Hz. apply parseInt_number_inject. lia.
Qed.

(** ** Instances of earlier lemmas *)

Lemma sell_everything_deletes_witness :
  let r := sellInvestment oracle_aapl 1 1 (JNumber 10) two_users in
  success (reply r) = true /\
  (exists sale balance, data (reply r) = SaleData sale balance 0) /\
  investments (after r) = destroy_row (id (apple_row 10)) (investments two_users) /\
  ~ In (id (apple_row 10)) (List.map id (investments (after r))).
Proof.
  apply (sell_everything_deletes oracle_aapl 1 1 (JNumber 10) (apple_row 10)
           100000 two_users).
  - reflexivity.
  - cbn. lia.
  - reflexivity.
  - reflexivity.
Defined.

Lemma quantities_stay_positive_witness :
  Forall (fun r => 0 < quantity r)
    (investments
       (after (handle oracle_aapl 1 (BuyInvestment AAPL (JNumber 2)) two_users))).
Proof.
  apply quantities_stay_positive.
  - discriminate.
  - repeat constructor.
Defined.

Lemma createInvestment_rejects_before_io_witness :
  let r := createInvestment oracle_aapl 1 AAPL (JNumber (-3)) two_users in
  reply r = failure 400 SymbolAndQuantityRequired /\
  after r = two_users /\
  List.filter is_io (trace r) = [].
Proof.
  apply createInvestment_rejects_before_io.
  right. right. exists (-3)%Q. split; [reflexivity|discriminate].
Defined.

Lemma buyInvestment_rejects_before_io_witness :
  let r := buyInvestment oracle_aapl 1 AAPL JUndefined two_users in
  reply r = failure 400 ValidNumericQuantityRequired /\
  after r = two_users /\
  List.filter is_io (trace r) = [].
Proof.
  apply buyInvestment_rejects_before_io. left. reflexivity.
Defined.

Lemma createInvestment_insufficient_funds_witness :
  let r := createInvestment oracle_aapl 1 AAPL (JNumber (inject_Z 7)) two_users in
  reply r = failure 400 (InsufficientFundsNeedHave (15000 * 7) 100000) /\
  after r = two_users /\
  trace r = [Begin; GetStockPrice (toUpperCase AAPL); UserFind 1 false; Rollback].
Proof.
  apply (createInvestment_insufficient_funds oracle_aapl 1 AAPL 7
           (mkStock 150 (Some "Apple Inc."%string)) 15000 100000 two_users).
  - discriminate.
  - lia.
  - reflexivity.
  - reflexivity.
  - reflexivity.
  - lia.
Defined.

End CoverFacts.

(** * The exact amounts and the binary64 amounts *)

Module Binary64Facts.

Import Num Js Ledger NumFacts Binary64.

(** The rounding on a few decimals, as the engine stores them. *)
Example fl_samples :
  (fl (1 # 10) == 3602879701896397 # 36028797018963968)%Q /\
  (fl (2001 # 200) == 5632314283980227 # 562949953421312)%Q /\
  (fl (1 # 3) == 6004799503160661 # 18014398509481984)%Q /\
  (fl (inject_Z (10 ^ 30 + 1)) == inject_Z 1000000000000000019884624838656)%Q /\
  (fl (3 # 4) == 3 # 4)%Q /\
  (fl (- (7 # 2)) == - (7 # 2))%Q.
Proof. repeat split; vm_compute; reflexivity. Qed.

Lemma round_half_even_close p q :
  0 <= p -> 0 < q ->
  - q <= 2 * (round_half_even p q * q - p) <= q.
Proof.
  intros Hp Hq. unfold round_half_even.
  pose proof (Z.div_mod p q ltac:(lia)) as E.
  pose proof (Z.mod_pos_bound p q Hq) as B.
  set (f := p / q) in *. set (r := p mod q) in *.
  destruct (Z.ltb_spec (2 * r) q); [nia|].
  destruct (Z.ltb_spec q (2 * r)); [nia|].
  destruct (Z.even f); nia.
Qed.

Lemma pow2_pos z : 0 < 2 ^ z \/ 2 ^ z = 0.
Proof.
  destruct (Z.le_gt_cases 0 z) as [H|H].
  - left. apply Z.pow_pos_nonneg; lia.
  - right. apply Z.pow_neg_r, H.
Qed.

(** The exponent found is not above the one of [a / d]. *)
Lemma exponent_le a d :
  0 < a -> 0 < d -> pow2_le (exponent a d) a d = true.
Proof.
  intros Ha Hd. unfold exponent.
  destruct (pow2_le (Z.log2 a - Z.log2 d) a d) eqn:E; [exact E|].
  pose proof (Z.log2_spec a Ha) as [La Ua].
  pose proof (Z.log2_spec d Hd) as [Ld Ud].
  pose proof (Z.log2_nonneg a) as Na. pose proof (Z.log2_nonneg d) as Nd.
  set (la := Z.log2 a) in *. set (ld := Z.log2 d) in *.
  unfold pow2_le.
  destruct (Z.leb_spec 0 (la - ld - 1)) as [H|H].
  - apply Z.leb_le.
    assert (E2 : 2 ^ la = 2 ^ (ld + 1) * 2 ^ (la - ld - 1)).
    { rewrite <- Z.pow_add_r by lia. f_equal. lia. }
    assert (0 < 2 ^ (la - ld - 1)) by (apply Z.pow_pos_nonneg; lia).
    replace (Z.succ ld) with (ld + 1) in Ud by lia. nia.
  - apply Z.leb_le.
    replace (- (la - ld - 1)) with (ld + 1 - la) by lia.
    assert (E2 : 2 ^ (ld + 1) = 2 ^ la * 2 ^ (ld + 1 - la)).
    { rewrite <- Z.pow_add_r by lia. f_equal. lia. }
    assert (0 < 2 ^ (ld + 1 - la)) by (apply Z.pow_pos_nonneg; lia).
    replace (Z.succ ld) with (ld + 1) in Ud by lia. nia.
Qed.

Lemma mantissa_close a d :
  0 < a -> 0 < d ->
  let e := exponent a d - 52 in
  (0 <= e ->
   Z.abs (round_half_even a (d * 2 ^ e) * 2 ^ e * d - a) * 2 ^ 53 <= a) /\
  (e < 0 ->
   0 < 2 ^ (- e) /\
   Z.abs (round_half_even (a * 2 ^ (- e)) d * d - a * 2 ^ (- e)) * 2 ^ 53
   <= a * 2 ^ (- e)).
Proof.
  intros Ha Hd e.
  pose proof (exponent_le a d Ha Hd) as HL. unfold pow2_le in HL.
  set (L := exponent a d) in *.
  split.
  - intros He.
    destruct (Z.leb_spec 0 L); [|lia]. apply Z.leb_le in HL.
    assert (E2 : 2 ^ L = 2 ^ e * 2 ^ 52).
    { rewrite <- Z.pow_add_r by lia. f_equal. lia. }
    assert (Hpe : 0 < 2 ^ e) by (apply Z.pow_pos_nonneg; lia).
    pose proof (round_half_even_close a (d * 2 ^ e) ltac:(lia) ltac:(nia)) as R.
    set (m := round_half_even a (d * 2 ^ e)) in *.
    change (2 ^ 53) with (2 * 2 ^ 52). change (2 ^ 52) with 4503599627370496 in *.
    nia.
  - intros He.
    assert (Hpk : 0 < 2 ^ (- e)) by (apply Z.pow_pos_nonneg; lia).
    split; [exact Hpk|].
    pose proof (round_half_even_close (a * 2 ^ (- e)) d ltac:(nia) Hd) as R.
    set (m := round_half_even (a * 2 ^ (- e)) d) in *.
    assert (Hbig : d * 2 ^ 52 <= a * 2 ^ (- e)).
    { destruct (Z.leb_spec 0 L) as [HL0|HL0]; apply Z.leb_le in HL.
      - assert (E2 : 2 ^ 52 = 2 ^ L * 2 ^ (- e)).
        { rewrite <- Z.pow_add_r by lia. f_equal. lia. }
        assert (0 < 2 ^ L) by (apply Z.pow_pos_nonneg; lia).
        rewrite E2. nia.
      - assert (E2 : 2 ^ (- e) = 2 ^ (- L) * 2 ^ 52).
        { rewrite <- Z.pow_add_r by lia. f_equal. lia. }
        rewrite E2. nia. }
    change (2 ^ 53) with (2 * 2 ^ 52). change (2 ^ 52) with 4503599627370496 in *.
    nia.
Qed.

(** One rounding moves a Number by at most [eps] of its size. *)
Lemma fl_close x : (Qabs (fl x - x) <= Qabs x * eps)%Q.
Proof.
  destruct x as [n dp]. unfold fl. cbn [Qnum Qden].
  destruct (Z.eqb_spec n 0) as [->|Hn].
  { unfold Qle, Qabs, Qminus, Qplus, Qopp, Qmult, eps. cbn [Qnum Qden]. lia. }
  assert (Ha : 0 < Z.abs n) by lia.
  destruct (mantissa_close (Z.abs n) (Zpos dp) Ha ltac:(lia)) as [Hge Hlt].
  set (e := exponent (Z.abs n) (Z.pos dp) - 52) in *.
  destruct (Z.leb_spec 0 e) as [He|He].
  - specialize (Hge He).
    set (m := round_half_even (Z.abs n) (Z.pos dp * 2 ^ e)) in *.
    set (P := 2 ^ e) in *.
    destruct (Z.ltb_spec 0 n);
      unfold Qle, Qabs, Qminus, Qplus, Qopp, Qmult, eps, inject_Z;
      cbn [Qnum Qden]; change (2 ^ 53) with 9007199254740992 in Hge; nia.
  - destruct (Hlt He) as [Hpk Hclose]. clear Hge Hlt.
    set (m := round_half_even (Z.abs n * 2 ^ (- e)) (Z.pos dp)) in *.
    set (P := 2 ^ (- e)) in *.
    assert (EP : Z.pos (Z.to_pos P) = P) by (apply Z2Pos.id; exact Hpk).
    destruct (Z.ltb_spec 0 n);
      unfold Qle, Qabs, Qminus, Qplus, Qopp, Qmult, eps;
      cbn [Qnum Qden]; rewrite ?Pos2Z.inj_mul, ?EP;
      change (2 ^ 53) with 9007199254740992 in Hclose; nia.
Qed.

Lemma fl_bounds x :
  (0 <= x)%Q -> (x * (1 - eps) <= fl x <= x * (1 + eps))%Q.
Proof.
  intros Hx. pose proof (fl_close x) as H.
  rewrite (Qabs_pos x Hx) in H.
  apply Qabs_Qle_condition in H. destruct H. split; lra.
Qed.

(** [toFixed(2)] of a Number less than half a hundredth from whole
    hundredths gives them. *)
Lemma toFixed2_near x c :
  (Qabs (x - of_cents c) < 1 # 200)%Q -> toFixed2 x = c.
Proof.
  intros H.
  assert (Hlo : (of_cents c - (1 # 200) < x)%Q /\ (x < of_cents c + (1 # 200))%Q).
  { destruct (Qabs_Qlt_condition (x - of_cents c) (1 # 200)) as [Hc _].
    specialize (Hc H). destruct Hc. split; lra. }
  destruct Hlo as [Hlo Hhi].
  destruct x as [n dp]. unfold toFixed2, round_half_away, Qmult. cbn [Qnum Qden].
  unfold Qlt, Qminus, Qplus, Qopp, of_cents in Hlo, Hhi. cbn [Qnum Qden] in Hlo, Hhi.
  rewrite Pos2Z.inj_mul.
  destruct (Z.leb_spec 0 (n * 100)).
  - symmetry. apply (Z.div_unique _ _ c (2 * (n * 100) + Z.pos dp * 1 - 2 * (Z.pos dp * 1) * c)); lia.
  - assert (E : (2 * - (n * 100) + Z.pos dp * 1) / (2 * (Z.pos dp * 1)) = - c).
    { symmetry. apply (Z.div_unique _ _ (- c) (2 * - (n * 100) + Z.pos dp * 1 - 2 * (Z.pos dp * 1) * (- c))); lia. }
    rewrite E. lia.
Qed.

Lemma of_cents_bound c b : 0 <= c < b -> (0 <= of_cents c)%Q /\ (of_cents c < of_cents b)%Q.
Proof. intros H. unfold Qle, Qlt, of_cents. cbn [Qnum Qden]. lia. Qed.

Lemma eps_small : (eps <= 1 # 9000000000000000)%Q.
Proof. unfold eps, Qle. cbn [Qnum Qden]. lia. Qed.

Lemma eps_pos : (0 < eps)%Q.
Proof. reflexivity. Qed.

(** The binary64 product of a price of whole hundredths and a whole
    quantity is within a ten-thousandth of the exact product. *)
Lemma product_close pc n :
  0 < pc -> 0 < n -> pc * n < 10 ^ 12 ->
  (Qabs (mul64 (fl (of_cents pc)) (inject_Z n) - of_cents (pc * n)) <= 1 # 10000)%Q.
Proof.
  intros Hpc Hn Hb. unfold mul64.
  pose proof (two_digit_product (of_cents pc) pc n ltac:(reflexivity)) as EC.
  assert (HC0 : (0 <= of_cents (pc * n))%Q)
    by (unfold Qle, of_cents; cbn [Qnum Qden]; nia).
  assert (HC1 : (of_cents (pc * n) < 10000000000)%Q)
    by (unfold Qlt, of_cents; cbn [Qnum Qden]; lia).
  assert (Hp : (0 <= of_cents pc)%Q) by (unfold Qle, of_cents; cbn [Qnum Qden]; lia).
  pose proof (fl_bounds _ Hp) as [L1 U1].
  assert (HN : (1 <= inject_Z n)%Q) by (unfold Qle, inject_Z; cbn [Qnum Qden]; lia).
  pose proof eps_small as He. pose proof eps_pos as He0.
  set (p := of_cents pc) in *. set (N := inject_Z n) in *.
  set (x1 := fl p) in *. set (C := of_cents (pc * n)) in *.
  assert (Hy : (C * (1 - eps) <= x1 * N)%Q /\ (x1 * N <= C * (1 + eps))%Q).
  { rewrite <- EC. split; nra. }
  destruct Hy as [Ly Uy].
  assert (Hy0 : (0 <= x1 * N)%Q) by nra.
  pose proof (fl_bounds _ Hy0) as [L2 U2].
  set (y := (x1 * N)%Q) in *. set (x2 := fl y) in *.
  apply Qabs_Qle_condition. split; nra.
Qed.

(** A Number that stands for whole hundredths is within a ten-thousandth
    of them, up to 10^13 hundredths. *)
Lemma cents_close c :
  0 <= c < 10 ^ 13 -> (Qabs (fl (of_cents c) - of_cents c) <= 1 # 10000)%Q.
Proof.
  intros Hc.
  assert (H0 : (0 <= of_cents c)%Q) by (unfold Qle, of_cents; cbn [Qnum Qden]; lia).
  assert (H1 : (of_cents c < 100000000000)%Q)
    by (unfold Qlt, of_cents; cbn [Qnum Qden]; lia).
  pose proof (fl_bounds _ H0) as [L U].
  pose proof eps_small. pose proof eps_pos.
  set (x := of_cents c) in *. set (y := fl x) in *.
  apply Qabs_Qle_condition. split; nra.
Qed.

Lemma of_cents_step a b : a < b -> (of_cents a + (1 # 100) <= of_cents b)%Q.
Proof. intros H. unfold Qle, Qplus, of_cents. cbn [Qnum Qden]. lia. Qed.

Lemma toFixed2_fl_cents c : 0 <= c < 10 ^ 13 -> toFixed2 (fl (of_cents c)) = c.
Proof.
  intros Hc. apply toFixed2_near.
  eapply Qle_lt_trans; [apply cents_close, Hc|reflexivity].
Qed.

Lemma totalCost64_cents pc n :
  0 < pc -> 0 < n -> pc * n < 10 ^ 12 ->
  totalCost64 (fl (of_cents pc)) n = fl (of_cents (pc * n)).
Proof.
  intros Hpc Hn Hb. unfold totalCost64, parseFloat_toFixed2. do 2 f_equal.
  apply toFixed2_near.
  eapply Qle_lt_trans; [apply product_close; assumption|reflexivity].
Qed.

Lemma cents_order a b :
  0 <= a < 10 ^ 13 -> 0 <= b < 10 ^ 13 ->
  Qltb (fl (of_cents a)) (fl (of_cents b)) = Qltb (of_cents a) (of_cents b).
Proof.
  intros Ha Hb.
  pose proof (cents_close a Ha) as Ca. pose proof (cents_close b Hb) as Cb.
  apply Qabs_Qle_condition in Ca. apply Qabs_Qle_condition in Cb.
  destruct Ca as [Ca1 Ca2], Cb as [Cb1 Cb2].
  destruct (Z.lt_trichotomy a b) as [H|[->|H]].
  - pose proof (of_cents_step a b H).
    transitivity true; [apply Qltb_lt; lra|symmetry; apply Qltb_lt; lra].
  - transitivity false; [apply Qltb_ge; lra|symmetry; apply Qltb_ge; lra].
  - pose proof (of_cents_step b a H).
    transitivity false; [apply Qltb_ge; lra|symmetry; apply Qltb_ge; lra].
Qed.

Lemma newCashBalance64_cents cash t :
  0 <= t <= cash -> cash < 10 ^ 13 ->
  toFixed2 (newCashBalance64 cash (fl (of_cents t))) = cash - t.
Proof.
  intros Ht Hc. unfold newCashBalance64, parseFloat_toFixed2, sub64.
  assert (E : toFixed2 (fl (fl (of_cents cash) - fl (of_cents t))) = cash - t).
  { apply toFixed2_near.
    pose proof (cents_close cash ltac:(lia)) as Cc.
    pose proof (cents_close t ltac:(lia)) as Ct.
    apply Qabs_Qle_condition in Cc. apply Qabs_Qle_condition in Ct.
    destruct Cc as [Cc1 Cc2], Ct as [Ct1 Ct2].
    pose proof (fl_close (fl (of_cents cash) - fl (of_cents t))) as Hz.
    pose proof (of_cents_minus cash t) as Em.
    assert (H0 : (0 <= of_cents (cash - t))%Q)
      by (unfold Qle, of_cents; cbn [Qnum Qden]; lia).
    assert (H1 : (of_cents (cash - t) < 100000000000)%Q)
      by (unfold Qlt, of_cents; cbn [Qnum Qden]; lia).
    set (z := (fl (of_cents cash) - fl (of_cents t))%Q) in *.
    assert (Hzb : (Qabs z <= 100000000001)%Q).
    { apply Qabs_Qle_condition. subst z. split; lra. }
    pose proof eps_small as He. pose proof eps_pos as He0.
    assert (Hze : (Qabs z * eps <= 1 # 10000)%Q).
    { pose proof (Qabs_nonneg z) as Hw. set (w := Qabs z) in *. nra. }
    apply Qabs_Qle_condition in Hz. destruct Hz as [Hz1 Hz2].
    apply Qabs_Qlt_condition. subst z. split; lra. }
  rewrite E. apply toFixed2_fl_cents. lia.
Qed.

Lemma creditedBalance64_cents cash t :
  0 <= t -> 0 <= cash -> cash + t < 10 ^ 13 ->
  toFixed2 (creditedBalance64 cash (fl (of_cents t))) = cash + t.
Proof.
  intros Ht Hc Hb. unfold creditedBalance64, parseFloat_toFixed2, add64.
  assert (E : toFixed2 (fl (fl (of_cents cash) + fl (of_cents t))) = cash + t).
  { apply toFixed2_near.
    pose proof (cents_close cash ltac:(lia)) as Cc.
    pose proof (cents_close t ltac:(lia)) as Ct.
    apply Qabs_Qle_condition in Cc. apply Qabs_Qle_condition in Ct.
    destruct Cc as [Cc1 Cc2], Ct as [Ct1 Ct2].
    pose proof (fl_close (fl (of_cents cash) + fl (of_cents t))) as Hz.
    pose proof (of_cents_plus cash t) as Em.
    assert (H0 : (0 <= of_cents (cash + t))%Q)
      by (unfold Qle, of_cents; cbn [Qnum Qden]; lia).
    assert (H1 : (of_cents (cash + t) < 100000000000)%Q)
      by (unfold Qlt, of_cents; cbn [Qnum Qden]; lia).
    set (z := (fl (of_cents cash) + fl (of_cents t))%Q) in *.
    assert (Hzb : (Qabs z <= 100000000001)%Q).
    { apply Qabs_Qle_condition. subst z. split; lra. }
    pose proof eps_small as He. pose proof eps_pos as He0.
    assert (Hze : (Qabs z * eps <= 1 # 10000)%Q).
    { pose proof (Qabs_nonneg z) as Hw. set (w := Qabs z) in *. nra. }
    apply Qabs_Qle_condition in Hz. destruct Hz as [Hz1 Hz2].
    apply Qabs_Qlt_condition. subst z. split; lra. }
  rewrite E. apply toFixed2_fl_cents. lia.
Qed.

(** X15: in binary64, for a price of whole hundredths and a whole quantity
    with a cost below 10^10 and balances below 10^11, the total cost of a
    purchase (the value of a sale), the test for lack of funds and the
    balance after the debit or the credit are, to the hundredth, the
    amounts of the exact arithmetic used in [buyInvestment] and
    [sellInvestment] above.  For a finer price they can differ: 13 shares
    at 10.005 cost 130.06 in binary64 and 130.07 exactly. *)
Theorem trade_amounts_in_binary64 :
  (forall pc n cash,
      0 < pc -> 0 < n -> pc * n < 10 ^ 12 ->
      0 <= cash -> cash + pc * n < 10 ^ 13 ->
      let exact := round2 (of_cents pc * inject_Z n) in
      let cost := totalCost64 (fl (of_cents pc)) n in
      toFixed2 cost = toFixed2 exact /\
      lacks_funds64 cash cost = Qltb (of_cents cash) exact /\
      (pc * n <= cash ->
       toFixed2 (newCashBalance64 cash cost)
       = decimal2 (round2 (of_cents cash - exact))) /\
      toFixed2 (creditedBalance64 cash cost)
      = decimal2 (round2 (of_cents cash + exact))) /\
  (toFixed2 (totalCost64 (fl (2001 # 200)) 13) = 13006 /\
   toFixed2 (round2 ((2001 # 200) * inject_Z 13)) = 13007).
Proof.
  split; [|vm_compute; split; reflexivity].
  intros pc n cash Hpc Hn Hb Hc Hsum exact cost.
  assert (Ecost : cost = fl (of_cents (pc * n)))
    by (apply totalCost64_cents; assumption).
  assert (Eexact : exact = of_cents (pc * n))
    by (apply round2_cents_product).
  rewrite Ecost, Eexact.
  split; [|split; [|split]].
  - rewrite toFixed2_fl_cents by nia. symmetry. apply toFixed2_of_cents.
  - unfold lacks_funds64. apply cents_order; nia.
  - intros Hle. rewrite newCashBalance64_cents by nia.
    rewrite round2_cents_minus. unfold decimal2. symmetry. apply toFixed2_of_cents.
  - rewrite creditedBalance64_cents by nia.
    rewrite round2_cents_plus. unfold decimal2. symmetry. apply toFixed2_of_cents.
Qed.

Lemma trade_amounts_in_binary64_witness :
  let exact := round2 (of_cents 15000 * inject_Z 10) in
  let cost := totalCost64 (fl (of_cents 15000)) 10 in
  toFixed2 cost = toFixed2 exact /\
  lacks_funds64 500000 cost = Qltb (of_cents 500000) exact /\
  (15000 * 10 <= 500000 ->
   toFixed2 (newCashBalance64 500000 cost)
   = decimal2 (round2 (of_cents 500000 - exact))) /\
  toFixed2 (creditedBalance64 500000 cost)
  = decimal2 (round2 (of_cents 500000 + exact)).
Proof.
  apply (proj1 trade_amounts_in_binary64 15000 10 500000); lia.
Defined.

(** X27: [createInvestment] compares the balance with the unrounded
    binary64 product.  For a price of whole hundredths and a whole
    quantity (cost below 10^10, balance below 10^11) the comparison is
    that of exact arithmetic whenever the cost differs from the balance.
    At a cost equal to the balance it can go the other way: 3 shares at
    100.01 against a balance of 300.03 exceed it in binary64. *)
Theorem unrounded_cost_in_binary64 :
  (forall pc n cash,
      0 < pc -> 0 < n -> pc * n < 10 ^ 12 -> 0 <= cash < 10 ^ 13 ->
      pc * n <> cash ->
      Qltb (fl (of_cents cash)) (unrounded_cost64 (fl (of_cents pc)) n)
      = Qltb (of_cents cash) (of_cents pc * inject_Z n)) /\
  (Qltb (fl (of_cents 30003)) (unrounded_cost64 (fl (of_cents 10001)) 3) = true /\
   Qltb (of_cents 30003) (of_cents 10001 * inject_Z 3) = false).
Proof.
  split; [|vm_compute; split; reflexivity].
  intros pc n cash Hpc Hn Hb Hc Hne.
  pose proof (product_close pc n Hpc Hn Hb) as Cp.
  pose proof (cents_close cash Hc) as Cc.
  apply Qabs_Qle_condition in Cp. apply Qabs_Qle_condition in Cc.
  destruct Cp as [Cp1 Cp2], Cc as [Cc1 Cc2].
  pose proof (two_digit_product (of_cents pc) pc n ltac:(reflexivity)) as EC.
  unfold unrounded_cost64 in *.
  destruct (Z.lt_trichotomy cash (pc * n)) as [H|[H|H]]; [|congruence|].
  - pose proof (of_cents_step _ _ H).
    transitivity true; [apply Qltb_lt; lra|symmetry; apply Qltb_lt; lra].
  - pose proof (of_cents_step _ _ H).
    transitivity false; [apply Qltb_ge; lra|symmetry; apply Qltb_ge; lra].
Qed.

Lemma unrounded_cost_in_binary64_witness :
  Qltb (fl (of_cents 500000)) (unrounded_cost64 (fl (of_cents 15000)) 10)
  = Qltb (of_cents 500000) (of_cents 15000 * inject_Z 10).
Proof.
  apply (proj1 unrounded_cost_in_binary64 15000 10 500000); lia.
Defined.

End Binary64Facts.
